(** * OBEX client session core and phonebook folder navigation

    A shallow embedding of [src/client/session.c] (session bring-up,
    reference counting, registry, transfer admission) and of
    [phonebook_set_folder] from [src/plugins/phonebook-tracker.c],
    together with the properties the specification states about them. *)

From Stdlib Require Import ZArith Lia List Bool Ascii String.
From stdpp Require Import base option list gmap pretty.
Import ListNotations.

Local Open Scope Z_scope.

(** ** errno values (Linux [errno.h]) *)

Definition ENOENT : Z := 2.
Definition EIO : Z := 5.
Definition ENOMEM : Z := 12.
Definition EINVAL : Z := 22.
Definition EBADR : Z := 53.
Definition EISCONN : Z := 106.
Definition ENOTCONN : Z := 107.
Definition EALREADY : Z := 114.
Definition ECANCELED : Z := 125.

(** ** The GLib string helpers the sources call

    These follow GLib's implementation of the functions ([gstrfuncs.c],
    [gfileutils.c]) on NUL-terminated strings, with [G_DIR_SEPARATOR]
    being the slash. *)

Module GLib.

Definition is_sep (c : ascii) : bool := Ascii.eqb c "/"%char.

(** [g_str_equal]: both arguments are non-NULL strings. *)
Definition g_str_equal (a b : string) : bool := String.eqb a b.

(** [g_strcmp0]: [strcmp] that accepts NULL, NULL sorting first. *)
Definition g_strcmp0 (a b : option string) : Z :=
  match a, b with
  | None, None => 0
  | None, Some _ => -1
  | Some _, None => 1
  | Some x, Some y =>
      match String.compare x y with
      | Eq => 0
      | Lt => -1
      | Gt => 1
      end
  end.

Fixpoint drop_seps (l : list ascii) : list ascii :=
  match l with
  | c :: r => if is_sep c then drop_seps r else l
  | [] => []
  end.

Fixpoint take_component (l : list ascii) : list ascii :=
  match l with
  | c :: r => if is_sep c then [] else c :: take_component r
  | [] => []
  end.

(** [g_path_get_basename]: ["."] for the empty string, ["/"] for a
    string of separators only, else the last component without its
    trailing separators. *)
Definition g_path_get_basename (file_name : string) : string :=
  match list_ascii_of_string file_name with
  | [] => "."%string
  | cs =>
      match drop_seps (rev cs) with
      | [] => "/"%string
      | rs => string_of_list_ascii (rev (take_component rs))
      end
  end.

(** The scan of [g_strrstr]: [p] runs from the last possible position
    down to the start of the haystack. *)
Fixpoint strrstr_from (haystack needle : string) (p : nat) : option nat :=
  if String.prefix needle (String.substring p (String.length haystack - p) haystack)
  then Some p
  else match p with
       | O => None
       | S p' => strrstr_from haystack needle p'
       end.

(** [g_strrstr]: offset of the last occurrence of [needle], NULL when
    there is none; an empty needle yields the haystack itself. *)
Definition g_strrstr (haystack needle : string) : option nat :=
  let needle_len := String.length needle in
  let haystack_len := String.length haystack in
  if Nat.eqb needle_len 0 then Some O
  else if Nat.ltb haystack_len needle_len then None
  else strrstr_from haystack needle (haystack_len - needle_len).

(** [g_strndup] for a non-NULL string: at most [n] leading bytes. *)
Definition g_strndup (str : string) (n : nat) : string :=
  String.substring 0 (Nat.min n (String.length str)) str.

(** One pass of the loop of [g_build_path_va] with the separator ["/"]. *)
Record build_state := {
  result : list ascii;
  is_first : bool;
  have_leading : bool;
  single_element : option (list ascii);
  last_trailing : option (list ascii)
}.

Definition build_init : build_state :=
  {| result := []; is_first := true; have_leading := false;
     single_element := None; last_trailing := None |}.

Definition build_step (st : build_state) (element : list ascii) : build_state :=
  match element with
  | [] => st                                   (* empty elements are ignored *)
  | _ =>
      let start := drop_seps element in
      let leading := take (length element - length start)%nat element in
      let body := rev (drop_seps (rev start)) in (* start .. end *)
      let trailing :=
        match body with
        | [] => element                        (* separators only *)
        | _ => drop (length body) start
        end in
      let overlap := match body with [] => true | _ => false end in
      let st1 :=
        if have_leading st
        then {| result := result st; is_first := is_first st;
                have_leading := true; single_element := None;
                last_trailing := Some trailing |}
        else {| result := result st ++ leading; is_first := is_first st;
                have_leading := true;
                single_element := if overlap then Some element else single_element st;
                last_trailing := Some trailing |} in
      match body with
      | [] => st1
      | _ =>
          {| result := (if is_first st1 then result st1 else result st1 ++ ["/"%char]) ++ body;
             is_first := false;
             have_leading := have_leading st1;
             single_element := single_element st1;
             last_trailing := last_trailing st1 |}
      end
  end.

(** [g_build_filename] on the elements given before the terminating
    NULL. *)
Definition g_build_filename (elements : list string) : string :=
  let st := fold_left build_step (map list_ascii_of_string elements) build_init in
  match single_element st with
  | Some e => string_of_list_ascii e
  | None =>
      string_of_list_ascii
        (result st ++ match last_trailing st with Some t => t | None => [] end)
  end.

End GLib.

(** ** Phonebook folder navigation ([phonebook-tracker.c]) *)

Module Phonebook.
Import GLib.

Local Open Scope string_scope.

(** [folder_is_valid]: the fixed list of PBAP folders. *)
Definition folder_is_valid (folder : option string) : bool :=
  match folder with
  | None => false
  | Some folder =>
      if g_str_equal folder "/" then true
      else if g_str_equal folder "/telecom" then true
      else if g_str_equal folder "/telecom/pb" then true
      else if g_str_equal folder "/telecom/ich" then true
      else if g_str_equal folder "/telecom/och" then true
      else if g_str_equal folder "/telecom/mch" then true
      else if g_str_equal folder "/telecom/cch" then true
      else false
  end.

(** The whitelist as data, for the statements. *)
Definition valid_folders : list string :=
  ["/"; "/telecom"; "/telecom/pb"; "/telecom/ich"; "/telecom/och";
   "/telecom/mch"; "/telecom/cch"].

(** The two flag values [phonebook_set_folder] switches on. *)
Definition FLAGS_ENTER : Z := 2.   (* case 0x02 *)
Definition FLAGS_UP : Z := 3.      (* case 0x03 *)

(** What the [switch] of [phonebook_set_folder] leaves in [path] and
    [ret] on reaching [done:].  [Undefined] stands for the executions in
    which the C code subtracts a pointer into the string from NULL or
    duplicates a negative number of bytes. *)
Inductive switch_result :=
| AtDone (path : option string) (ret : Z)
| Undefined.

Definition build2 (first : option string) (second : string) : string :=
  match first with
  | None => g_build_filename []
  | Some f => g_build_filename [f; second]
  end.

Definition set_folder_switch (current_folder new_folder : option string)
    (flags : Z) : switch_result :=
  let root := Z.eqb (g_strcmp0 (Some "/") current_folder) 0 in
  let child := match new_folder with
               | Some n => negb (Nat.eqb (String.length n) 0)
               | None => false
               end in
  let new_name := match new_folder with Some n => n | None => "" end in
  if Z.eqb flags 2 then
    if negb child then AtDone (Some "/") 0
    else AtDone (Some (build2 current_folder new_name)) 0
  else if Z.eqb flags 3 then
    if root then AtDone (Some "/") 0
    else
      match current_folder with
      | None =>
          (* g_path_get_basename, g_strrstr and g_strndup check their
             argument and hand NULL back for NULL; [len] is -1 *)
          if negb child then AtDone None 0
          else AtDone (Some (build2 None new_name)) 0
      | Some current =>
          let tmp1 := g_path_get_basename current in
          match g_strrstr current tmp1 with
          | None => Undefined
          | Some tmp2 =>
              let len := Z.of_nat tmp2 - 1 in
              if Z.ltb len 0 then Undefined
              else
                let base := if Z.eqb len 0 then "/" else g_strndup current (Z.to_nat len) in
                if negb child then AtDone (Some base) 0
                else AtDone (Some (build2 (Some base) new_name)) 0
          end
      end
  else AtDone None (- EBADR).

(** The value returned and the value stored through [err] (when the
    caller passes a non-NULL [err]). *)
Record set_folder_result := {
  sf_path : option string;
  sf_ret : Z;
  sf_err : option Z
}.

Definition phonebook_set_folder (current_folder new_folder : option string)
    (flags : Z) (err : bool) : option set_folder_result :=
  match set_folder_switch current_folder new_folder flags with
  | Undefined => None
  | AtDone path ret =>
      let ret := match path with
                 | Some _ => if negb (folder_is_valid path) then - ENOENT else ret
                 | None => ret
                 end in
      let path := if Z.ltb ret 0 then None else path in
      Some {| sf_path := path; sf_ret := ret;
              sf_err := if err then Some ret else None |}
  end.

End Phonebook.

(** ** The session core ([session.c]) *)

Module Session.
Import GLib.

(** *** Data *)

(** Addresses of heap objects ([struct obc_session *],
    [struct obc_transfer *]). *)
Definition loc := positive.

(** [bdaddr_t]: six bytes. *)
Definition bdaddr_t := list Z.
Definition BDADDR_ANY : bdaddr_t := [0; 0; 0; 0; 0; 0].

(** [bacmp] is [memcmp]; only its being zero is ever tested. *)
Definition bacmp (a b : bdaddr_t) : Z := if bool_decide (a = b) then 0 else 1.

(** [gint] and the unsigned widths, with their wrap-around. *)
Definition wrap_gint (z : Z) : Z := (z + 2 ^ 31) mod 2 ^ 32 - 2 ^ 31.
Definition wrap_uint8 (z : Z) : Z := z mod 2 ^ 8.
Definition wrap_uint (z : Z) : Z := z mod 2 ^ 32.

Definition SESSION_INTERFACE : string := "org.openobex.Session".
Definition SESSION_BASEPATH : string := "/org/openobex".
Definition BT_BUS_NAME : string := "org.bluez".
Definition BT_PATH : string := "/".
Definition BT_ADAPTER_IFACE : string := "org.bluez.Adapter".
Definition BT_MANAGER_IFACE : string := "org.bluez.Manager".

(** [GError]: domain quark, code and message. *)
Record GError := {
  domain : string;
  code : Z;
  message : string
}.

(** [OBEX_IO_ERROR], the quark of [obex_io_error_quark]. *)
Definition OBEX_IO_ERROR : string := "obex-io-error-quark".

(** [struct obc_driver] (driver.h): the service definition. [probe]
    and [remove] are hooks of the service front-end; only their presence
    is recorded. *)
Record obc_driver := {
  service : string;
  uuid : string;
  target : option (list Z);
  target_len : Z;
  probe : bool;
  remove : bool
}.

(** [struct obc_agent] (agent.h), opaque to the session but for its
    name and path. *)
Record obc_agent := {
  agent_name : string;
  agent_path : string
}.

(** A [session_callback_t] of a front-end, and its [void *] argument,
    are identified by their addresses. *)
Definition session_callback_t := nat.
Definition user_data_t := nat.

Record callback_data := {
  cb_session : loc;
  cb_sdp : option nat;
  cb_func : session_callback_t;
  cb_data : user_data_t
}.

Record session_callback := {
  sc_func : session_callback_t;
  sc_data : user_data_t
}.

(** The two static continuations handed to [session_request]. *)
Inductive prepare_fn := session_prepare_get_fn | session_prepare_put_fn.

Record pending_data := {
  pd_cb : prepare_fn;
  pd_session : loc;
  pd_transfer : loc
}.

Record pending_req := {
  req_call : nat;                       (* DBusPendingCall * *)
  req_user_data : option callback_data
}.

Record obc_session := {
  refcount : Z;
  src : bdaddr_t;
  dst : bdaddr_t;
  channel : Z;
  driver : option obc_driver;
  path : option string;
  conn : option nat;
  conn_system : option nat;
  obex : option nat;
  io : option nat;
  agent : option obc_agent;
  callback : option session_callback;
  owner : option string;
  watch : Z;
  pending : list loc;
  pending_calls : list pending_req;
  adapter : option string
}.

(** The object [g_try_malloc0] hands out. *)
Definition zeroed_session : obc_session :=
  {| refcount := 0; src := BDADDR_ANY; dst := BDADDR_ANY; channel := 0;
     driver := None; path := None; conn := None; conn_system := None;
     obex := None; io := None; agent := None; callback := None;
     owner := None; watch := 0; pending := []; pending_calls := [];
     adapter := None |}.

Definition set_refcount (v : Z) (s : obc_session) : obc_session :=
  {| refcount := v; src := src s; dst := dst s; channel := channel s;
     driver := driver s; path := path s; conn := conn s;
     conn_system := conn_system s; obex := obex s; io := io s;
     agent := agent s; callback := callback s; owner := owner s;
     watch := watch s; pending := pending s;
     pending_calls := pending_calls s; adapter := adapter s |}.

Definition set_src (v : bdaddr_t) (s : obc_session) : obc_session :=
  {| refcount := refcount s; src := v; dst := dst s; channel := channel s;
     driver := driver s; path := path s; conn := conn s;
     conn_system := conn_system s; obex := obex s; io := io s;
     agent := agent s; callback := callback s; owner := owner s;
     watch := watch s; pending := pending s;
     pending_calls := pending_calls s; adapter := adapter s |}.

Definition set_dst (v : bdaddr_t) (s : obc_session) : obc_session :=
  {| refcount := refcount s; src := src s; dst := v; channel := channel s;
     driver := driver s; path := path s; conn := conn s;
     conn_system := conn_system s; obex := obex s; io := io s;
     agent := agent s; callback := callback s; owner := owner s;
     watch := watch s; pending := pending s;
     pending_calls := pending_calls s; adapter := adapter s |}.

Definition set_channel (v : Z) (s : obc_session) : obc_session :=
  {| refcount := refcount s; src := src s; dst := dst s; channel := v;
     driver := driver s; path := path s; conn := conn s;
     conn_system := conn_system s; obex := obex s; io := io s;
     agent := agent s; callback := callback s; owner := owner s;
     watch := watch s; pending := pending s;
     pending_calls := pending_calls s; adapter := adapter s |}.

Definition set_driver (v : option obc_driver) (s : obc_session) : obc_session :=
  {| refcount := refcount s; src := src s; dst := dst s; channel := channel s;
     driver := v; path := path s; conn := conn s;
     conn_system := conn_system s; obex := obex s; io := io s;
     agent := agent s; callback := callback s; owner := owner s;
     watch := watch s; pending := pending s;
     pending_calls := pending_calls s; adapter := adapter s |}.

Definition set_path (v : option string) (s : obc_session) : obc_session :=
  {| refcount := refcount s; src := src s; dst := dst s; channel := channel s;
     driver := driver s; path := v; conn := conn s;
     conn_system := conn_system s; obex := obex s; io := io s;
     agent := agent s; callback := callback s; owner := owner s;
     watch := watch s; pending := pending s;
     pending_calls := pending_calls s; adapter := adapter s |}.

Definition set_conn (v : option nat) (s : obc_session) : obc_session :=
  {| refcount := refcount s; src := src s; dst := dst s; channel := channel s;
     driver := driver s; path := path s; conn := v;
     conn_system := conn_system s; obex := obex s; io := io s;
     agent := agent s; callback := callback s; owner := owner s;
     watch := watch s; pending := pending s;
     pending_calls := pending_calls s; adapter := adapter s |}.

Definition set_conn_system (v : option nat) (s : obc_session) : obc_session :=
  {| refcount := refcount s; src := src s; dst := dst s; channel := channel s;
     driver := driver s; path := path s; conn := conn s;
     conn_system := v; obex := obex s; io := io s;
     agent := agent s; callback := callback s; owner := owner s;
     watch := watch s; pending := pending s;
     pending_calls := pending_calls s; adapter := adapter s |}.

Definition set_obex (v : option nat) (s : obc_session) : obc_session :=
  {| refcount := refcount s; src := src s; dst := dst s; channel := channel s;
     driver := driver s; path := path s; conn := conn s;
     conn_system := conn_system s; obex := v; io := io s;
     agent := agent s; callback := callback s; owner := owner s;
     watch := watch s; pending := pending s;
     pending_calls := pending_calls s; adapter := adapter s |}.

Definition set_io (v : option nat) (s : obc_session) : obc_session :=
  {| refcount := refcount s; src := src s; dst := dst s; channel := channel s;
     driver := driver s; path := path s; conn := conn s;
     conn_system := conn_system s; obex := obex s; io := v;
     agent := agent s; callback := callback s; owner := owner s;
     watch := watch s; pending := pending s;
     pending_calls := pending_calls s; adapter := adapter s |}.

Definition set_agent (v : option obc_agent) (s : obc_session) : obc_session :=
  {| refcount := refcount s; src := src s; dst := dst s; channel := channel s;
     driver := driver s; path := path s; conn := conn s;
     conn_system := conn_system s; obex := obex s; io := io s;
     agent := v; callback := callback s; owner := owner s;
     watch := watch s; pending := pending s;
     pending_calls := pending_calls s; adapter := adapter s |}.

Definition set_callback (v : option session_callback) (s : obc_session) : obc_session :=
  {| refcount := refcount s; src := src s; dst := dst s; channel := channel s;
     driver := driver s; path := path s; conn := conn s;
     conn_system := conn_system s; obex := obex s; io := io s;
     agent := agent s; callback := v; owner := owner s;
     watch := watch s; pending := pending s;
     pending_calls := pending_calls s; adapter := adapter s |}.

Definition set_owner (v : option string) (s : obc_session) : obc_session :=
  {| refcount := refcount s; src := src s; dst := dst s; channel := channel s;
     driver := driver s; path := path s; conn := conn s;
     conn_system := conn_system s; obex := obex s; io := io s;
     agent := agent s; callback := callback s; owner := v;
     watch := watch s; pending := pending s;
     pending_calls := pending_calls s; adapter := adapter s |}.

Definition set_watch (v : Z) (s : obc_session) : obc_session :=
  {| refcount := refcount s; src := src s; dst := dst s; channel := channel s;
     driver := driver s; path := path s; conn := conn s;
     conn_system := conn_system s; obex := obex s; io := io s;
     agent := agent s; callback := callback s; owner := owner s;
     watch := v; pending := pending s;
     pending_calls := pending_calls s; adapter := adapter s |}.

Definition set_pending (v : list loc) (s : obc_session) : obc_session :=
  {| refcount := refcount s; src := src s; dst := dst s; channel := channel s;
     driver := driver s; path := path s; conn := conn s;
     conn_system := conn_system s; obex := obex s; io := io s;
     agent := agent s; callback := callback s; owner := owner s;
     watch := watch s; pending := v;
     pending_calls := pending_calls s; adapter := adapter s |}.

Definition set_pending_calls (v : list pending_req) (s : obc_session) : obc_session :=
  {| refcount := refcount s; src := src s; dst := dst s; channel := channel s;
     driver := driver s; path := path s; conn := conn s;
     conn_system := conn_system s; obex := obex s; io := io s;
     agent := agent s; callback := callback s; owner := owner s;
     watch := watch s; pending := pending s;
     pending_calls := v; adapter := adapter s |}.

Definition set_adapter (v : option string) (s : obc_session) : obc_session :=
  {| refcount := refcount s; src := src s; dst := dst s; channel := channel s;
     driver := driver s; path := path s; conn := conn s;
     conn_system := conn_system s; obex := obex s; io := io s;
     agent := agent s; callback := callback s; owner := owner s;
     watch := watch s; pending := pending s;
     pending_calls := pending_calls s; adapter := v |}.

(** [struct obc_transfer] (transfer.h), as far as the session reads
    it: the owning session, the exported object path (absent for the
    OBEX-internal types) and the total size. *)
Record obc_transfer := {
  t_session : loc;
  t_path : option string;
  t_size : Z
}.

(** *** Calls that leave the session core

    Every call into D-Bus, BlueZ, GObex, the agent, the transfer object,
    the driver or a front-end callback is recorded, in order. *)

Inductive notify_fn := manager_reply_fn | adapter_reply_fn.
Inductive watch_fn := service_callback_fn | process_callback_fn.
Inductive idle_fn :=
| connection_complete_fn (cb : callback_data)
| session_request_proceed_fn (p : pending_data).

Inductive event :=
| EvSendMessage (c : option nat) (dest : string) (opath : option string)
    (iface method : string)
| EvSendWithReply (c : option nat) (dest : string) (opath : option string)
    (iface method : string) (notify : notify_fn) (cb : option callback_data)
    (call : nat)
| EvPendingCallCancel (call : nat)
| EvPendingCallUnref (call : nat)
| EvFunc (func : session_callback_t) (s : loc) (err : option GError)
    (data : user_data_t)
| EvIdleAdd (f : idle_fn)
| EvBtIoConnect (s d : bdaddr_t) (ch : Z) (cb : callback_data)
| EvSdpConnect (s d : bdaddr_t)
| EvSdpClose (sdp : option nat)
| EvSdpSetNotify (sdp : option nat)
| EvSdpSearchAttrAsync (sdp : option nat) (uuid128 : list Z) (range : Z)
| EvSdpProcess (sdp : option nat)
| EvIoAddWatch (i : nat) (f : watch_fn) (cb : callback_data)
| EvIoShutdown (i : option nat)
| EvIoUnref (i : option nat)
| EvShutdownFd (i : nat)
| EvObexConnect (o : nat) (tgt : option (list Z))
| EvObexUnref (o : nat)
| EvAgentRequest (a : obc_agent) (tpath : string) (p : pending_data)
| EvAgentNotifyProgress (a : obc_agent) (tpath : string) (transferred : Z)
| EvAgentNotifyComplete (a : obc_agent) (tpath : string)
| EvAgentNotifyError (a : obc_agent) (tpath : string) (msg : string)
| EvAgentRelease (a : obc_agent)
| EvAgentFree (a : obc_agent)
| EvAddDisconnectWatch (c : option nat) (name : string)
| EvRemoveWatch (c : option nat) (id : Z)
| EvDriverRemove (s : loc)
| EvDriverProbe (s : loc)
| EvRegisterInterface (c : option nat) (opath : string) (iface : string)
| EvUnregisterInterface (c : option nat) (opath : option string) (iface : string)
| EvConnUnref (c : nat)
| EvTransferRegister (t : loc) (filename name type : option string)
| EvTransferUnregister (t : loc)
| EvTransferSetName (t : loc) (name : string)
| EvTransferSetBuffer (t : loc)
| EvTransferSetFile (t : loc)
| EvTransferGet (t : loc)
| EvTransferPut (t : loc)
| EvFree (s : loc).

(** *** What the environment answers

    The outcome of each call whose result the session inspects. *)
Record extern := {
  (* libdbus *)
  x_message_new : string -> bool;          (* dbus_message_new_method_call, by method *)
  x_append_args : string -> bool;          (* dbus_message_append_args_valist *)
  x_send_with_reply : string -> option nat;(* dbus_connection_send_with_reply *)
  x_bus_session : option nat;              (* dbus_bus_get(DBUS_BUS_SESSION) *)
  x_bus_system : option nat;               (* g_dbus_setup_bus(DBUS_BUS_SYSTEM) *)
  x_add_disconnect_watch : Z;              (* g_dbus_add_disconnect_watch *)
  (* glib *)
  x_malloc_session : bool;                 (* g_try_malloc0(sizeof( *session)) *)
  x_malloc_callback : bool;                (* g_try_malloc0(sizeof( *callback)) *)
  (* btio, sdp *)
  x_bt_io_connect : option nat;            (* bt_io_connect *)
  x_sdp_connect : option nat;              (* sdp_connect *)
  x_io_channel_unix_new : option nat;      (* g_io_channel_unix_new *)
  x_sdp_set_notify : Z;
  x_sdp_service_search_attr_async : Z;
  x_sdp_process : Z;
  x_sscanf_uuid : string -> option (Z * Z * Z * Z * Z * Z);
                                           (* the six fields sscanf converts *)
  (* gobex *)
  x_obex_new : option nat;                 (* g_obex_new *)
  x_obex_connect_err : option GError;      (* the GError g_obex_connect sets *)
  (* agent and transfer *)
  x_agent_request : Z;                     (* obc_agent_request *)
  x_transfer_register : option (option string * Z);
                                           (* obc_transfer_register: path and size *)
  x_transfer_set_file : Z;
  x_transfer_get : Z;
  x_transfer_put : Z;
  (* interface registration *)
  x_register_interface : bool;             (* g_dbus_register_interface *)
  x_driver_probe : Z                       (* driver->probe(session) *)
}.

(** *** The state of the process *)

Record world := {
  heap : gmap loc obc_session;      (* live [struct obc_session] objects *)
  sessions : list loc;              (* [static GSList *sessions] *)
  transfers : gmap loc obc_transfer;(* live transfer objects (transfer.c) *)
  completed : list nat;             (* pending calls libdbus has completed *)
  next_loc : loc;                   (* the next address the allocator returns *)
  counter : Z;                      (* [static guint64 counter] *)
  trace : list event                (* calls made so far, oldest first *)
}.

Definition with_heap (h : gmap loc obc_session) (w : world) : world :=
  {| heap := h; sessions := sessions w; transfers := transfers w;
     completed := completed w; next_loc := next_loc w;
     counter := counter w; trace := trace w |}.

Definition with_sessions (l : list loc) (w : world) : world :=
  {| heap := heap w; sessions := l; transfers := transfers w;
     completed := completed w; next_loc := next_loc w;
     counter := counter w; trace := trace w |}.

Definition with_transfers (t : gmap loc obc_transfer) (w : world) : world :=
  {| heap := heap w; sessions := sessions w; transfers := t;
     completed := completed w; next_loc := next_loc w;
     counter := counter w; trace := trace w |}.

Definition with_next_loc (n : loc) (w : world) : world :=
  {| heap := heap w; sessions := sessions w; transfers := transfers w;
     completed := completed w; next_loc := n;
     counter := counter w; trace := trace w |}.

Definition with_trace (t : list event) (w : world) : world :=
  {| heap := heap w; sessions := sessions w; transfers := transfers w;
     completed := completed w; next_loc := next_loc w;
     counter := counter w; trace := t |}.

(** *** State and fault monad

    A computation maps a world to a result and a new world; [None]
    stands for a run without a defined result: the dereference of an
    address that holds no live object, the use of a value that was never
    set, or a scan that does not end within its bound. *)
Definition M (A : Type) : Type := world -> option (A * world).

Definition ret {A} (a : A) : M A := fun w => Some (a, w).

Definition bind {A B} (m : M A) (f : A -> M B) : M B :=
  fun w => match m w with
           | Some (a, w') => f a w'
           | None => None
           end.

Notation "'let*' x := m 'in' k" := (bind m (fun x => k))
  (at level 10, x name, m at level 100, k at level 200).

Definition fault {A} : M A := fun _ => None.

Definition emit (e : event) : M unit :=
  fun w => Some (tt, with_trace (trace w ++ [e]) w).

Definition when (b : bool) (m : M unit) : M unit := if b then m else ret tt.

(** [*s] *)
Definition load (s : loc) : M obc_session :=
  fun w => match heap w !! s with
           | Some v => Some (v, w)
           | None => None
           end.

(** [*s = v] *)
Definition store (s : loc) (v : obc_session) : M unit :=
  fun w => match heap w !! s with
           | Some _ => Some (tt, with_heap (<[s := v]> (heap w)) w)
           | None => None
           end.

(** [s->field = ...] *)
Definition update (s : loc) (f : obc_session -> obc_session) : M unit :=
  let* v := load s in store s (f v).

Definition load_transfer (t : loc) : M obc_transfer :=
  fun w => match transfers w !! t with
           | Some v => Some (v, w)
           | None => None
           end.

(** [g_slist_remove]: drops the first node holding the datum. *)
Fixpoint g_slist_remove {A} (eqb : A -> A -> bool) (l : list A) (x : A) : list A :=
  match l with
  | [] => []
  | y :: r => if eqb y x then r else y :: g_slist_remove eqb r x
  end.

Definition req_eqb (a b : pending_req) : bool := Nat.eqb (req_call a) (req_call b).

Fixpoint forM {A} (l : list A) (f : A -> M unit) : M unit :=
  match l with
  | [] => ret tt
  | x :: r => let* _ := f x in forM r f
  end.

(** *** Reference counting and teardown *)

Section Core.

Variable X : extern.

(** [obc_session_ref] *)
Definition obc_session_ref (session : loc) : M loc :=
  let* _ := update session (fun s => set_refcount (wrap_gint (refcount s + 1)) s) in
  ret session.

(** [session_unregistered] *)
Definition session_unregistered (session : loc) : M unit :=
  let* s := load session in
  let* _ := when (match driver s with Some d => remove d | None => false end)
                 (emit (EvDriverRemove session)) in
  let p := path s in
  let* _ := update session (set_path None) in
  emit (EvUnregisterInterface (conn s) p SESSION_INTERFACE).

(** [find_session_request] *)
Fixpoint find_request (l : list pending_req) (call : nat) : option pending_req :=
  match l with
  | [] => None
  | req :: r => if Nat.eqb (req_call req) call then Some req else find_request r call
  end.

Definition find_session_request (session : loc) (call : nat) : M (option pending_req) :=
  let* s := load session in
  ret (find_request (pending_calls s) call).

(** [pending_req_finalize] *)
Definition pending_req_finalize (req : pending_req) : M unit :=
  fun w =>
    (let* _ := when (negb (existsb (Nat.eqb (req_call req)) (completed w)))
                    (emit (EvPendingCallCancel (req_call req))) in
     emit (EvPendingCallUnref (req_call req))) w.

(** [session_free] *)
Definition session_free (session : loc) : M unit :=
  let* s := load session in
  let* _ := forM (pending_calls s) (fun req =>
              let* _ := update session (fun s' =>
                          set_pending_calls (g_slist_remove req_eqb (pending_calls s') req) s') in
              pending_req_finalize req) in
  let* _ := match agent s with
            | Some a => let* _ := emit (EvAgentRelease a) in emit (EvAgentFree a)
            | None => ret tt
            end in
  let* _ := when (negb (watch s =? 0)) (emit (EvRemoveWatch (conn s) (watch s))) in
  let* _ := match obex s with
            | Some o => emit (EvObexUnref o)
            | None => ret tt
            end in
  let* _ := match io s with
            | Some i => let* _ := emit (EvIoShutdown (Some i)) in emit (EvIoUnref (Some i))
            | None => ret tt
            end in
  let* _ := match path s with
            | Some _ => session_unregistered session
            | None => ret tt
            end in
  let* _ := match conn s with
            | Some c => emit (EvConnUnref c)
            | None => ret tt
            end in
  let* _ := match conn_system s with
            | Some c => emit (EvConnUnref c)
            | None => ret tt
            end in
  let* _ := (fun w => Some (tt, with_sessions (g_slist_remove Pos.eqb (sessions w) session) w)) in
  let* _ := emit (EvFree session) in
  fun w => Some (tt, with_heap (delete session (heap w)) w).

(** [send_method_call].  [cb] is the reply handler, NULL for a message
    that expects no reply; the variadic arguments only matter through
    the success of appending them. *)
Definition send_method_call (connection : option nat) (dest : string)
    (opath : option string) (interface method : string)
    (cb : option notify_fn) (user_data : option callback_data)
    : M (option pending_req) :=
  if negb (x_message_new X method) then ret None
  else if negb (x_append_args X method) then ret None
  else
    match cb with
    | None =>
        let* _ := emit (EvSendMessage connection dest opath interface method) in
        ret None
    | Some notify =>
        match x_send_with_reply X method with
        | None => ret None
        | Some call =>
            let* _ := emit (EvSendWithReply connection dest opath interface method
                              notify user_data call) in
            ret (Some {| req_call := call; req_user_data := user_data |})
        end
    end.

(** [obc_session_unref] *)
Definition obc_session_unref (session : loc) : M unit :=
  let* s := load session in
  let count := wrap_gint (refcount s - 1) in
  let* _ := store session (set_refcount count s) in
  (* g_atomic_int_dec_and_test: TRUE when the new value is zero *)
  if negb (count =? 0) then ret tt
  else
    let* _ := send_method_call (conn_system s) BT_BUS_NAME (adapter s)
                BT_ADAPTER_IFACE "ReleaseSession" None None in
    session_free session.

(** *** Transport and OBEX connect *)

Definition G_OBEX_RSP_SUCCESS : Z := 32.  (* 0x20 *)

Definition hex_digit (n : Z) : ascii :=
  nth (Z.to_nat n) (list_ascii_of_string "0123456789abcdef") "0"%char.

(** The ["%02x"] of [printf] for a byte. *)
Definition hex02 (n : Z) : string :=
  String (hex_digit (n / 16)) (String (hex_digit (n mod 16)) EmptyString).

(** [connect_cb]: [rsp_code] is what [g_obex_packet_get_operation]
    reads from the response. *)
Definition connect_cb (err : option GError) (rsp_code : Z)
    (callback : callback_data) : M unit :=
  let gerr :=
    match err with
    | Some e => Some e
    | None =>
        if negb (rsp_code =? G_OBEX_RSP_SUCCESS)
        then Some {| domain := OBEX_IO_ERROR; code := - EIO;
                     message := String.append "OBEX Connect failed with 0x" (hex02 rsp_code) |}
        else None
    end in
  let* _ := emit (EvFunc (cb_func callback) (cb_session callback) gerr (cb_data callback)) in
  obc_session_unref (cb_session callback).

(** The [done:] exit of [rfcomm_callback]. *)
Definition rfcomm_callback_done (err : option GError) (callback : callback_data)
    : M unit :=
  let* _ := emit (EvFunc (cb_func callback) (cb_session callback) err (cb_data callback)) in
  obc_session_unref (cb_session callback).

(** [rfcomm_callback] *)
Definition rfcomm_callback (err : option GError) (callback : callback_data)
    : M unit :=
  let session := cb_session callback in
  let* s := load session in
  match err with
  | Some _ => rfcomm_callback_done err callback
  | None =>
      match x_obex_new X with
      | None => rfcomm_callback_done None callback
      | Some o =>
          let* _ := emit (EvIoUnref (io s)) in
          let* _ := update session (set_io None) in
          match driver s with
          | None => fault
          | Some d =>
              let* _ := emit (EvObexConnect o (target d)) in
              match x_obex_connect_err X with
              | Some e =>
                  let* _ := emit (EvObexUnref o) in
                  rfcomm_callback_done (Some e) callback
              | None =>
                  let* _ := update session (set_obex (Some o)) in
                  fun w => Some (tt, with_sessions (session :: sessions w) w)
              end
          end
      end
  end.

(** [rfcomm_connect] *)
Definition rfcomm_connect (s d : bdaddr_t) (ch : Z) (user_data : callback_data)
    : M (option nat) :=
  let* _ := emit (EvBtIoConnect s d ch user_data) in
  ret (x_bt_io_connect X).

(** *** Service discovery

    The SDP library ([sdp_lib.h]) parses the response; its record type
    and parsing functions are left to it.  A position in the response
    buffer is an offset into [rsp]. *)

Variable sdp_record_t : Type.
Variable sdp_list_t : Type.
(** [sdp_extract_seqtype buf off bufsize]: bytes scanned and [seqlen]. *)
Variable sdp_extract_seqtype : list Z -> Z -> Z -> Z * Z.
(** [sdp_extract_pdu buf off bufsize]: the record and [recsize], NULL
    being [None]. *)
Variable sdp_extract_pdu : list Z -> Z -> Z -> option (sdp_record_t * Z).
(** [sdp_get_access_protos]: the protocol list, when it returns 0. *)
Variable sdp_get_access_protos : sdp_record_t -> option sdp_list_t.
(** [sdp_get_proto_port protos proto]. *)
Variable sdp_get_proto_port : sdp_list_t -> Z -> Z.

Definition SDP_SVC_SEARCH_ATTR_RSP : Z := 7.
Definition RFCOMM_UUID : Z := 3.

(** The channel one record offers: [ch] after the body of the loop. *)
Definition record_channel (rec : sdp_record_t) : Z :=
  match sdp_get_access_protos rec with
  | Some protos => sdp_get_proto_port protos RFCOMM_UUID
  | None => -1
  end.

(** The [do ... while] of [search_callback]; the result is the final
    [channel], [None] when [fuel] iterations did not reach the exit. *)
Fixpoint search_records (fuel : nat) (rsp : list Z) (size : Z)
    (off scanned bytesleft : Z) : option Z :=
  match fuel with
  | O => None
  | S fuel' =>
      match sdp_extract_pdu rsp off bytesleft with
      | None => Some 0
      | Some (rec, recsize) =>
          if recsize =? 0 then Some 0
          else
            let ch := record_channel rec in
            if 0 <? ch then Some (wrap_uint8 ch)
            else
              let scanned' := wrap_uint (scanned + recsize) in
              let off' := off + recsize in
              let bytesleft' := wrap_uint (bytesleft - recsize) in
              if (scanned' <? size) && (0 <? bytesleft')
              then search_records fuel' rsp size off' scanned' bytesleft'
              else Some 0
      end
  end.

Definition service_record_error : GError :=
  {| domain := OBEX_IO_ERROR; code := - EIO;
     message := "Unable to find service record" |}.

(** The [failed:] exit shared by [search_callback] and
    [service_callback]. *)
Definition discovery_failed (callback : callback_data) : M unit :=
  let session := cb_session callback in
  let* s := load session in
  let* _ := emit (EvIoShutdown (io s)) in
  let* _ := emit (EvIoUnref (io s)) in
  let* _ := update session (set_io None) in
  let* _ := emit (EvFunc (cb_func callback) session (Some service_record_error)
                    (cb_data callback)) in
  obc_session_unref (cb_session callback).

(** The channel [search_callback] extracts before it tests
    [channel == 0]; 0 also when the response is rejected up front. *)
Definition search_channel (type status : Z) (rsp : list Z) (size : Z) : option Z :=
  let bytesleft := wrap_uint size in
  if negb (status =? 0) || negb (type =? SDP_SVC_SEARCH_ATTR_RSP) then Some 0
  else
    let '(scanned, seqlen) := sdp_extract_seqtype rsp 0 bytesleft in
    if (scanned =? 0) || (seqlen =? 0) then Some 0
    else
      let bytesleft := wrap_uint (bytesleft - scanned) in
      search_records (S (Z.to_nat bytesleft)) rsp size scanned scanned bytesleft.

(** [search_callback] *)
Definition search_callback (type status : Z) (rsp : list Z) (size : Z)
    (callback : callback_data) : M unit :=
  let session := cb_session callback in
  match search_channel type status rsp size with
  | None => fault
  | Some ch =>
      if ch =? 0 then discovery_failed callback
      else
        let* _ := update session (set_channel ch) in
        let* s := load session in
        let* _ := emit (EvIoUnref (io s)) in
        let* i := rfcomm_connect (src s) (dst s) ch callback in
        let* _ := update session (set_io i) in
        match i with
        | Some _ => emit (EvSdpClose (cb_sdp callback))
        | None => discovery_failed callback
        end
  end.

Definition G_IO_IN : Z := 1.
Definition G_IO_OUT : Z := 4.
Definition G_IO_ERR : Z := 8.
Definition G_IO_HUP : Z := 16.
Definition G_IO_NVAL : Z := 32.

(** [process_callback]: TRUE keeps the watch. *)
Definition process_callback (cond : Z) (callback : callback_data) : M bool :=
  if negb (Z.land cond (Z.lor G_IO_ERR (Z.lor G_IO_HUP G_IO_NVAL)) =? 0)
  then ret false
  else
    let* _ := emit (EvSdpProcess (cb_sdp callback)) in
    ret (negb (x_sdp_process X <? 0)).

(** Big-endian bytes of an unsigned value of [n] bytes. *)
Fixpoint be_bytes (n : nat) (v : Z) : list Z :=
  match n with
  | O => []
  | S n' => (Z.shiftr v (8 * Z.of_nat n')) mod 256 :: be_bytes n' v
  end.

(** [bt_string2uuid]: the sixteen bytes given to [sdp_uuid128_create],
    or [-EINVAL]. *)
Definition bt_string2uuid (str : string) : Z + list Z :=
  match x_sscanf_uuid X str with
  | Some (data0, data1, data2, data3, data4, data5) =>
      inr (be_bytes 4 data0 ++ be_bytes 2 data1 ++ be_bytes 2 data2
           ++ be_bytes 2 data3 ++ be_bytes 4 data4 ++ be_bytes 2 data5)
  | None => inl (- EINVAL)
  end.

(** [service_callback]: always FALSE, the watch is one-shot. *)
Definition service_callback (i : nat) (cond : Z) (callback : callback_data)
    : M bool :=
  let session := cb_session callback in
  let failed := let* _ := discovery_failed callback in ret false in
  if negb (Z.land cond (Z.lor G_IO_NVAL G_IO_ERR) =? 0) then failed
  else
    let* _ := emit (EvSdpSetNotify (cb_sdp callback)) in
    if x_sdp_set_notify X <? 0 then failed
    else
      let* s := load session in
      match driver s with
      | None => fault
      | Some d =>
          match bt_string2uuid (uuid d) with
          | inl _ => failed
          | inr uuid128 =>
              let* _ := emit (EvSdpSearchAttrAsync (cb_sdp callback) uuid128 65535) in
              if x_sdp_service_search_attr_async X <? 0 then failed
              else
                let* _ := emit (EvIoAddWatch i process_callback_fn callback) in
                ret false
          end
      end.

(** [service_connect] *)
Definition service_connect (s d : bdaddr_t) (cb : callback_data)
    : M (option nat) :=
  let* _ := emit (EvSdpConnect s d) in
  match x_sdp_connect X with
  | None => ret None
  | Some sdp =>
      match x_io_channel_unix_new X with
      | None =>
          let* _ := emit (EvSdpClose (Some sdp)) in
          ret None
      | Some i =>
          let* _ := emit (EvIoAddWatch i service_callback_fn cb) in
          let* _ := update (cb_session cb) (set_io (Some i)) in
          ret (Some sdp)
      end
  end.

(** [connection_complete] *)
Definition connection_complete (cb : callback_data) : M bool :=
  let* _ := emit (EvFunc (cb_func cb) (cb_session cb) None (cb_data cb)) in
  let* _ := obc_session_unref (cb_session cb) in
  ret false.

(** *** Owner, registry lookup and session creation *)

(** [str2ba] (bluetooth.h) parses an address; [obc_driver_find]
    (driver.c) looks a service name up among the registered drivers. *)
Variable str2ba : string -> bdaddr_t.
Variable obc_driver_find : option string -> option obc_driver.

(** [obc_session_set_owner] on a non-NULL session. *)
Definition obc_session_set_owner (session : loc) (name : string) : M Z :=
  let* s := load session in
  let* _ := when (negb (watch s =? 0)) (emit (EvRemoveWatch (conn s) (watch s))) in
  let* _ := emit (EvAddDisconnectWatch (conn s) name) in
  let* _ := update session (set_watch (x_add_disconnect_watch X)) in
  if x_add_disconnect_watch X =? 0 then ret (- EINVAL)
  else
    let* _ := update session (set_owner (Some name)) in
    ret 0.

(** The body of the loop of [session_find]: does this entry satisfy
    the request?  [None] when the entry has no driver to read. *)
Definition session_matches (source : option string) (destination : string)
    (service_name : option string) (ch : Z) (owner_name : option string)
    (s : obc_session) : option bool :=
  if match source with
     | Some a => negb (bacmp (src s) (str2ba a) =? 0)
     | None => false
     end then Some false
  else if negb (bacmp (dst s) (str2ba destination) =? 0) then Some false
  else
    match driver s with
    | None => None                        (* session->driver->service *)
    | Some d =>
        if negb (g_strcmp0 service_name (Some (service d)) =? 0) then Some false
        else if negb (ch =? 0) && negb (channel s =? ch) then Some false
        else if negb (g_strcmp0 owner_name (owner s) =? 0) then Some false
        else Some true
    end.

(** The walk of [session_find] over the list. *)
Fixpoint session_find_in (h : gmap loc obc_session) (l : list loc)
    (source : option string) (destination : string)
    (service_name : option string) (ch : Z) (owner_name : option string)
    : option (option loc) :=
  match l with
  | [] => Some None
  | session :: r =>
      match h !! session with
      | None => None
      | Some s =>
          match session_matches source destination service_name ch owner_name s with
          | None => None
          | Some true => Some (Some session)
          | Some false =>
              session_find_in h r source destination service_name ch owner_name
          end
      end
  end.

(** [session_find] *)
Definition session_find (source : option string) (destination : string)
    (service_name : option string) (ch : Z) (owner_name : option string)
    : M (option loc) :=
  fun w =>
    match session_find_in (heap w) (sessions w) source destination
            service_name ch owner_name with
    | Some r => Some (r, w)
    | None => None
    end.

(** [session_connect]: the error code, and [callback] with the [sdp]
    field the discovery branch fills in. *)
Definition session_connect (session : loc) (callback : callback_data)
    : M (Z * callback_data) :=
  let* s := load session in
  match obex s with
  | Some _ =>
      let* _ := emit (EvIdleAdd (connection_complete_fn callback)) in
      ret (0, callback)
  | None =>
      if 0 <? channel s then
        let* i := rfcomm_connect (src s) (dst s) (channel s) callback in
        let* _ := update session (set_io i) in
        ret (match i with None => - EINVAL | Some _ => 0 end, callback)
      else
        let* sdp := service_connect (src s) (dst s) callback in
        ret (match sdp with None => - ENOMEM | Some _ => 0 end,
             {| cb_session := cb_session callback; cb_sdp := sdp;
                cb_func := cb_func callback; cb_data := cb_data callback |})
  end.

(** A D-Bus reply: an error message, or a method return with its
    arguments. *)
Inductive dbus_arg :=
| ArgObjectPath (p : string)
| ArgString (v : string)
| ArgOther.

Inductive DBusMessage :=
| ErrorReply (name msg : string)
| MethodReturn (args : list dbus_arg).

(** [dbus_message_get_args(reply, NULL, DBUS_TYPE_OBJECT_PATH, &adapter,
    DBUS_TYPE_INVALID)] *)
Definition get_object_path (reply : DBusMessage) : option string :=
  match reply with
  | MethodReturn (ArgObjectPath p :: _) => Some p
  | _ => None
  end.

(** The first lines common to [adapter_reply] and [manager_reply]:
    the request is taken off [pending_calls] and finalized. *)
Definition reply_prologue (session : loc) (call : nat) : M unit :=
  let* req := find_session_request session call in
  match req with
  | None => fault                         (* pending_req_finalize(NULL) *)
  | Some req =>
      let* _ := update session (fun s =>
                  set_pending_calls (g_slist_remove req_eqb (pending_calls s) req) s) in
      pending_req_finalize req
  end.

(** [adapter_reply] *)
Definition adapter_reply (call : nat) (reply : DBusMessage)
    (callback : callback_data) : M unit :=
  let session := cb_session callback in
  let* _ := reply_prologue session call in
  match reply with
  | ErrorReply _ _ => obc_session_unref session
  | MethodReturn _ =>
      let* r := session_connect session callback in
      if fst r <? 0 then obc_session_unref session else ret tt
  end.

(** [manager_reply] *)
Definition manager_reply (call : nat) (reply : DBusMessage)
    (callback : callback_data) : M unit :=
  let session := cb_session callback in
  let* _ := reply_prologue session call in
  match reply with
  | ErrorReply _ _ => obc_session_unref session
  | MethodReturn _ =>
      match get_object_path reply with
      | Some adapter_path =>
          let* _ := update session (set_adapter (Some adapter_path)) in
          let* s := load session in
          let* req := send_method_call (conn_system s) BT_BUS_NAME (Some adapter_path)
                        BT_ADAPTER_IFACE "RequestSession"
                        (Some adapter_reply_fn) (Some callback) in
          match req with
          | None => obc_session_unref session
          | Some req =>
              update session (fun s' => set_pending_calls (req :: pending_calls s') s')
          end
      | None => obc_session_unref session
      end
  end.

(** The part of [obc_session_create] from [proceed:] on. *)
Definition obc_session_create_proceed (session : loc) (source owner_name : option string)
    (function : session_callback_t) (user_data : user_data_t) : M (option loc) :=
  if negb (x_malloc_callback X) then
    let* _ := obc_session_unref session in
    ret None
  else
    let* _ := obc_session_ref session in
    let callback := {| cb_session := session; cb_sdp := None;
                       cb_func := function; cb_data := user_data |} in
    let* s := load session in
    let* req := send_method_call (conn_system s) BT_BUS_NAME (Some BT_PATH)
                  BT_MANAGER_IFACE
                  (match source with Some _ => "FindAdapter" | None => "DefaultAdapter" end)
                  (Some manager_reply_fn) (Some callback) in
    match req with
    | None =>
        let* _ := obc_session_unref session in
        ret None
    | Some req =>
        let* _ := update session (fun s' => set_pending_calls (req :: pending_calls s') s') in
        let* _ := match owner_name with
                  | Some o => let* _ := obc_session_set_owner session o in ret tt
                  | None => ret tt
                  end in
        ret (Some session)
    end.

(** [g_try_malloc0(sizeof( *session))] followed by the initialisation
    of the new object. *)
Definition alloc_session : M loc :=
  fun w =>
    let l := next_loc w in
    Some (l, with_next_loc (Pos.succ l)
               (with_heap (<[l := zeroed_session]> (heap w)) w)).

(** [obc_session_create] *)
Definition obc_session_create (source destination service_name : option string)
    (ch : Z) (owner_name : option string)
    (function : session_callback_t) (user_data : user_data_t) : M (option loc) :=
  match destination with
  | None => ret None
  | Some destination =>
      let* found := session_find source destination service_name ch owner_name in
      match found with
      | Some session =>
          let* _ := obc_session_ref session in
          obc_session_create_proceed session source owner_name function user_data
      | None =>
          match obc_driver_find service_name with
          | None => ret None
          | Some d =>
              if negb (x_malloc_session X) then ret None
              else
                let* session := alloc_session in
                let* _ := update session (set_refcount 1) in
                let* _ := update session (set_channel ch) in
                let* _ := update session (set_conn (x_bus_session X)) in
                match x_bus_session X with
                | None => let* _ := session_free session in ret None
                | Some _ =>
                    let* _ := update session (set_conn_system (x_bus_system X)) in
                    match x_bus_system X with
                    | None => let* _ := session_free session in ret None
                    | Some _ =>
                        let* _ := update session
                                    (set_src (match source with
                                              | None => BDADDR_ANY
                                              | Some a => str2ba a
                                              end)) in
                        let* _ := update session (set_dst (str2ba destination)) in
                        let* _ := update session (set_driver (Some d)) in
                        obc_session_create_proceed session source owner_name
                          function user_data
                    end
                end
          end
      end
  end.

(** *** Transfers *)

(** [obc_session_add_transfer] *)
Definition obc_session_add_transfer (session transfer : loc) : M unit :=
  update session (fun s => set_pending (pending s ++ [transfer]) s).

(** [obc_session_remove_transfer] *)
Definition obc_session_remove_transfer (session transfer : loc) : M unit :=
  update session (fun s => set_pending (g_slist_remove Pos.eqb (pending s) transfer) s).

(** [obc_session_get_transfer] *)
Definition obc_session_get_transfer (session : loc) : M (option loc) :=
  let* s := load session in
  ret (head (pending s)).

(** Modelled from the spec: [obc_transfer_register] of transfer.c, which
    is not among the sources.  A registered transfer is a new transfer
    object, with or without an exported path, that the session's pending
    queue refers to (through [obc_session_add_transfer]); registration
    can fail, returning NULL. *)
Definition obc_transfer_register (filename name type : option string)
    (session : loc) : M (option loc) :=
  match x_transfer_register X with
  | None => ret None
  | Some (tpath, size) =>
      let* t := (fun w =>
                   let l := next_loc w in
                   Some (l, with_next_loc (Pos.succ l)
                              (with_transfers
                                 (<[l := {| t_session := session; t_path := tpath;
                                            t_size := size |}]> (transfers w)) w))) in
      let* _ := emit (EvTransferRegister t filename name type) in
      let* _ := obc_session_add_transfer session t in
      ret (Some t)
  end.

(** Modelled from the spec: [obc_transfer_unregister] of transfer.c,
    which is not among the sources.  Unregistering takes the transfer
    out of its session's pending queue (through
    [obc_session_remove_transfer]) and ends the transfer object. *)
Definition obc_transfer_unregister (transfer : loc) : M unit :=
  let* t := load_transfer transfer in
  let* _ := emit (EvTransferUnregister transfer) in
  let* _ := obc_session_remove_transfer (t_session t) transfer in
  fun w => Some (tt, with_transfers (delete transfer (transfers w)) w).

(** [obc_session_shutdown] *)
Definition obc_session_shutdown (session : loc) : M unit :=
  let* _ := obc_session_ref session in
  let* s := load session in
  let* _ := forM (pending s) obc_transfer_unregister in
  let* _ := match path s with
            | Some _ => session_unregistered session
            | None => ret tt
            end in
  let* _ := match io s with
            | Some i => emit (EvShutdownFd i)
            | None => ret tt
            end in
  obc_session_unref session.

(** [session_request] *)
Definition session_request (session : loc) (cb : prepare_fn) (transfer : loc)
    : M Z :=
  let* s := load session in
  let pending_d := {| pd_cb := cb; pd_session := session; pd_transfer := transfer |} in
  let* t := load_transfer transfer in
  match agent s, t_path t with
  | Some a, Some p =>
      let* _ := emit (EvAgentRequest a p pending_d) in
      let err := x_agent_request X in
      if err <? 0 then ret err else ret 0
  | _, _ =>
      let* _ := emit (EvIdleAdd (session_request_proceed_fn pending_d)) in
      ret 0
  end.

(** [session_terminate_transfer] *)
Definition session_terminate_transfer (session transfer : loc)
    (gerr : option GError) : M unit :=
  let* s := load session in
  match callback s with
  | Some c => emit (EvFunc (sc_func c) session gerr (sc_data c))
  | None =>
      let* _ := obc_session_ref session in
      let* _ := obc_transfer_unregister transfer in
      let* s' := load session in
      let* _ := match pending s' with
                | next :: _ =>
                    let* _ := session_request session session_prepare_put_fn next in
                    ret tt
                | [] => ret tt
                end in
      obc_session_unref session
  end.

(** [session_notify_complete] *)
Definition session_notify_complete (session transfer : loc) : M unit :=
  let* s := load session in
  let* t := load_transfer transfer in
  let* _ := match agent s, t_path t with
            | Some a, Some p => emit (EvAgentNotifyComplete a p)
            | _, _ => ret tt
            end in
  session_terminate_transfer session transfer None.

(** [session_notify_error] *)
Definition session_notify_error (session transfer : loc) (err : GError) : M unit :=
  let* s := load session in
  let* t := load_transfer transfer in
  let* _ := match agent s, t_path t with
            | Some a, Some p => emit (EvAgentNotifyError a p (message err))
            | _, _ => ret tt
            end in
  session_terminate_transfer session transfer (Some err).

(** [session_notify_progress] *)
Definition session_notify_progress (session transfer : loc) (transferred : Z)
    : M unit :=
  let* s := load session in
  let* t := load_transfer transfer in
  let* _ := match agent s, t_path t with
            | Some a, Some p => emit (EvAgentNotifyProgress a p transferred)
            | _, _ => ret tt
            end in
  if transferred =? t_size t then session_notify_complete session transfer
  else ret tt.

(** [transfer_progress] *)
Definition transfer_progress (transfer : loc) (transferred : Z)
    (err : option GError) (session : loc) : M unit :=
  match err with
  | Some e => session_notify_error session transfer e
  | None => session_notify_progress session transfer transferred
  end.

(** [strerror] of the C library. *)
Variable strerror : Z -> string.

(** [session_prepare_get] *)
Definition session_prepare_get (session transfer : loc) : M unit :=
  let* _ := emit (EvTransferGet transfer) in
  let r := x_transfer_get X in
  if r <? 0 then
    session_notify_error session transfer
      {| domain := OBEX_IO_ERROR; code := r; message := strerror (- r) |}
  else ret tt.

(** [session_prepare_put] *)
Definition session_prepare_put (session transfer : loc) : M unit :=
  let* _ := emit (EvTransferPut transfer) in
  let r := x_transfer_put X in
  if r <? 0 then
    session_notify_error session transfer
      {| domain := OBEX_IO_ERROR; code := r;
         message := String.append (strerror (- r))
                      (String.append " (" (String.append (pretty (- r)) ")")) |}
  else ret tt.

Definition run_prepare (cb : prepare_fn) (session transfer : loc) : M unit :=
  match cb with
  | session_prepare_get_fn => session_prepare_get session transfer
  | session_prepare_put_fn => session_prepare_put session transfer
  end.

(** [session_request_proceed] *)
Definition session_request_proceed (p : pending_data) : M bool :=
  let* _ := run_prepare (pd_cb p) (pd_session p) (pd_transfer p) in
  ret false.

(** [session_request_reply].  The name is read from the reply without
    a check; a reply that carries no string leaves it undefined.  On an
    error reply the text of the [GError] is formatted from
    [derr.message] after [dbus_error_free] has reset it to NULL, so it
    is what ["%s"] prints for NULL and not the text of the agent. *)
Definition session_request_reply (reply : DBusMessage) (p : pending_data) : M unit :=
  match reply with
  | ErrorReply _ _ =>
      session_terminate_transfer (pd_session p) (pd_transfer p)
        (Some {| domain := OBEX_IO_ERROR; code := - ECANCELED;
                 message := "(null)" |})
  | MethodReturn (ArgString name :: _) =>
      let* _ := when (negb (Nat.eqb (String.length name) 0))
                     (emit (EvTransferSetName (pd_transfer p) name)) in
      run_prepare (pd_cb p) (pd_session p) (pd_transfer p)
  | MethodReturn _ => fault
  end.

(** [session->callback = callback] for a non-NULL [func]. *)
Definition install_callback (session : loc) (func : option session_callback_t)
    (user_data : user_data_t) : M unit :=
  match func with
  | Some f => update session (set_callback (Some {| sc_func := f; sc_data := user_data |}))
  | None => ret tt
  end.

(** [obc_session_get] *)
Definition obc_session_get (session : loc) (type filename targetname : option string)
    (apparam : option (list Z)) (func : option session_callback_t)
    (user_data : user_data_t) : M Z :=
  let* s := load session in
  match obex s with
  | None => ret (- ENOTCONN)
  | Some _ =>
      let* transfer := obc_transfer_register filename targetname type session in
      match transfer with
      | None => ret (- EIO)
      | Some transfer =>
          let* _ := install_callback session func user_data in
          let* err := session_request session session_prepare_get_fn transfer in
          if err <? 0 then ret err else ret 0
      end
  end.

(** [obc_session_send] *)
Definition obc_session_send (session : loc) (filename targetname : option string)
    : M Z :=
  let* s := load session in
  match obex s with
  | None => ret (- ENOTCONN)
  | Some _ =>
      let* transfer := obc_transfer_register filename targetname None session in
      match transfer with
      | None => ret (- EINVAL)
      | Some transfer =>
          let fail (err : Z) : M Z :=
            let* _ := obc_transfer_unregister transfer in ret err in
          let* _ := emit (EvTransferSetFile transfer) in
          let err := x_transfer_set_file X in
          if err <? 0 then fail err
          else
            let* s' := load session in
            match pending s' with
            | [] => fault                     (* session->pending->data *)
            | first :: _ =>
                if negb (Pos.eqb transfer first) then ret 0
                else
                  let* err := session_request session session_prepare_put_fn transfer in
                  if err <? 0 then fail err else ret 0
            end
      end
  end.

(** [obc_session_pull] *)
Definition obc_session_pull (session : loc) (type filename : option string)
    (function : option session_callback_t) (user_data : user_data_t) : M Z :=
  let* s := load session in
  match obex s with
  | None => ret (- ENOTCONN)
  | Some _ =>
      let* transfer := obc_transfer_register None filename type session in
      match transfer with
      | None => ret (- EIO)
      | Some transfer =>
          let* _ := install_callback session function user_data in
          let* err := session_request session session_prepare_get_fn transfer in
          if err =? 0 then ret 0
          else
            let* _ := obc_transfer_unregister transfer in
            ret err
      end
  end.

(** [obc_session_put] *)
Definition obc_session_put (session : loc) (buf : option string)
    (type filename targetname : option string) (apparam : option (list Z))
    (func : option session_callback_t) (user_data : user_data_t) : M Z :=
  let* s := load session in
  match obex s with
  | None => ret (- ENOTCONN)
  | Some _ =>
      match pending s with
      | _ :: _ => ret (- EISCONN)
      | [] =>
          let* _ := install_callback session func user_data in
          let* transfer := obc_transfer_register filename targetname type session in
          match transfer with
          | None => ret (- EIO)
          | Some transfer =>
              let* _ := match buf with
                        | Some _ => emit (EvTransferSetBuffer transfer)
                        | None => ret tt
                        end in
              let* err := session_request session session_prepare_put_fn transfer in
              if err <? 0 then ret err else ret 0
          end
      end
  end.

(** [obc_session_register] *)
Definition obc_session_register (session : loc) : M (option string) :=
  let* s := load session in
  match path s with
  | Some p => ret (Some p)
  | None =>
      let* p := (fun w =>
                   Some (String.append SESSION_BASEPATH
                           (String.append "/session" (pretty (counter w))),
                         {| heap := heap w; sessions := sessions w;
                            transfers := transfers w; completed := completed w;
                            next_loc := next_loc w;
                            counter := (counter w + 1) mod 2 ^ 64;
                            trace := trace w |})) in
      let* _ := update session (set_path (Some p)) in
      let* _ := emit (EvRegisterInterface (conn s) p SESSION_INTERFACE) in
      let fail : M (option string) :=
        let* _ := update session (set_path None) in ret None in
      if negb (x_register_interface X) then fail
      else
        match driver s with
        | None => fault
        | Some d =>
            if probe d then
              let* _ := emit (EvDriverProbe session) in
              if x_driver_probe X <? 0 then
                let* _ := emit (EvUnregisterInterface (conn s) (Some p) SESSION_INTERFACE) in
                fail
              else ret (Some p)
            else ret (Some p)
        end
  end.

(** [agent_destroy] *)
Definition agent_destroy (session : loc) : M unit :=
  update session (set_agent None).

(** [obc_session_set_agent] on a non-NULL session; [obc_agent_create]
    builds the agent from the sender's name and the path. *)
Definition obc_session_set_agent (session : loc) (name apath : string) : M Z :=
  let* s := load session in
  match agent s with
  | Some _ => ret (- EALREADY)
  | None =>
      let a := {| agent_name := name; agent_path := apath |} in
      let* _ := if watch s =? 0
                then let* _ := obc_session_set_owner session name in ret tt
                else ret tt in
      let* _ := update session (set_agent (Some a)) in
      ret 0
  end.

End Core.

End Session.

(** ** What is observed of a run *)

Module Observe.
Import Session.

(** A front-end callback was invoked. *)
Definition is_func (e : event) : bool :=
  match e with EvFunc _ _ _ _ => true | _ => false end.

(** A transport (RFCOMM) connect was issued. *)
Definition is_bt_io_connect (e : event) : bool :=
  match e with EvBtIoConnect _ _ _ _ => true | _ => false end.

(** Service discovery was started. *)
Definition is_sdp_connect (e : event) : bool :=
  match e with EvSdpConnect _ _ => true | _ => false end.

(** The session object at [s] was handed back to the allocator. *)
Definition is_free_of (s : loc) (e : event) : bool :=
  match e with EvFree s' => Pos.eqb s s' | _ => false end.


(** The calls by which [session_free] gives up what the session owns. *)
Definition is_resource_release (e : event) : bool :=
  match e with
  | EvPendingCallCancel _ | EvPendingCallUnref _
  | EvAgentRelease _ | EvAgentFree _ | EvRemoveWatch _ _
  | EvObexUnref _ | EvIoShutdown _ | EvIoUnref _
  | EvDriverRemove _ | EvUnregisterInterface _ _ _ | EvConnUnref _ => true
  | _ => false
  end.

(** The calls by which [pending_req_finalize] gives up a pending call:
    it is cancelled unless libdbus has completed it already ([done]),
    and its reference is dropped. *)
Definition finalize_events (done : list nat) (req : pending_req) : list event :=
  (if existsb (Nat.eqb (req_call req)) done then []
   else [EvPendingCallCancel (req_call req)])
  ++ [EvPendingCallUnref (req_call req)].

(** What the session at [s] owns while it holds [v], as the releases
    that are due for it, in the order of the teardown: its pending
    management calls, the agent (told of the release, then freed), the
    watch on the owner's disconnection, the OBEX handle, the transport
    stream (shut down, then released), the exported interface (with the
    cleanup hook of the service before it), and the references to the
    session bus and the system bus. *)
Definition owned_releases (done : list nat) (s : loc) (v : obc_session)
    : list event :=
  flat_map (finalize_events done) (pending_calls v)
  ++ match agent v with
     | Some a => [EvAgentRelease a; EvAgentFree a]
     | None => []
     end
  ++ (if watch v =? 0 then [] else [EvRemoveWatch (conn v) (watch v)])
  ++ match obex v with
     | Some o => [EvObexUnref o]
     | None => []
     end
  ++ match io v with
     | Some i => [EvIoShutdown (Some i); EvIoUnref (Some i)]
     | None => []
     end
  ++ match path v with
     | Some p =>
         (if match driver v with Some d => remove d | None => false end
          then [EvDriverRemove s] else [])
         ++ [EvUnregisterInterface (conn v) (Some p) SESSION_INTERFACE]
     | None => []
     end
  ++ match conn v with
     | Some c => [EvConnUnref c]
     | None => []
     end
  ++ match conn_system v with
     | Some c => [EvConnUnref c]
     | None => []
     end.

(** What [obc_session_unref] may cause: the notification to the
    adapter, the release of resources, the return of the object. *)
Definition is_teardown (e : event) : bool :=
  match e with
  | EvSendMessage _ _ _ _ _ => true
  | EvFree _ => true
  | _ => is_resource_release e
  end.

(** The events that a run added to the trace. *)
Definition new_events (w w' : world) : list event :=
  drop (length (trace w)) (trace w').

(** The message [obc_session_unref] gives to [send_method_call] for the
    adapter, when libdbus can build it. *)
Definition release_notification (X : extern) (v : obc_session) : list event :=
  if x_message_new X "ReleaseSession" && x_append_args X "ReleaseSession"
  then [EvSendMessage (conn_system v) BT_BUS_NAME (adapter v)
          BT_ADAPTER_IFACE "ReleaseSession"]
  else [].

(** Sequences of acquire and release calls on one session. *)
Inductive ref_op := Acquire | Release.

Definition run_op (X : extern) (s : loc) (o : ref_op) : M unit :=
  match o with
  | Acquire => let* _ := obc_session_ref s in ret tt
  | Release => obc_session_unref X s
  end.

Definition run_ops (X : extern) (s : loc) (ops : list ref_op) : M unit :=
  forM ops (run_op X s).

(** How often the object at [s] is handed back in a list of events. *)
Definition count_free (s : loc) (evs : list event) : nat :=
  length (filter (fun e => is_free_of s e = true) evs).

(** The run of [m] from [w] returns, and its result satisfies [Q]. *)
Definition returns {A} (m : M A) (w : world) (Q : A -> world -> Prop) : Prop :=
  match m w with
  | Some (a, w') => Q a w'
  | None => False
  end.

(** Whenever the run of [m] from [w] returns, its result satisfies [Q]. *)
Definition whenever {A} (m : M A) (w : world) (Q : A -> world -> Prop) : Prop :=
  match m w with
  | Some (a, w') => Q a w'
  | None => True
  end.

(** Nothing but the heap and the trace differs between [w] and [w']. *)
Definition same_frame (w w' : world) : Prop :=
  sessions w' = sessions w /\ transfers w' = transfers w
  /\ completed w' = completed w /\ next_loc w' = next_loc w
  /\ counter w' = counter w.

(** [w'] is a stage of the teardown of the session at [s] that began
    in [w]: the session is still allocated, no other object changed,
    and only resources were released. *)
Definition releasing (s : loc) (w w' : world) : Prop :=
  is_Some (heap w' !! s)
  /\ (forall l, l <> s -> heap w' !! l = heap w !! l)
  /\ same_frame w w'
  /\ exists evs, trace w' = trace w ++ evs
                 /\ Forall (fun e => is_resource_release e = true) evs.

(** A computation that never adds an entry to the registry: after
    it, the list is the old one with entries taken out at most. *)
Definition never_registers {A} (m : M A) : Prop :=
  forall w, whenever m w (fun _ w' => sessions w' `sublist_of` sessions w).



(** An optional value is there. *)
Definition present {A} (o : option A) : bool :=
  match o with Some _ => true | None => false end.




(** [m] is a stage of a teardown: from any stage of the teardown of
    the session at [s] it returns, at a later stage. *)
Definition releases (s : loc) (m : M unit) : Prop :=
  forall w w1 (Q : unit -> world -> Prop),
    releasing s w w1 ->
    (forall w2, releasing s w w2 -> Q tt w2) ->
    returns m w1 Q.

(** The type invariants of the C fields. *)
Definition uint8_range (z : Z) : Prop := 0 <= z < 2 ^ 8.
Definition gint_range (z : Z) : Prop := - 2 ^ 31 <= z < 2 ^ 31.

End Observe.

(** ** The states the process reaches *)

Module Reach.
Import Session Observe.

(** A session with transfers in its queue has its OBEX connection. *)
Definition queue_connected (v : obc_session) : Prop :=
  pending v <> [] -> obex v <> None.

Definition queues_connected (w : world) : Prop :=
  forall s v, heap w !! s = Some v -> queue_connected v.

(** [m] leaves the queues connected when it finds them so. *)
Definition keeps_queues {A} (m : M A) : Prop :=
  forall w, queues_connected w -> whenever m w (fun _ w' => queues_connected w').

(** The process at its start: no session, an empty registry, and the
    counter of session paths at zero. *)
Definition boot : world :=
  {| heap := ∅; sessions := []; transfers := ∅; completed := [];
     next_loc := 1%positive; counter := 0; trace := [] |}.

(** The calls that come into the session core, each with the arguments
    it is made with: the functions of session.h, as the service
    front-ends and the D-Bus methods of the session use them;
    [obc_transfer_unregister], which the front-ends call on a transfer
    they are done with; and the callbacks that the core hands to
    libdbus, GLib, btio, the SDP library, GObex, the agent and the
    transfer.  [obc_session_add_transfer] and
    [obc_session_remove_transfer] are not among them: they are called by
    [obc_transfer_register] and [obc_transfer_unregister] only, and
    [obc_transfer_register] by get, send, pull and put only.  The last
    entry is libdbus completing a pending call. *)
Inductive entry :=
| Create (source destination service_name : option string) (ch : Z)
    (owner_name : option string) (function : session_callback_t)
    (user_data : user_data_t)
| Ref (session : loc)
| Unref (session : loc)
| Shutdown (session : loc)              (* also [owner_disconnected] *)
| SetOwner (session : loc) (name : string)
| SetAgent (session : loc) (name apath : string)   (* also [assign_agent] *)
| AgentDestroy (session : loc)
| Register (session : loc)
| Get (session : loc) (type filename targetname : option string)
    (apparam : option (list Z)) (func : option session_callback_t)
    (user_data : user_data_t)
| Send (session : loc) (filename targetname : option string)
| Pull (session : loc) (type filename : option string)
    (function : option session_callback_t) (user_data : user_data_t)
| Put (session : loc) (buf : option string)
    (type filename targetname : option string) (apparam : option (list Z))
    (func : option session_callback_t) (user_data : user_data_t)
| TransferUnregister (transfer : loc)
| ManagerReply (call : nat) (reply : DBusMessage) (callback : callback_data)
| AdapterReply (call : nat) (reply : DBusMessage) (callback : callback_data)
| ServiceCallback (i : nat) (cond : Z) (callback : callback_data)
| ProcessCallback (cond : Z) (callback : callback_data)
| SearchCallback (type status : Z) (rsp : list Z) (size : Z)
    (callback : callback_data)
| RfcommCallback (err : option GError) (callback : callback_data)
| ConnectCb (err : option GError) (rsp_code : Z) (callback : callback_data)
| ConnectionComplete (callback : callback_data)
| RequestProceed (p : pending_data)
| RequestReply (reply : DBusMessage) (p : pending_data)
| TransferProgress (transfer : loc) (transferred : Z) (err : option GError)
    (session : loc)
| CallCompleted (call : nat).

Section Calls.

Variables sdp_record_t sdp_list_t : Type.
Variable sdp_extract_seqtype : list Z -> Z -> Z -> Z * Z.
Variable sdp_extract_pdu : list Z -> Z -> Z -> option (sdp_record_t * Z).
Variable sdp_get_access_protos : sdp_record_t -> option sdp_list_t.
Variable sdp_get_proto_port : sdp_list_t -> Z -> Z.
Variable str2ba : string -> bdaddr_t.
Variable obc_driver_find : option string -> option obc_driver.
Variable strerror : Z -> string.

(** Drops the value a call returns. *)
Definition done {A} (m : M A) : M unit := let* _ := m in ret tt.

(** The run of one call, with the answers [X] of the environment
    during it. *)
Definition enter (X : extern) (e : entry) : M unit :=
  match e with
  | Create source destination service_name ch owner_name function user_data =>
      done (obc_session_create X str2ba obc_driver_find source destination
              service_name ch owner_name function user_data)
  | Ref session => done (obc_session_ref session)
  | Unref session => obc_session_unref X session
  | Shutdown session => obc_session_shutdown X session
  | SetOwner session name => done (obc_session_set_owner X session name)
  | SetAgent session name apath => done (obc_session_set_agent X session name apath)
  | AgentDestroy session => agent_destroy session
  | Register session => done (obc_session_register X session)
  | Get session type filename targetname apparam func user_data =>
      done (obc_session_get X session type filename targetname apparam func user_data)
  | Send session filename targetname =>
      done (obc_session_send X session filename targetname)
  | Pull session type filename function user_data =>
      done (obc_session_pull X session type filename function user_data)
  | Put session buf type filename targetname apparam func user_data =>
      done (obc_session_put X session buf type filename targetname apparam
              func user_data)
  | TransferUnregister transfer => obc_transfer_unregister transfer
  | ManagerReply call reply callback => manager_reply X call reply callback
  | AdapterReply call reply callback => adapter_reply X call reply callback
  | ServiceCallback i cond callback => done (service_callback X i cond callback)
  | ProcessCallback cond callback => done (process_callback X cond callback)
  | SearchCallback type status rsp size callback =>
      search_callback X sdp_record_t sdp_list_t sdp_extract_seqtype
        sdp_extract_pdu sdp_get_access_protos sdp_get_proto_port
        type status rsp size callback
  | RfcommCallback err callback => rfcomm_callback X err callback
  | ConnectCb err rsp_code callback => connect_cb X err rsp_code callback
  | ConnectionComplete callback => done (connection_complete X callback)
  | RequestProceed p => done (session_request_proceed X strerror p)
  | RequestReply reply p => session_request_reply X strerror reply p
  | TransferProgress transfer transferred err session =>
      transfer_progress X transfer transferred err session
  | CallCompleted call =>
      fun w => Some (tt, {| heap := heap w; sessions := sessions w;
                            transfers := transfers w;
                            completed := call :: completed w;
                            next_loc := next_loc w; counter := counter w;
                            trace := trace w |})
  end.

(** A sequence of calls, each with the answers of the environment
    during it. *)
Fixpoint enter_all (l : list (extern * entry)) : M unit :=
  match l with
  | [] => ret tt
  | (X, e) :: r => let* _ := enter X e in enter_all r
  end.

(** The states that the process reaches from its start, by any
    sequence of calls under any answers of the environment. *)
Inductive reachable : world -> Prop :=
| reach_boot : reachable boot
| reach_enter (X : extern) (e : entry) (w w' : world) :
    reachable w -> enter X e w = Some (tt, w') -> reachable w'.

End Calls.

End Reach.

(** ** Concrete sessions and environments *)

Module Scenario.
Import Session.

(** The driver [map] of map.c. *)
Definition map_driver : obc_driver :=
  {| service := "MAP";
     uuid := "00001132-0000-1000-8000-00805f9b34fb";
     target := Some [187; 88; 43; 64; 66; 12; 17; 219; 176; 222; 8; 0; 32; 12; 154; 102];
     target_len := 16;
     probe := true;
     remove := true |}.

(** A driver table in which only MAP is registered. *)
Definition find_driver (service_name : option string) : option obc_driver :=
  match service_name with
  | Some n => if String.eqb n "MAP" then Some map_driver else None
  | None => None
  end.

Definition hex_value (c : ascii) : Z :=
  let n := Z.of_nat (nat_of_ascii c) in
  if (48 <=? n) && (n <=? 57) then n - 48
  else if (97 <=? n) && (n <=? 102) then n - 87
  else if (65 <=? n) && (n <=? 70) then n - 55
  else 0.

Fixpoint hex_pairs (l : list ascii) : list Z :=
  match l with
  | a :: b :: r =>
      (16 * hex_value a + hex_value b)
        :: match r with
           | _ :: r' => hex_pairs r'
           | [] => []
           end
  | _ => []
  end.

(** [str2ba] on a well-formed ["XX:XX:XX:XX:XX:XX"]: the six bytes,
    last one first. *)
Definition str2ba (a : string) : bdaddr_t := rev (hex_pairs (list_ascii_of_string a)).

(** An environment in which every call succeeds. *)
Definition x_ok : extern :=
  {| x_message_new := fun _ => true;
     x_append_args := fun _ => true;
     x_send_with_reply := fun _ => Some 7%nat;
     x_bus_session := Some 1%nat;
     x_bus_system := Some 2%nat;
     x_add_disconnect_watch := 9;
     x_malloc_session := true;
     x_malloc_callback := true;
     x_bt_io_connect := Some 3%nat;
     x_sdp_connect := Some 4%nat;
     x_io_channel_unix_new := Some 5%nat;
     x_sdp_set_notify := 0;
     x_sdp_service_search_attr_async := 0;
     x_sdp_process := 0;
     x_sscanf_uuid := fun _ => Some (4402, 0, 4096, 32768, 8411035, 13563);
     x_obex_new := Some 6%nat;
     x_obex_connect_err := None;
     x_agent_request := 0;
     x_transfer_register := Some (Some "/org/openobex/transfer0", 100);
     x_transfer_set_file := 0;
     x_transfer_get := 0;
     x_transfer_put := 0;
     x_register_interface := true;
     x_driver_probe := 0 |}.

Definition remote : string := "00:11:22:33:44:55".

(** A connected MAP session on channel 5, held by its owner alone. *)
Definition ready_session : obc_session :=
  {| refcount := 1; src := BDADDR_ANY; dst := str2ba remote; channel := 5;
     driver := Some map_driver; path := None; conn := Some 1%nat;
     conn_system := Some 2%nat; obex := Some 6%nat; io := None;
     agent := None; callback := None; owner := Some ":1.42"; watch := 9;
     pending := []; pending_calls := []; adapter := Some "/org/bluez/hci0" |}.

Definition world_of (h : gmap loc obc_session) (reg : list loc)
    (t : gmap loc obc_transfer) : world :=
  {| heap := h; sessions := reg; transfers := t; completed := [];
     next_loc := 10%positive; counter := 0; trace := [] |}.

(** The process with that one session, registered. *)
Definition w_ready : world :=
  world_of {[ 1%positive := ready_session ]} [1%positive] ∅.

(** A session whose transport is not up yet, with a transfer that
    [obc_session_add_transfer] queued on it. *)
Definition unconnected_session : obc_session :=
  {| refcount := 1; src := BDADDR_ANY; dst := str2ba remote; channel := 0;
     driver := Some map_driver; path := None; conn := Some 1%nat;
     conn_system := Some 2%nat; obex := None; io := None;
     agent := None; callback := None; owner := Some ":1.42"; watch := 9;
     pending := [8%positive]; pending_calls := []; adapter := None |}.

Definition queued_transfer : obc_transfer :=
  {| t_session := 1%positive; t_path := Some "/org/openobex/transfer0"; t_size := 100 |}.

Definition w_unconnected : world :=
  world_of {[ 1%positive := unconnected_session ]} []
           {[ 8%positive := queued_transfer ]}.

(** A connected session with one transfer in its pending queue. *)
Definition busy_session : obc_session := set_pending [8%positive] ready_session.

Definition w_busy : world :=
  world_of {[ 1%positive := busy_session ]} [1%positive]
           {[ 8%positive := queued_transfer ]}.

(** The closure of a connect request on session 1. *)
Definition connect_request : callback_data :=
  {| cb_session := 1%positive; cb_sdp := None; cb_func := 11%nat; cb_data := 22%nat |}.

(** The same session while its admission request, call 7, is pending
    on behalf of a further connect request. *)
Definition admitting_session : obc_session :=
  set_refcount 2
    (set_pending_calls
       [{| req_call := 7%nat; req_user_data := Some connect_request |}]
       ready_session).

Definition w_admitting : world :=
  {| heap := {[ 1%positive := admitting_session ]}; sessions := [1%positive];
     transfers := ∅; completed := [7%nat]; next_loc := 10%positive;
     counter := 0; trace := [] |}.

(** A session that [obc_session_create] has just built for
    [connect_request]: the adapter lookup, call 7, is pending. *)
Definition resolving_session : obc_session :=
  {| refcount := 2; src := BDADDR_ANY; dst := str2ba remote; channel := 0;
     driver := Some map_driver; path := None; conn := Some 1%nat;
     conn_system := Some 2%nat; obex := None; io := None;
     agent := None; callback := None; owner := Some ":1.42"; watch := 9;
     pending := [];
     pending_calls := [{| req_call := 7%nat; req_user_data := Some connect_request |}];
     adapter := None |}.

(** The process when the reply to call 7 arrives. *)
Definition w_resolving : world :=
  {| heap := {[ 1%positive := resolving_session ]}; sessions := [];
     transfers := ∅; completed := [7%nat]; next_loc := 2%positive;
     counter := 0; trace := [] |}.

(** The same session once the adapter is known and the admission
    request, again call 7, is pending. *)
Definition requesting_session : obc_session :=
  set_adapter (Some "/org/bluez/hci0") resolving_session.

Definition w_requesting : world :=
  {| heap := {[ 1%positive := requesting_session ]}; sessions := [];
     transfers := ∅; completed := [7%nat]; next_loc := 2%positive;
     counter := 0; trace := [] |}.

(** A session whose RFCOMM channel has just connected: the transport
    is up, the OBEX engine is still to be created. *)
Definition transport_session : obc_session :=
  set_refcount 2 (set_io (Some 3%nat) (set_channel 5
    (set_pending_calls [] requesting_session))).

Definition w_transport : world :=
  {| heap := {[ 1%positive := transport_session ]}; sessions := [];
     transfers := ∅; completed := [7%nat]; next_loc := 2%positive;
     counter := 0; trace := [] |}.





(** A session in service discovery: the SDP socket is its [io]. *)
Definition discovering_session : obc_session :=
  set_io (Some 5%nat) (set_pending_calls [] requesting_session).

Definition w_discovering : world :=
  {| heap := {[ 1%positive := discovering_session ]}; sessions := [];
     transfers := ∅; completed := [7%nat]; next_loc := 2%positive;
     counter := 0; trace := [] |}.

Definition discovery_request : callback_data :=
  {| cb_session := 1%positive; cb_sdp := Some 4%nat; cb_func := 11%nat;
     cb_data := 22%nat |}.

(** A response parser for the examples: a two-byte sequence header,
    then records of four bytes each, none with a protocol list. *)
Definition seq_header (rsp : list Z) (off n : Z) : Z * Z :=
  if 2 <=? n then (2, n - 2) else (0, 0).

Definition four_byte_record (rsp : list Z) (off n : Z) : option (unit * Z) :=
  if 4 <=? n then Some (tt, 4) else None.

Definition no_protos (rec : unit) : option unit := None.

Definition no_port (protos : unit) (proto : Z) : Z := 0.

(** The process before any session is created. *)
Definition w_boot : world :=
  {| heap := ∅; sessions := []; transfers := ∅; completed := [];
     next_loc := 1%positive; counter := 0; trace := [] |}.

(** [strerror] for the examples: the text of glibc for [EIO], and its
    text for a number it has no name for. *)
Definition strerror (e : Z) : string :=
  if e =? EIO then "Input/output error"
  else String.append "Unknown error " (pretty e).

(** A session is brought up on channel 5 and a message is put on it:
    the request, the replies of the manager and of the adapter, the
    RFCOMM connection, the OBEX response, and the put. *)
Definition put_in_flight : list (extern * Reach.entry) :=
  [(x_ok, Reach.Create None (Some remote) (Some "MAP") 5 (Some ":1.42")
            11%nat 22%nat);
   (x_ok, Reach.ManagerReply 7 (MethodReturn [ArgObjectPath "/org/bluez/hci0"])
            connect_request);
   (x_ok, Reach.AdapterReply 7 (MethodReturn []) connect_request);
   (x_ok, Reach.RfcommCallback None connect_request);
   (x_ok, Reach.ConnectCb None 32 connect_request);
   (x_ok, Reach.Put 1%positive None (Some "x-bt/message") (Some "/tmp/msg")
            (Some "msg") None None 0%nat)].

End Scenario.

(** ** The tracker back-end of the phonebook ([phonebook-tracker.c]) *)

Module Tracker.
Import GLib Phonebook.

Local Open Scope string_scope.

(** *** Queries

    The SPARQL texts of the query macros are long constants; a query is
    named by its macro.  The two [..._FROM_URI] formats are filled with
    the id of the entry. *)
Inductive sparql :=
| CONTACTS_QUERY_ALL | INCOMING_CALLS_QUERY | OUTGOING_CALLS_QUERY
| MISSED_CALLS_QUERY | COMBINED_CALLS_QUERY
| CONTACTS_COUNT_QUERY | INCOMING_CALLS_COUNT_QUERY | OUTGOING_CALLS_COUNT_QUERY
| MISSED_CALLS_COUNT_QUERY | COMBINED_CALLS_COUNT_QUERY
| CONTACTS_QUERY_ALL_LIST | INCOMING_CALLS_LIST | OUTGOING_CALLS_LIST
| MISSED_CALLS_LIST | COMBINED_CALLS_LIST
| CONTACTS_QUERY_FROM_URI (id : string)
| CONTACTS_OTHER_QUERY_FROM_URI (id : string).

Definition PULL_QUERY_COL_AMOUNT : Z := 26.
Definition COUNT_QUERY_COL_AMOUNT : Z := 1.

(** [name2query] *)
Definition name2query (name : string) : option sparql :=
  if g_str_equal name "telecom/pb.vcf" then Some CONTACTS_QUERY_ALL
  else if g_str_equal name "telecom/ich.vcf" then Some INCOMING_CALLS_QUERY
  else if g_str_equal name "telecom/och.vcf" then Some OUTGOING_CALLS_QUERY
  else if g_str_equal name "telecom/mch.vcf" then Some MISSED_CALLS_QUERY
  else if g_str_equal name "telecom/cch.vcf" then Some COMBINED_CALLS_QUERY
  else None.

(** [name2count_query] *)
Definition name2count_query (name : string) : option sparql :=
  if g_str_equal name "telecom/pb.vcf" then Some CONTACTS_COUNT_QUERY
  else if g_str_equal name "telecom/ich.vcf" then Some INCOMING_CALLS_COUNT_QUERY
  else if g_str_equal name "telecom/och.vcf" then Some OUTGOING_CALLS_COUNT_QUERY
  else if g_str_equal name "telecom/mch.vcf" then Some MISSED_CALLS_COUNT_QUERY
  else if g_str_equal name "telecom/cch.vcf" then Some COMBINED_CALLS_COUNT_QUERY
  else None.

(** [folder2query] *)
Definition folder2query (folder : string) : option sparql :=
  if g_str_equal folder "/telecom/pb" then Some CONTACTS_QUERY_ALL_LIST
  else if g_str_equal folder "/telecom/ich" then Some INCOMING_CALLS_LIST
  else if g_str_equal folder "/telecom/och" then Some OUTGOING_CALLS_LIST
  else if g_str_equal folder "/telecom/mch" then Some MISSED_CALLS_LIST
  else if g_str_equal folder "/telecom/cch" then Some COMBINED_CALLS_LIST
  else None.

(** The row consumers handed to [query_tracker]. *)
Inductive reply_list_foreach_t := pull_contacts_fn | pull_contacts_size_fn | add_to_cache_fn.

(** [struct apparam_field] (phonebook.h), as far as it is read here. *)
Record apparam_field := {
  maxlistcount : Z;
  liststartoffset : Z;
  ap_filter : Z;           (* filter *)
  ap_format : Z            (* format *)
}.

(** The [user_data] an entry point allocates with [g_new0] and fills:
    a [struct phonebook_data] with its [vcardentry] and [params], or a
    [struct cache_data]. *)
Inductive consumer_data :=
| PhonebookData (vcardentry : bool) (params : apparam_field)
| CacheData.

(** What [query_tracker] is asked to send, and what it hangs on the
    pending call. *)
Record tracker_request := {
  rq_query : sparql;
  rq_num_fields : Z;
  rq_callback : reply_list_foreach_t;
  rq_user_data : consumer_data
}.

Definition EPERM : Z := 1.

(** The outcome of an entry point: the pending call returned (NULL
    being [None]), the value stored through [err] when the entry point
    stores one, and the request given to [query_tracker], if any. *)
Record query_result := {
  qr_call : option nat;
  qr_err : option Z;
  qr_request : option tracker_request
}.

(** [query_tracker] with a non-NULL [err]; [sent] is the pending call
    of [dbus_connection_send_with_reply], [None] when it fails. *)
Definition query_tracker (sent : option nat) (query : sparql) (num_fields : Z)
    (callback : reply_list_foreach_t) (user_data : consumer_data)
    : query_result :=
  let request := {| rq_query := query; rq_num_fields := num_fields;
                    rq_callback := callback; rq_user_data := user_data |} in
  match sent with
  | None => {| qr_call := None; qr_err := Some (- EPERM); qr_request := Some request |}
  | Some call => {| qr_call := Some call; qr_err := Some 0; qr_request := Some request |}
  end.

(** [phonebook_pull] with a non-NULL [err] *)
Definition phonebook_pull (sent : option nat) (name : string)
    (params : apparam_field) : query_result :=
  let '(query, col_amount, pull_cb) :=
    if Z.eqb (maxlistcount params) 0
    then (name2count_query name, COUNT_QUERY_COL_AMOUNT, pull_contacts_size_fn)
    else (name2query name, PULL_QUERY_COL_AMOUNT, pull_contacts_fn) in
  match query with
  | None => {| qr_call := None; qr_err := Some (- ENOENT); qr_request := None |}
  | Some q => query_tracker sent q col_amount pull_cb (PhonebookData false params)
  end.

Definition CONTACT_ID_PREFIX : string := "contact:".

(** [strncmp(id, CONTACT_ID_PREFIX, strlen(CONTACT_ID_PREFIX)) == 0] *)
Definition has_contact_prefix (id : string) : bool := String.prefix CONTACT_ID_PREFIX id.

(** [phonebook_get_entry] with a non-NULL [err] *)
Definition phonebook_get_entry (sent : option nat) (folder id : string)
    (params : apparam_field) : query_result :=
  let query := if has_contact_prefix id then CONTACTS_QUERY_FROM_URI id
               else CONTACTS_OTHER_QUERY_FROM_URI id in
  query_tracker sent query PULL_QUERY_COL_AMOUNT pull_contacts_fn
    (PhonebookData true params).

(** [phonebook_create_cache] with a non-NULL [err] *)
Definition phonebook_create_cache (sent : option nat) (name : string)
    : query_result :=
  match folder2query name with
  | None => {| qr_call := None; qr_err := Some (- ENOENT); qr_request := None |}
  | Some q => query_tracker sent q 7 add_to_cache_fn CacheData
  end.

(** *** GLib's [g_strsplit] for a delimiter of one character

    The string is cut at the first [max_tokens - 1] delimiters, the
    rest of the string being the last piece; the empty string gives the
    empty vector and a NULL string gives NULL.  A [max_tokens] below 1
    stands for no bound: a string has fewer delimiters than
    characters. *)
Fixpoint split_at (d : ascii) (s : string) : option (string * string) :=
  match s with
  | EmptyString => None
  | String c r =>
      if Ascii.eqb c d then Some (EmptyString, r)
      else match split_at d r with
           | Some (a, b) => Some (String c a, b)
           | None => None
           end
  end.

Fixpoint split_pieces (d : ascii) (cuts : nat) (remainder : string) : list string :=
  match cuts with
  | O => [remainder]
  | S cuts' =>
      match split_at d remainder with
      | Some (a, r) => a :: split_pieces d cuts' r
      | None => [remainder]
      end
  end.

Definition g_strsplit (s : option string) (delimiter : ascii) (max_tokens : Z)
    : option (list string) :=
  match s with
  | None => None
  | Some EmptyString => Some []
  | Some s =>
      let cuts := if Z.ltb max_tokens 1 then String.length s
                  else Z.to_nat (max_tokens - 1) in
      Some (split_pieces delimiter cuts s)
  end.

Definition MAIN_DELIM : ascii := ascii_of_nat 24.   (* "\30" *)
Definition SUB_DELIM : ascii := ascii_of_nat 25.    (* "\31" *)
Definition MAX_FIELDS : Z := 100.

(** *** Contacts

    The enumerations and structures of vcard.h, as far as this file
    reads and writes them. *)
Inductive phonebook_number_type :=
| TEL_TYPE_HOME | TEL_TYPE_MOBILE | TEL_TYPE_FAX | TEL_TYPE_WORK | TEL_TYPE_OTHER.

Inductive phonebook_email_type := EMAIL_TYPE_HOME | EMAIL_TYPE_WORK | EMAIL_TYPE_OTHER.

Inductive phonebook_address_type := ADDR_TYPE_HOME | ADDR_TYPE_WORK | ADDR_TYPE_OTHER.

Inductive phonebook_call_type :=
| CALL_TYPE_NOT_A_CALL | CALL_TYPE_MISSED | CALL_TYPE_INCOMING | CALL_TYPE_OUTGOING.

#[global] Instance number_type_eq_dec : EqDecision phonebook_number_type.
Proof. solve_decision. Defined.
#[global] Instance email_type_eq_dec : EqDecision phonebook_email_type.
Proof. solve_decision. Defined.
#[global] Instance address_type_eq_dec : EqDecision phonebook_address_type.
Proof. solve_decision. Defined.

Record phonebook_number := { tel : string; tel_type : phonebook_number_type }.
Record phonebook_email := { address : string; email_type : phonebook_email_type }.
Record phonebook_address := { addr : string; addr_type : phonebook_address_type }.

(** [struct phonebook_contact]; [calltype] is [None] in a contact fresh
    from [g_new0]. *)
Record phonebook_contact := {
  fullname : option string;
  given : option string;
  family : option string;
  additional : option string;
  numbers : list phonebook_number;
  emails : list phonebook_email;
  name_prefix : option string;      (* prefix *)
  name_suffix : option string;      (* suffix *)
  addresses : list phonebook_address;
  birthday : option string;
  nickname : option string;
  website : option string;
  photo : option string;
  company : option string;
  department : option string;
  role : option string;
  title : option string;
  uid : option string;
  datetime : option string;
  calltype : option phonebook_call_type
}.

Definition zeroed_contact : phonebook_contact :=
  {| fullname := None; given := None; family := None; additional := None;
     numbers := []; emails := []; name_prefix := None; name_suffix := None;
     addresses := []; birthday := None; nickname := None; website := None;
     photo := None; company := None; department := None; role := None;
     title := None; uid := None; datetime := None; calltype := None |}.

Definition with_numbers (l : list phonebook_number) (c : phonebook_contact) :=
  {| fullname := fullname c; given := given c; family := family c;
     additional := additional c; numbers := l; emails := emails c;
     name_prefix := name_prefix c; name_suffix := name_suffix c;
     addresses := addresses c; birthday := birthday c; nickname := nickname c;
     website := website c; photo := photo c; company := company c;
     department := department c; role := role c; title := title c;
     uid := uid c; datetime := datetime c; calltype := calltype c |}.

Definition with_emails (l : list phonebook_email) (c : phonebook_contact) :=
  {| fullname := fullname c; given := given c; family := family c;
     additional := additional c; numbers := numbers c; emails := l;
     name_prefix := name_prefix c; name_suffix := name_suffix c;
     addresses := addresses c; birthday := birthday c; nickname := nickname c;
     website := website c; photo := photo c; company := company c;
     department := department c; role := role c; title := title c;
     uid := uid c; datetime := datetime c; calltype := calltype c |}.

Definition with_addresses (l : list phonebook_address) (c : phonebook_contact) :=
  {| fullname := fullname c; given := given c; family := family c;
     additional := additional c; numbers := numbers c; emails := emails c;
     name_prefix := name_prefix c; name_suffix := name_suffix c;
     addresses := l; birthday := birthday c; nickname := nickname c;
     website := website c; photo := photo c; company := company c;
     department := department c; role := role c; title := title c;
     uid := uid c; datetime := datetime c; calltype := calltype c |}.

Definition with_organization (t co d r : option string) (c : phonebook_contact) :=
  {| fullname := fullname c; given := given c; family := family c;
     additional := additional c; numbers := numbers c; emails := emails c;
     name_prefix := name_prefix c; name_suffix := name_suffix c;
     addresses := addresses c; birthday := birthday c; nickname := nickname c;
     website := website c; photo := photo c; company := co;
     department := d; role := r; title := t;
     uid := uid c; datetime := datetime c; calltype := calltype c |}.

Definition with_call (ct : option phonebook_call_type) (dt : option string)
    (c : phonebook_contact) :=
  {| fullname := fullname c; given := given c; family := family c;
     additional := additional c; numbers := numbers c; emails := emails c;
     name_prefix := name_prefix c; name_suffix := name_suffix c;
     addresses := addresses c; birthday := birthday c; nickname := nickname c;
     website := website c; photo := photo c; company := company c;
     department := department c; role := role c; title := title c;
     uid := uid c; datetime := dt; calltype := ct |}.

(** [find_phone] *)
Fixpoint find_phone (l : list phonebook_number) (phone : option string)
    (type : phonebook_number_type) : option phonebook_number :=
  match l with
  | [] => None
  | pb_num :: r =>
      if Z.eqb (g_strcmp0 (Some (tel pb_num)) phone) 0
         && bool_decide (tel_type pb_num = type)
      then Some pb_num
      else find_phone r phone type
  end.

(** [add_phone_number] *)
Definition add_phone_number (contact : phonebook_contact) (phone : option string)
    (type : phonebook_number_type) : phonebook_contact :=
  match phone with
  | None => contact
  | Some p =>
      if Nat.eqb (String.length p) 0 then contact
      else
        match find_phone (numbers contact) phone type with
        | Some _ => contact
        | None =>
            with_numbers (numbers contact ++ [{| tel := p; tel_type := type |}]) contact
        end
  end.

(** [find_email] *)
Fixpoint find_email (l : list phonebook_email) (a : option string)
    (type : phonebook_email_type) : option phonebook_email :=
  match l with
  | [] => None
  | email :: r =>
      if Z.eqb (g_strcmp0 (Some (address email)) a) 0
         && bool_decide (email_type email = type)
      then Some email
      else find_email r a type
  end.

(** [add_email] *)
Definition add_email (contact : phonebook_contact) (a : option string)
    (type : phonebook_email_type) : phonebook_contact :=
  match a with
  | None => contact
  | Some p =>
      if Nat.eqb (String.length p) 0 then contact
      else
        match find_email (emails contact) a type with
        | Some _ => contact
        | None =>
            with_emails (emails contact ++ [{| address := p; email_type := type |}]) contact
        end
  end.

(** [find_address] *)
Fixpoint find_address (l : list phonebook_address) (a : option string)
    (type : phonebook_address_type) : option phonebook_address :=
  match l with
  | [] => None
  | ad :: r =>
      if Z.eqb (g_strcmp0 (Some (addr ad)) a) 0
         && bool_decide (addr_type ad = type)
      then Some ad
      else find_address r a type
  end.

(** [add_affiliation]; [field] is the string the pointer refers to, and
    the result is the string it refers to afterwards.  A NULL [*field]
    is handed to [strlen]. *)
Definition add_affiliation (field : option string) (value : option string)
    : option (option string) :=
  match field with
  | None => None
  | Some f =>
      if negb (Nat.eqb (String.length f) 0) then Some field
      else
        match value with
        | None => Some field
        | Some v => if Nat.eqb (String.length v) 0 then Some field else Some (Some v)
        end
  end.

Definition AFFILATION_HOME : string := "Home".
Definition AFFILATION_WORK : string := "Work".

(** [get_phone_type] *)
Definition get_phone_type (affilation : option string) : phonebook_number_type :=
  if Z.eqb (g_strcmp0 (Some AFFILATION_HOME) affilation) 0 then TEL_TYPE_HOME
  else if Z.eqb (g_strcmp0 (Some AFFILATION_WORK) affilation) 0 then TEL_TYPE_WORK
  else TEL_TYPE_OTHER.

(** [get_email_type] *)
Definition get_email_type (affilation : option string) : phonebook_email_type :=
  if Z.eqb (g_strcmp0 (Some AFFILATION_HOME) affilation) 0 then EMAIL_TYPE_HOME
  else if Z.eqb (g_strcmp0 (Some AFFILATION_WORK) affilation) 0 then EMAIL_TYPE_WORK
  else EMAIL_TYPE_OTHER.

(** [get_addr_type] *)
Definition get_addr_type (affilation : option string) : phonebook_address_type :=
  if Z.eqb (g_strcmp0 (Some AFFILATION_HOME) affilation) 0 then ADDR_TYPE_HOME
  else if Z.eqb (g_strcmp0 (Some AFFILATION_WORK) affilation) 0 then ADDR_TYPE_WORK
  else ADDR_TYPE_HOME.

Definition FAX_NUM_TYPE : string :=
  "http://www.semanticdesktop.org/ontologies/2007/03/22/nco#FaxNumber".
Definition MOBILE_NUM_TYPE : string :=
  "http://www.semanticdesktop.org/ontologies/2007/03/22/nco#CellPhoneNumber".
Definition TRACKER_DEFAULT_CONTACT_ME : string :=
  "http://www.semanticdesktop.org/ontologies/2007/03/22/nco#default-contact-me".

(** [add_main_number]; [pnumber] is an element of a vector made by
    [g_strsplit], never NULL. *)
Definition add_main_number (contact : phonebook_contact) (pnumber : string)
    : phonebook_contact :=
  match g_strsplit (Some pnumber) SUB_DELIM 2 with
  | None => contact
  | Some num_parts =>
      match num_parts with
      | type :: number :: _ =>
          match g_strrstr type FAX_NUM_TYPE, g_strrstr type MOBILE_NUM_TYPE with
          | Some _, _ => add_phone_number contact (Some number) TEL_TYPE_FAX
          | None, Some _ => add_phone_number contact (Some number) TEL_TYPE_MOBILE
          | None, None => add_phone_number contact (Some number) TEL_TYPE_OTHER
          end
      | _ => contact
      end
  end.
(** *** Rows of a reply

    A row is the array [string_array_from_iter] allocates: one pointer
    per column, NULL where no string was stored.  Reading a column
    outside the array, or the characters of a NULL column, has no
    defined outcome: the functions below give [None] there. *)
Definition row := list (option string).

Notation "'let?' x := m 'in' k" :=
  (match m with Some x => k | None => None end)
  (at level 10, x name, m at level 100, k at level 200, only parsing).

Definition COL_PHONE_AFF : nat := 0.
Definition COL_FULL_NAME : nat := 1.
Definition COL_FAMILY_NAME : nat := 2.
Definition COL_GIVEN_NAME : nat := 3.
Definition COL_ADDITIONAL_NAME : nat := 4.
Definition COL_NAME_PREFIX : nat := 5.
Definition COL_NAME_SUFFIX : nat := 6.
Definition COL_EMAIL_CONTACT : nat := 7.
Definition COL_ADDR_AFF : nat := 8.
Definition COL_ADDR_CONTACT : nat := 9.
Definition COL_PHONE_CONTACT : nat := 10.
Definition COL_BIRTH_DATE : nat := 11.
Definition COL_NICKNAME : nat := 12.
Definition COL_URL : nat := 13.
Definition COL_PHOTO : nat := 14.
Definition COL_ORG_ROLE : nat := 15.
Definition COL_UID : nat := 16.
Definition COL_TITLE : nat := 17.
Definition COL_AFF_TYPE : nat := 18.
Definition COL_ORG_NAME : nat := 19.
Definition COL_ORG_DEPARTMENT : nat := 20.
Definition COL_EMAIL_AFF : nat := 21.
Definition COL_DATE : nat := 22.
Definition COL_SENT : nat := 23.
Definition COL_ANSWERED : nat := 24.
Definition CONTACTS_ID_COL : nat := 25.

(** [reply[i]] *)
Definition col (reply : row) (i : nat) : option (option string) := reply !! i.

(** The loops [for (...; i < n; i++) if (reply[i][0] != '\0') break;]:
    the value of [i] after the loop, [count] columns being left to
    look at. *)
Fixpoint scan_empty (reply : row) (i count : nat) : option nat :=
  match count with
  | O => Some i
  | S count' =>
      match col reply i with
      | Some (Some EmptyString) => scan_empty reply (S i) count'
      | Some (Some _) => Some i
      | _ => None
      end
  end.

(** What the consumers report to the PBAP service. *)
Inductive handle_arg := Handle (h : Z) | PHONEBOOK_INVALID_HANDLE.

Inductive callback_event :=
| PhonebookCb (buffer : option string) (bufsize : Z) (vcards : Z) (missed : Z)
| EntryCb (id : string) (handle : handle_arg) (name : option string)
    (sound : string) (tel : option string)
| ReadyCb.

Record contact_data := { cd_id : option string; cd_contact : phonebook_contact }.

(** [struct phonebook_data], with the static [temp_id] of
    [pull_contacts] and the calls made through [cb], oldest first.
    [contacts_freed] says that [contacts] still points to a list whose
    cells were given back. *)
Record phonebook_data := {
  index : Z;
  vcardentry : bool;
  params : apparam_field;
  contacts : list contact_data;
  contacts_freed : bool;
  temp_id : option string;
  cb_calls : list callback_event
}.

(** The state [phonebook_pull] and [phonebook_get_entry] start from. *)
Definition new_phonebook_data (entry : bool) (p : apparam_field) : phonebook_data :=
  {| index := 0; vcardentry := entry; params := p; contacts := [];
     contacts_freed := false; temp_id := None; cb_calls := [] |}.

Definition INT_MAX : Z := 2147483647.

Section Vcard.

(** [address_fields_present] and [phonebook_add_contact] of vcard.c (the
    latter from the text gathered so far to the text with the vCard
    of the contact added), the C library's [atoi], and the
    conversion of [iso8601_utc_to_localtime], which depends on the time
    zone of the process. *)
Variable address_fields_present : string -> bool.
Variable phonebook_add_contact : string -> phonebook_contact -> Z -> Z -> string.
Variable atoi : string -> Z.
Variable iso8601_utc_to_localtime : string -> string.

(** [add_address] *)
Definition add_address (contact : phonebook_contact) (a : option string)
    (type : phonebook_address_type) : phonebook_contact :=
  match a with
  | None => contact
  | Some p =>
      if negb (address_fields_present p) then contact
      else
        match find_address (addresses contact) a type with
        | Some _ => contact
        | None =>
            with_addresses (addresses contact ++ [{| addr := p; addr_type := type |}])
              contact
        end
  end.

(** [set_call_type] *)
Definition set_call_type (contact : phonebook_contact)
    (dt is_sent is_answered : option string) : option phonebook_contact :=
  if Z.eqb (g_strcmp0 dt (Some "NOTACALL")) 0
  then Some (with_call (Some CALL_TYPE_NOT_A_CALL) (datetime contact) contact)
  else
    let? s := is_sent in
    let? a := is_answered in
    let sent := g_str_equal s "true" in
    let answered := g_str_equal a "true" in
    let ct := if negb sent
              then if negb answered then CALL_TYPE_MISSED else CALL_TYPE_INCOMING
              else CALL_TYPE_OUTGOING in
    let? d := dt in
    Some (with_call (Some ct) (Some (iso8601_utc_to_localtime d)) contact).

(** [contact_init] *)
Definition contact_init (contact : phonebook_contact) (reply : row)
    : option phonebook_contact :=
  let? r_fullname := col reply COL_FULL_NAME in
  let? r_family := col reply COL_FAMILY_NAME in
  let? r_given := col reply COL_GIVEN_NAME in
  let? r_additional := col reply COL_ADDITIONAL_NAME in
  let? r_prefix := col reply COL_NAME_PREFIX in
  let? r_suffix := col reply COL_NAME_SUFFIX in
  let? r_birthday := col reply COL_BIRTH_DATE in
  let? r_nickname := col reply COL_NICKNAME in
  let? r_website := col reply COL_URL in
  let? r_photo := col reply COL_PHOTO in
  let? r_company := col reply COL_ORG_NAME in
  let? r_department := col reply COL_ORG_DEPARTMENT in
  let? r_role := col reply COL_ORG_ROLE in
  let? r_uid := col reply COL_UID in
  let? r_title := col reply COL_TITLE in
  let? r_date := col reply COL_DATE in
  let? r_sent := col reply COL_SENT in
  let? r_answered := col reply COL_ANSWERED in
  set_call_type
    {| fullname := r_fullname; given := r_given; family := r_family;
       additional := r_additional; numbers := numbers contact;
       emails := emails contact; name_prefix := r_prefix;
       name_suffix := r_suffix; addresses := addresses contact;
       birthday := r_birthday; nickname := r_nickname; website := r_website;
       photo := r_photo; company := r_company; department := r_department;
       role := r_role; title := r_title; uid := r_uid;
       datetime := datetime contact; calltype := calltype contact |}
    r_date r_sent r_answered.

(** The loops over a vector of [g_strsplit]: [reply[COL_AFF_TYPE]] is
    read once per element. *)
Definition add_each {A} (add : phonebook_contact -> option string -> A -> phonebook_contact)
    (contact : phonebook_contact) (pieces : option (list string)) (reply : row)
    (type_of : option string -> A) : option phonebook_contact :=
  match pieces with
  | None | Some [] => Some contact
  | Some l =>
      let? aff := col reply COL_AFF_TYPE in
      Some (fold_left (fun c s => add c (Some s) (type_of aff)) l contact)
  end.

(** [contact_add_numbers] *)
Definition contact_add_numbers (contact : phonebook_contact) (reply : row)
    : option phonebook_contact :=
  let? phone_aff := col reply COL_PHONE_AFF in
  let? contact := add_each add_phone_number contact
                    (g_strsplit phone_aff MAIN_DELIM MAX_FIELDS) reply get_phone_type in
  let? phone_contact := col reply COL_PHONE_CONTACT in
  match g_strsplit phone_contact MAIN_DELIM MAX_FIELDS with
  | None => Some contact
  | Some con_numbers => Some (fold_left add_main_number con_numbers contact)
  end.

(** [contact_add_emails] *)
Definition contact_add_emails (contact : phonebook_contact) (reply : row)
    : option phonebook_contact :=
  let? email_aff := col reply COL_EMAIL_AFF in
  let? contact := add_each add_email contact
                    (g_strsplit email_aff MAIN_DELIM MAX_FIELDS) reply get_email_type in
  let? email_contact := col reply COL_EMAIL_CONTACT in
  match g_strsplit email_contact MAIN_DELIM MAX_FIELDS with
  | None => Some contact
  | Some con_emails =>
      Some (fold_left (fun c s => add_email c (Some s) EMAIL_TYPE_OTHER) con_emails contact)
  end.

(** [contact_add_addresses] *)
Definition contact_add_addresses (contact : phonebook_contact) (reply : row)
    : option phonebook_contact :=
  let? addr_aff := col reply COL_ADDR_AFF in
  let? contact := add_each add_address contact
                    (g_strsplit addr_aff MAIN_DELIM MAX_FIELDS) reply get_addr_type in
  let? addr_contact := col reply COL_ADDR_CONTACT in
  match g_strsplit addr_contact MAIN_DELIM MAX_FIELDS with
  | None => Some contact
  | Some con_addr =>
      Some (fold_left (fun c s => add_address c (Some s) ADDR_TYPE_OTHER) con_addr contact)
  end.

(** [contact_add_organization] *)
Definition contact_add_organization (contact : phonebook_contact) (reply : row)
    : option phonebook_contact :=
  let? r_title := col reply COL_TITLE in
  let? t := add_affiliation (title contact) r_title in
  let? r_company := col reply COL_ORG_NAME in
  let? co := add_affiliation (company contact) r_company in
  let? r_department := col reply COL_ORG_DEPARTMENT in
  let? d := add_affiliation (department contact) r_department in
  let? r_role := col reply COL_ORG_ROLE in
  let? r := add_affiliation (role contact) r_role in
  Some (with_organization t co d r contact).
(** [find_contact], as the position of the contact found. *)
Fixpoint find_contact (l : list contact_data) (id : option string) : option nat :=
  match l with
  | [] => None
  | c_data :: r =>
      if Z.eqb (g_strcmp0 (cd_id c_data) id) 0 then Some O
      else match find_contact r id with
           | Some n => Some (S n)
           | None => None
           end
  end.

(** [gen_vcards] *)
Definition gen_vcards (l : list contact_data) (p : apparam_field) : string :=
  fold_left (fun vcards c_data =>
               phonebook_add_contact vcards (cd_contact c_data) (ap_filter p) (ap_format p))
            l EmptyString.

Definition call_cb (e : callback_event) (data : phonebook_data) : phonebook_data :=
  {| index := index data; vcardentry := vcardentry data; params := params data;
     contacts := contacts data; contacts_freed := contacts_freed data;
     temp_id := temp_id data; cb_calls := cb_calls data ++ [e] |}.

(** The label [fail:] of [pull_contacts]: the cells of the list are
    freed, [data->contacts] keeps its value. *)
Definition pull_fail (data : phonebook_data) : phonebook_data :=
  {| index := index data; vcardentry := vcardentry data; params := params data;
     contacts := contacts data;
     contacts_freed := match contacts data with [] => false | _ => true end;
     temp_id := None; cb_calls := cb_calls data |}.

Definition set_index (i : Z) (id : option string) (data : phonebook_data) : phonebook_data :=
  {| index := i; vcardentry := vcardentry data; params := params data;
     contacts := contacts data; contacts_freed := contacts_freed data;
     temp_id := id; cb_calls := cb_calls data |}.

Definition set_contacts (l : list contact_data) (data : phonebook_data) : phonebook_data :=
  {| index := index data; vcardentry := vcardentry data; params := params data;
     contacts := l; contacts_freed := contacts_freed data;
     temp_id := temp_id data; cb_calls := cb_calls data |}.

(** From the label [add_numbers:] to the [return] that follows it. *)
Definition add_numbers_label (contact : phonebook_contact) (reply : row)
    : option phonebook_contact :=
  let? contact := contact_add_numbers contact reply in
  let? contact := contact_add_emails contact reply in
  let? contact := contact_add_addresses contact reply in
  contact_add_organization contact reply.

(** From the label [add_entry:] on. *)
Definition add_entry_label (reply : row) (id : option string) (data : phonebook_data)
    : option phonebook_data :=
  let? contact := contact_init zeroed_contact reply in
  let? contact := add_numbers_label contact reply in
  Some (set_contacts (contacts data ++ [{| cd_id := id; cd_contact := contact |}]) data).

(** [pull_contacts] *)
Definition pull_contacts (reply : option row) (num_fields : Z) (data : phonebook_data)
    : option phonebook_data :=
  if contacts_freed data then None      (* every path reads or frees the list *)
  else if Z.ltb num_fields 0
  then Some (pull_fail (call_cb (PhonebookCb None 0 num_fields 0) data))
  else
    match reply with
    | None =>
        let vcards := gen_vcards (contacts data) (params data) in
        let data :=
          if Z.eqb num_fields 0
          then call_cb (PhonebookCb (Some vcards) (Z.of_nat (String.length vcards))
                          (Z.of_nat (length (contacts data))) 0) data
          else data in
        Some (pull_fail data)
    | Some reply =>
        let? id := col reply CONTACTS_ID_COL in
        match find_contact (contacts data) id with
        | Some pos =>
            let? c_data := contacts data !! pos in
            let? contact := add_numbers_label (cd_contact c_data) reply in
            Some (set_contacts
                    (<[pos := {| cd_id := cd_id c_data; cd_contact := contact |}]>
                       (contacts data)) data)
        | None =>
            if vcardentry data then add_entry_label reply id data
            else
              let? i := scan_empty reply 0 (Z.to_nat (num_fields - 4)) in
              let? skip :=
                if Z.eqb (Z.of_nat i) (num_fields - 4)
                then let? s := id in Some (negb (g_str_equal s TRACKER_DEFAULT_CONTACT_ME))
                else Some false in
              if skip then Some data
              else
                let? data :=
                  if negb (Z.eqb (g_strcmp0 (temp_id data) id) 0)
                  then if Z.eqb (index data) INT_MAX then None
                       else Some (set_index (index data + 1) id data)
                  else Some data in
                let p := params data in
                let last_index := liststartoffset p + maxlistcount p in
                if (Z.leb (index data) (liststartoffset p)
                    || Z.ltb last_index (index data))
                   && Z.ltb 0 (maxlistcount p)
                then Some data
                else add_entry_label reply id data
        end
    end.

(** [pull_contacts_size] *)
Definition pull_contacts_size (reply : option row) (num_fields : Z)
    (data : phonebook_data) : option phonebook_data :=
  if Z.ltb num_fields 0
  then Some (call_cb (PhonebookCb None 0 num_fields 0) data)
  else
    match reply with
    | Some reply =>
        let? first := col reply 0 in
        let? s := first in
        Some (set_index (atoi s) (temp_id data) data)
    | None => Some (call_cb (PhonebookCb None 0 (index data) 0) data)
    end.

(** [add_to_cache]; the state is the list of the calls made through
    [entry_cb] and [ready_cb], oldest first. *)
Definition add_to_cache (reply : option row) (num_fields : Z)
    (cache : list callback_event) : option (list callback_event) :=
  let done := Some (if Z.leb num_fields 0 then (cache ++ [ReadyCb])%list else cache) in
  match reply with
  | None => done
  | Some reply =>
      if Z.ltb num_fields 0 then done
      else
        let? i := scan_empty reply 1 (Z.to_nat (num_fields - 1)) in
        let? skip :=
          if Z.eqb (Z.of_nat i) num_fields
          then let? r0 := col reply 0 in
               let? s := r0 in
               Some (negb (g_str_equal s TRACKER_DEFAULT_CONTACT_ME))
          else Some false in
        if skip then Some cache
        else
          let? formatted :=
            if Nat.eqb i 6 then col reply 6
            else
              let? r1 := col reply 1 in let? s1 := r1 in
              let? r2 := col reply 2 in let? s2 := r2 in
              let? r3 := col reply 3 in let? s3 := r3 in
              let? r4 := col reply 4 in let? s4 := r4 in
              let? r5 := col reply 5 in let? s5 := r5 in
              Some (Some (s1 ++ ";" ++ s2 ++ ";" ++ s3 ++ ";" ++ s4 ++ ";" ++ s5)) in
          let? r0 := col reply 0 in
          let? id := r0 in
          let? r6 := col reply 6 in
          if g_str_equal id TRACKER_DEFAULT_CONTACT_ME
          then Some (cache ++ [EntryCb id (Handle 0) formatted "" r6])%list
          else Some (cache ++ [EntryCb id PHONEBOOK_INVALID_HANDLE formatted "" r6])%list
  end.

End Vcard.

(** *** Replies of the tracker *)
#[warnings="-register-all"] Inductive dbus_value :=
| DBusString (s : string)
| DBusArray (elements : list dbus_value)
| DBusOther.

(** The loop of [string_array_from_iter]: [result] has [array_len]
    entries, and an element past the last one is written outside it. *)
Fixpoint fill_strings (sub : list dbus_value) (i : nat) (result : row)
    : option (option row) :=
  match sub with
  | [] => Some (match result with [] => None | _ => Some result end)
  | DBusString arg :: rest =>
      if Nat.ltb i (length result)
      then fill_strings rest (S i) (<[i := Some arg]> result)
      else None
  | _ :: _ => Some None
  end.

(** [string_array_from_iter]: the outer [None] is an execution without
    defined outcome, the inner one the NULL result ([g_new0] of no
    element is NULL as well). *)
Definition string_array_from_iter (iter : dbus_value) (array_len : Z)
    : option (option row) :=
  match iter with
  | DBusArray sub =>
      if Z.ltb array_len 0 then None
      else fill_strings sub 0 (replicate (Z.to_nat array_len) None)
  | _ => Some None
  end.

Inductive tracker_reply :=
| SparqlError
| SparqlReply (args : list dbus_value).

Section QueryReply.

Context {S : Type}.
Variable callback : option row -> Z -> S -> option S.

(** The [while] loop of [query_reply] and the call after [done:]. *)
Fixpoint reply_rows (num_fields : Z) (element : list dbus_value) (user_data : S)
    : option S :=
  match element with
  | [] => callback None 0 user_data
  | (DBusArray _ as e) :: rest =>
      let? node := string_array_from_iter e num_fields in
      let? user_data := callback node num_fields user_data in
      reply_rows num_fields rest user_data
  | _ :: _ => callback None 0 user_data
  end.

(** [query_reply] *)
Definition query_reply (reply : tracker_reply) (num_fields : Z) (user_data : S)
    : option S :=
  match reply with
  | SparqlError => callback None (-1) user_data
  | SparqlReply (DBusArray element :: _) => reply_rows num_fields element user_data
  | SparqlReply _ => callback None (-1) user_data
  end.

End QueryReply.

End Tracker.

(** ** The Message Access front-end ([map.c]) *)

Module Map.
Import Session.

Local Open Scope string_scope.
Local Open Scope Z_scope.

(** What a method handler gives back to the bus, or sends later: an
    error of the given name with its text, or a method return with its
    argument. *)
Inductive map_reply :=
| InvalidArguments               (* "org.openobex.Error.InvalidArguments", no text *)
| Failed (text : option string)  (* "org.openobex.Error.Failed" *)
| ReturnObjectPath (p : option string)
| ReturnString (buf : string)
| ReturnEmpty.

(** The argument types the handlers look at. *)
Inductive method_arg :=
| StringArg (s : string)
| ArrayArg
| OtherArg.

(** The callbacks this file hands to the session. *)
Definition buffer_cb_fn : session_callback_t := 1%nat.
Definition empty_cb_fn : session_callback_t := 2%nat.

(** "\x30" *)
Definition update_inbox_body : string := "0".

(** The nine bytes [map_push_message] makes up: tag 0x14, length 1,
    and the text "<UTF-8>". *)
Definition push_apparam : list Z := [20; 1; 60; 85; 84; 70; 45; 56; 62].

Section Handlers.

Variable X : extern.

(** [map->session] and the address of [map]. *)
Variable session : loc.
Variable map : user_data_t.

(** The common end of the asynchronous handlers: an error reply at
    once, or NULL with the message kept for the callback. *)
Definition failed_or_pending (err : Z) : option map_reply :=
  if err <? 0 then Some (Failed None) else None.

(** [map_get_folder_listing] *)
Definition map_get_folder_listing : M (option map_reply) :=
  let* err := obc_session_get X session (Some "x-obex/folder-listing") None None
                None (Some buffer_cb_fn) map in
  ret (failed_or_pending err).

(** [map_get_message_listing] *)
Definition map_get_message_listing (args : list method_arg)
    : M (option map_reply) :=
  match args with
  | StringArg folder :: _ =>
      let* err := obc_session_get X session (Some "x-bt/MAP-msg-listing")
                    (Some folder) None None (Some buffer_cb_fn) map in
      ret (failed_or_pending err)
  | _ => ret (Some InvalidArguments)
  end.

(** Modelled from the spec: [obc_transfer_get_path] of transfer.c, which
    is not among the sources, gives the object path of the transfer, NULL
    for a transfer that has none.  It is applied to the result of
    [obc_session_get_transfer]. *)
Definition transfer_path (transfer : option loc) : M (option string) :=
  match transfer with
  | None => fault
  | Some t => let* tr := load_transfer t in ret (t_path tr)
  end.

(** [map_get_message] *)
Definition map_get_message (args : list method_arg) : M (option map_reply) :=
  match args with
  | StringArg handle :: rest =>
      match rest with
      | ArrayArg :: rest' =>
          match rest' with
          | StringArg p :: _ =>
              let* err := obc_session_get X session (Some "x-bt/message")
                            (Some handle) (Some p) None None 0%nat in
              if err <? 0 then ret (Some (Failed None))
              else
                let* transfer := obc_session_get_transfer session in
                let* tp := transfer_path transfer in
                ret (Some (ReturnObjectPath tp))
          | _ => ret (Some InvalidArguments)
          end
      | _ => ret (Some InvalidArguments)
      end
  | _ => ret (Some InvalidArguments)
  end.

(** [map_update_inbox] *)
Definition map_update_inbox : M (option map_reply) :=
  let* err := obc_session_put X session (Some update_inbox_body)
                (Some "x-bt/MAP-messageUpdate") None None None
                (Some empty_cb_fn) map in
  ret (failed_or_pending err).

(** [map_push_message] *)
Definition map_push_message (args : list method_arg) : M (option map_reply) :=
  match args with
  | StringArg folder :: rest =>
      match rest with
      | StringArg msg_file :: _ =>
          let* err := obc_session_put X session None (Some "x-bt/message")
                        (Some msg_file) (Some folder) (Some push_apparam)
                        (Some empty_cb_fn) map in
          ret (failed_or_pending err)
      | _ => ret (Some InvalidArguments)
      end
  | _ => ret (Some InvalidArguments)
  end.

(** [empty_cb], as the reply it sends. *)
Definition empty_cb (err : option GError) : map_reply :=
  match err with
  | Some e => Failed (Some (message e))
  | None => ReturnEmpty
  end.

(** [obc_transfer_get_buffer] of transfer.c: the buffer and its size. *)
Variable obc_transfer_get_buffer : loc -> string * Z.

(** [buffer_cb]: the reply it sends; the transfer it unregisters is the
    one [obc_session_get_transfer] finds. *)
Definition buffer_cb (err : option GError) : M map_reply :=
  let* transfer := obc_session_get_transfer session in
  let* reply :=
    match err with
    | Some e => ret (Failed (Some (message e)))
    | None =>
        match transfer with
        | None => fault
        | Some t =>
            let '(buf, size) := obc_transfer_get_buffer t in
            ret (ReturnString (if size =? 0 then "" else buf))
        end
    end in
  match transfer with
  | None => fault
  | Some t =>
      let* _ := obc_transfer_unregister t in
      ret reply
  end.

(** [map_free] *)
Definition map_free : M unit := obc_session_unref X session.

(** [map_probe]; [allocated] and [registered] are the outcomes of
    [g_try_new0] and of [g_dbus_register_interface]. *)
Definition map_probe (allocated registered : bool) : M Z :=
  if negb allocated then ret (- ENOMEM)
  else
    let* _ := obc_session_ref session in
    if negb registered then
      let* _ := map_free in
      ret (- ENOMEM)
    else ret 0.

End Handlers.

End Map.

(** ** Notions used in the statements about the tracker back-end *)

Module Derived.
Import GLib Phonebook Tracker.

Local Open Scope string_scope.

(** The parent of a valid folder. *)
Definition parent_folder (folder : string) : string :=
  if String.eqb folder "/" then "/"
  else if String.eqb folder "/telecom" then "/"
  else "/telecom".

(** The valid folders that hold a phonebook. *)
Definition is_listing_folder (folder : string) : Prop :=
  In folder valid_folders /\ folder <> "/" /\ folder <> "/telecom".

(** The result of an entry point that sent nothing and reports
    [-ENOENT]. *)
Definition not_found : query_result :=
  {| qr_call := None; qr_err := Some (- ENOENT); qr_request := None |}.

(** One step of [add_phone_number], [add_email] or [add_address] leaves
    the list as it is, or appends one entry that was not in it. *)
Definition grows_by_new {A} (l l' : list A) : Prop :=
  l' = l \/ exists x, (x ∉ l) /\ l' = (l ++ [x])%list.

(** What a loop of such steps does to the list: entries are appended
    only, and no entry comes to be listed twice. *)
Definition extends {A} (l l' : list A) : Prop :=
  l `prefix_of` l' /\ (NoDup l -> NoDup l').

(** The fields of a contact that only [contact_init] writes. *)
Definition same_card (c c' : phonebook_contact) : Prop :=
  fullname c' = fullname c /\ given c' = given c /\ family c' = family c
  /\ additional c' = additional c /\ name_prefix c' = name_prefix c
  /\ name_suffix c' = name_suffix c /\ birthday c' = birthday c
  /\ nickname c' = nickname c /\ website c' = website c /\ photo c' = photo c
  /\ uid c' = uid c /\ datetime c' = datetime c /\ calltype c' = calltype c.

(** An organization field after a further row: a text already there
    stays, an empty one may be filled. *)
Definition kept_or_filled (field field' : option string) : Prop :=
  field' = field \/ (field = Some "" /\ exists v, field' = Some v /\ v <> "").

(** The type [add_main_number] gives to a number whose type string is
    [type]. *)
Definition main_number_type (type : string) : phonebook_number_type :=
  match g_strrstr type FAX_NUM_TYPE, g_strrstr type MOBILE_NUM_TYPE with
  | Some _, _ => TEL_TYPE_FAX
  | None, Some _ => TEL_TYPE_MOBILE
  | None, None => TEL_TYPE_OTHER
  end.

(** The character [d] occurs in [s]. *)
Definition occurs (d : ascii) (s : string) : Prop := In d (list_ascii_of_string s).

(** The identifiers of the contacts gathered so far. *)
Definition ids (data : phonebook_data) : list (option string) :=
  map cd_id (contacts data).

(** [data->index] lies outside the window of the request, which has a
    bound. *)
Definition outside (data : phonebook_data) : Prop :=
  (index data <= liststartoffset (params data)
   \/ liststartoffset (params data) + maxlistcount (params data) < index data)
  /\ 0 < maxlistcount (params data).

(** The counting of [pull_contacts] keeps the contacts within the
    window: there are no more of them than positions of the window
    reached so far, and one position less while the contact counted
    last is not among them. *)
Definition within_window (data : phonebook_data) : Prop :=
  let off := liststartoffset (params data) in
  let last := off + maxlistcount (params data) in
  Z.of_nat (length (contacts data)) <= Z.max 0 (Z.min (index data) last - off)
  /\ (contacts_freed data = false -> ~ outside data ->
      (temp_id data ∉ ids data) ->
      Z.of_nat (length (contacts data)) < index data - off).

(** A consumer that only writes down what it is called with. *)
Definition record_call (node : option row) (num_fields : Z)
    (log : list (option row * Z)) : option (list (option row * Z)) :=
  Some (log ++ [(node, num_fields)])%list.

(** The reply is an array, the case in which [query_reply] walks
    through rows. *)
Definition is_array_reply (reply : tracker_reply) : Prop :=
  exists element args, reply = SparqlReply (DBusArray element :: args).

(** A row of a count query: one column, the number as text. *)
Definition count_row (count : string) : dbus_value := DBusArray [DBusString count].

(** The name [add_to_cache] gives to an entry whose columns 1 to 6 are
    [c1] to [c6]. *)
Definition cache_name (c1 c2 c3 c4 c5 c6 : string) : string :=
  match c1, c2, c3, c4, c5, c6 with
  | "", "", "", "", "", String _ _ => c6
  | _, _, _, _, _, _ => c1 ++ ";" ++ c2 ++ ";" ++ c3 ++ ";" ++ c4 ++ ";" ++ c5
  end.

Definition is_entry (e : callback_event) : Prop :=
  match e with EntryCb _ _ _ _ _ => True | _ => False end.

(** A row of the contacts query as the tracker sends it: an array of
    26 strings. *)
Definition is_pull_row (e : dbus_value) : Prop :=
  exists strs, e = DBusArray (map DBusString strs) /\ length strs = 26%nat.

(** The organization fields of the contact hold a text, as they do
    after [contact_init] on a row of strings. *)
Definition org_present (c : contact_data) : Prop :=
  is_Some (title (cd_contact c)) /\ is_Some (company (cd_contact c))
  /\ is_Some (department (cd_contact c)) /\ is_Some (role (cd_contact c)).

(** The value of bytes read most significant first. *)
Definition be_value (bytes : list Z) : Z :=
  fold_left (fun acc b => acc * 256 + b) bytes 0.

(** The error [connect_cb] hands to the front-end. *)
Definition connect_error (err : option Session.GError) (rsp_code : Z)
    : option Session.GError :=
  match err with
  | Some e => Some e
  | None =>
      if Z.eqb rsp_code Session.G_OBEX_RSP_SUCCESS then None
      else Some {| Session.domain := Session.OBEX_IO_ERROR;
                   Session.code := - EIO;
                   Session.message :=
                     "OBEX Connect failed with 0x" ++ Session.hex02 rsp_code |}
  end.

End Derived.

(** ** Sample rows and contacts *)

Module TrackerScenario.
Import GLib Phonebook Tracker.

Local Open Scope string_scope.

Definition present_always (a : string) : bool := true.
Definition card_of (vcards : string) (c : phonebook_contact) (filter format : Z)
    : string :=
  vcards ++ match fullname c with Some n => n | None => "" end ++ ";".
Definition time_as_given (d : string) : string := d.

Definition delim (d : ascii) : string := String d EmptyString.

(** A row of the contacts query: 26 columns, identified by [id]. *)
Definition contact_strings (id name phones : string) : list string :=
  [phones; name; "Doe"; "Jo"; ""; ""; ""; "jo@example.org"; ""; ""; ""; ""; ""; "";
   ""; ""; ""; "Dr"; "Work"; "Acme"; ""; "jo@acme.example"; "NOTACALL"; "false";
   "false"; id].

Definition jo_strings : list string :=
  contact_strings "contact:1" "Jo Doe" ("555" ++ delim MAIN_DELIM ++ "556").

Definition jo_row : row := map Some jo_strings.

(** The contact of [jo_row], and the contact after the row was added to
    it a second time. *)
Definition jo : phonebook_contact :=
  Eval vm_compute in
    match contact_init time_as_given zeroed_contact jo_row with
    | Some c => match add_numbers_label present_always c jo_row with
                | Some c' => c'
                | None => zeroed_contact
                end
    | None => zeroed_contact
    end.

Definition jo_again : phonebook_contact :=
  Eval vm_compute in
    match add_numbers_label present_always jo jo_row with
    | Some c' => c'
    | None => zeroed_contact
    end.

Definition ten_from_two : apparam_field :=
  {| maxlistcount := 10; liststartoffset := 2; ap_filter := 0; ap_format := 0 |}.

Definition ten_from_start : apparam_field :=
  {| maxlistcount := 10; liststartoffset := 0; ap_filter := 0; ap_format := 0 |}.

(** The reply to a pull with one row, the state of the pull after that
    row, and its state after the whole reply. *)
Definition jo_reply : tracker_reply :=
  SparqlReply [DBusArray [DBusArray (map DBusString jo_strings)]].

Definition after_jo : phonebook_data :=
  Eval vm_compute in
    match pull_contacts present_always card_of time_as_given (Some jo_row) 26
            (new_phonebook_data false ten_from_start) with
    | Some d => d
    | None => new_phonebook_data false ten_from_start
    end.

Definition after_jo_reply : phonebook_data :=
  Eval vm_compute in
    match query_reply (pull_contacts present_always card_of time_as_given)
            jo_reply 26 (new_phonebook_data false ten_from_start) with
    | Some d => d
    | None => new_phonebook_data false ten_from_start
    end.

(** The reply to a listing query with one contact. *)
Definition listing_reply : tracker_reply :=
  SparqlReply
    [DBusArray
       [DBusArray (map DBusString ["contact:1"; "Doe"; "Jo"; ""; ""; ""; "555"])]].

End TrackerScenario.

(** ** Sample processes for the front-end *)

Module MapScenario.
Import Session Scenario.

Local Open Scope string_scope.
Local Open Scope Z_scope.

(** A bus library that cannot build any message. *)
Definition x_no_message : extern :=
  {| x_message_new := fun _ => false;
     x_append_args := x_append_args x_ok;
     x_send_with_reply := x_send_with_reply x_ok;
     x_bus_session := x_bus_session x_ok;
     x_bus_system := x_bus_system x_ok;
     x_add_disconnect_watch := x_add_disconnect_watch x_ok;
     x_malloc_session := x_malloc_session x_ok;
     x_malloc_callback := x_malloc_callback x_ok;
     x_bt_io_connect := x_bt_io_connect x_ok;
     x_sdp_connect := x_sdp_connect x_ok;
     x_io_channel_unix_new := x_io_channel_unix_new x_ok;
     x_sdp_set_notify := x_sdp_set_notify x_ok;
     x_sdp_service_search_attr_async := x_sdp_service_search_attr_async x_ok;
     x_sdp_process := x_sdp_process x_ok;
     x_sscanf_uuid := x_sscanf_uuid x_ok;
     x_obex_new := x_obex_new x_ok;
     x_obex_connect_err := x_obex_connect_err x_ok;
     x_agent_request := x_agent_request x_ok;
     x_transfer_register := x_transfer_register x_ok;
     x_transfer_set_file := x_transfer_set_file x_ok;
     x_transfer_get := x_transfer_get x_ok;
     x_transfer_put := x_transfer_put x_ok;
     x_register_interface := x_register_interface x_ok;
     x_driver_probe := x_driver_probe x_ok |}.

(** An agent that turns every request down. *)
Definition x_agent_refuses : extern :=
  {| x_message_new := x_message_new x_ok;
     x_append_args := x_append_args x_ok;
     x_send_with_reply := x_send_with_reply x_ok;
     x_bus_session := x_bus_session x_ok;
     x_bus_system := x_bus_system x_ok;
     x_add_disconnect_watch := x_add_disconnect_watch x_ok;
     x_malloc_session := x_malloc_session x_ok;
     x_malloc_callback := x_malloc_callback x_ok;
     x_bt_io_connect := x_bt_io_connect x_ok;
     x_sdp_connect := x_sdp_connect x_ok;
     x_io_channel_unix_new := x_io_channel_unix_new x_ok;
     x_sdp_set_notify := x_sdp_set_notify x_ok;
     x_sdp_service_search_attr_async := x_sdp_service_search_attr_async x_ok;
     x_sdp_process := x_sdp_process x_ok;
     x_sscanf_uuid := x_sscanf_uuid x_ok;
     x_obex_new := x_obex_new x_ok;
     x_obex_connect_err := x_obex_connect_err x_ok;
     x_agent_request := - EIO;
     x_transfer_register := x_transfer_register x_ok;
     x_transfer_set_file := x_transfer_set_file x_ok;
     x_transfer_get := x_transfer_get x_ok;
     x_transfer_put := x_transfer_put x_ok;
     x_register_interface := x_register_interface x_ok;
     x_driver_probe := x_driver_probe x_ok |}.

(** A GObex library that cannot make an engine. *)
Definition x_no_obex : extern :=
  {| x_message_new := x_message_new x_ok;
     x_append_args := x_append_args x_ok;
     x_send_with_reply := x_send_with_reply x_ok;
     x_bus_session := x_bus_session x_ok;
     x_bus_system := x_bus_system x_ok;
     x_add_disconnect_watch := x_add_disconnect_watch x_ok;
     x_malloc_session := x_malloc_session x_ok;
     x_malloc_callback := x_malloc_callback x_ok;
     x_bt_io_connect := x_bt_io_connect x_ok;
     x_sdp_connect := x_sdp_connect x_ok;
     x_io_channel_unix_new := x_io_channel_unix_new x_ok;
     x_sdp_set_notify := x_sdp_set_notify x_ok;
     x_sdp_service_search_attr_async := x_sdp_service_search_attr_async x_ok;
     x_sdp_process := x_sdp_process x_ok;
     x_sscanf_uuid := x_sscanf_uuid x_ok;
     x_obex_new := None;
     x_obex_connect_err := x_obex_connect_err x_ok;
     x_agent_request := x_agent_request x_ok;
     x_transfer_register := x_transfer_register x_ok;
     x_transfer_set_file := x_transfer_set_file x_ok;
     x_transfer_get := x_transfer_get x_ok;
     x_transfer_put := x_transfer_put x_ok;
     x_register_interface := x_register_interface x_ok;
     x_driver_probe := x_driver_probe x_ok |}.

(** A session whose transport has just come up: held by its creator
    and by the connect request, no OBEX engine yet. *)
Definition connecting_session : obc_session :=
  set_refcount 2 (set_io (Some 3%nat) (set_pending [] unconnected_session)).

Definition w_connecting : world :=
  world_of {[ 1%positive := connecting_session ]} [] ∅.

(** The connected session with an agent assigned. *)
Definition agent_session : obc_session :=
  set_agent (Some {| agent_name := ":1.42"; agent_path := "/agent" |}) ready_session.

Definition w_agent : world :=
  world_of {[ 1%positive := agent_session ]} [1%positive] ∅.

(** The address of the [struct map_data] of the session. *)
Definition map_data : user_data_t := 33%nat.

End MapScenario.

(** * Properties *)

(** ** Folder navigation *)

Module PhonebookSpec.
Import GLib Phonebook.

Local Open Scope string_scope.

Lemma folder_is_valid_whitelist (p : string) :
  folder_is_valid (Some p) = true <-> In p valid_folders.
Proof.
  unfold folder_is_valid, valid_folders, g_str_equal. simpl. split.
  - intros H.
    repeat match type of H with
           | (if String.eqb ?a ?b then _ else _) = _ =>
               destruct (String.eqb_spec a b); [subst; tauto |]
           end.
    discriminate.
  - intros H.
    repeat (destruct H as [<- | H]; [reflexivity |]).
    destruct H.
Qed.

(** At [done:], a path outside the whitelist turns into NULL and
    [-ENOENT], whatever the [switch] had computed. *)
Lemma done_rejects_invalid (current new : option string) (flags : Z)
    (err : bool) (p : string) (ret : Z) :
  set_folder_switch current new flags = AtDone (Some p) ret ->
  folder_is_valid (Some p) = false ->
  phonebook_set_folder current new flags err =
    Some {| sf_path := None; sf_ret := - ENOENT;
            sf_err := if err then Some (- ENOENT) else None |}.
Proof.
  intros Hsw Hinv. unfold phonebook_set_folder.
  rewrite Hsw, Hinv. reflexivity.
Qed.

(** C9: entering "telecom" from the root gives "/telecom", going up
    from "/telecom/pb" with an empty name gives "/telecom", and every
    call whose resulting path is not one of the seven valid folders
    returns NULL with the error -ENOENT. *)
Theorem phonebook_set_folder_whitelist :
  (forall err,
     phonebook_set_folder (Some "/") (Some "telecom") FLAGS_ENTER err =
       Some {| sf_path := Some "/telecom"; sf_ret := 0;
               sf_err := if err then Some 0%Z else None |})
  /\ (forall err,
        phonebook_set_folder (Some "/telecom/pb") (Some "") FLAGS_UP err =
          Some {| sf_path := Some "/telecom"; sf_ret := 0;
                  sf_err := if err then Some 0%Z else None |})
  /\ (forall current new flags err p ret,
        set_folder_switch current new flags = AtDone (Some p) ret ->
        ~ In p valid_folders ->
        phonebook_set_folder current new flags err =
          Some {| sf_path := None; sf_ret := - ENOENT;
                  sf_err := if err then Some (- ENOENT) else None |}).
Proof.
  split; [| split].
  - intros []; reflexivity.
  - intros []; reflexivity.
  - intros current new flags err p ret Hsw Hnot.
    apply done_rejects_invalid with (p := p) (ret := ret); [exact Hsw |].
    destruct (folder_is_valid (Some p)) eqn:E; [| reflexivity].
    apply folder_is_valid_whitelist in E. contradiction.
Qed.

Lemma phonebook_set_folder_whitelist_witness :
  phonebook_set_folder (Some "/") (Some "music") FLAGS_ENTER true =
    Some {| sf_path := None; sf_ret := - ENOENT; sf_err := Some (- ENOENT) |}.
Proof.
  apply (proj2 (proj2 phonebook_set_folder_whitelist)
           (Some "/") (Some "music") FLAGS_ENTER true "/music" 0%Z).
  - reflexivity.
  - unfold valid_folders. simpl. intros H.
    repeat (destruct H as [H | H]; [discriminate H |]). exact H.
Defined.

End PhonebookSpec.

(** ** The session core *)

Module SessionSpec.
Import GLib Session Observe.

(** *** Rules for running the monad *)

Lemma returns_ret {A} (a : A) w (Q : A -> world -> Prop) :
  Q a w -> returns (ret a) w Q.
Proof. exact (fun H => H). Qed.

Lemma returns_bind {A B} (m : M A) (f : A -> M B) w (Q : B -> world -> Prop) :
  returns m w (fun a w' => returns (f a) w' Q) -> returns (bind m f) w Q.
Proof.
  unfold returns, bind. destruct (m w) as [[a w'] |]; [| tauto]. tauto.
Qed.

Lemma returns_mono {A} (m : M A) w (Q Q' : A -> world -> Prop) :
  returns m w Q -> (forall a w', Q a w' -> Q' a w') -> returns m w Q'.
Proof.
  unfold returns. destruct (m w) as [[a w'] |]; [| tauto]. auto.
Qed.

Lemma returns_eq {A} (m : M A) w (Q : A -> world -> Prop) a w' :
  m w = Some (a, w') -> Q a w' -> returns m w Q.
Proof. unfold returns. intros ->. tauto. Qed.

Lemma returns_inv {A} (m : M A) w (Q : A -> world -> Prop) :
  returns m w Q -> exists a w', m w = Some (a, w') /\ Q a w'.
Proof.
  unfold returns. destruct (m w) as [[a w'] |]; [eauto | tauto].
Qed.

Lemma returns_load s v w (Q : obc_session -> world -> Prop) :
  heap w !! s = Some v -> Q v w -> returns (load s) w Q.
Proof. unfold returns, load. intros ->. tauto. Qed.

Lemma returns_store s v v' w (Q : unit -> world -> Prop) :
  heap w !! s = Some v ->
  Q tt (with_heap (<[s := v']> (heap w)) w) ->
  returns (store s v') w Q.
Proof. unfold returns, store. intros ->. tauto. Qed.

Lemma returns_update s f v w (Q : unit -> world -> Prop) :
  heap w !! s = Some v ->
  Q tt (with_heap (<[s := f v]> (heap w)) w) ->
  returns (update s f) w Q.
Proof.
  intros H HQ. unfold update. apply returns_bind.
  eapply returns_load; [exact H |].
  eapply returns_store; [exact H | exact HQ].
Qed.

Lemma returns_emit e w (Q : unit -> world -> Prop) :
  Q tt (with_trace (trace w ++ [e]) w) -> returns (emit e) w Q.
Proof. exact (fun H => H). Qed.

Lemma returns_when (b : bool) (m : M unit) w (Q : unit -> world -> Prop) :
  (b = true -> returns m w Q) -> (b = false -> Q tt w) ->
  returns (when b m) w Q.
Proof. destruct b; simpl; intros H1 H2; [apply H1 | apply H2]; reflexivity. Qed.

Lemma whenever_ret {A} (a : A) w (Q : A -> world -> Prop) :
  Q a w -> whenever (ret a) w Q.
Proof. exact (fun H => H). Qed.

Lemma whenever_bind {A B} (m : M A) (f : A -> M B) w (Q : B -> world -> Prop) :
  whenever m w (fun a w' => whenever (f a) w' Q) -> whenever (bind m f) w Q.
Proof.
  unfold whenever, bind. destruct (m w) as [[a w'] |]; tauto.
Qed.

Lemma whenever_mono {A} (m : M A) w (Q Q' : A -> world -> Prop) :
  whenever m w Q -> (forall a w', Q a w' -> Q' a w') -> whenever m w Q'.
Proof.
  unfold whenever. destruct (m w) as [[a w'] |]; [| tauto]. auto.
Qed.

Lemma whenever_load s w (Q : obc_session -> world -> Prop) :
  (forall v, heap w !! s = Some v -> Q v w) -> whenever (load s) w Q.
Proof.
  unfold whenever, load. destruct (heap w !! s) as [v |]; [| tauto]. auto.
Qed.

Lemma whenever_update s f w (Q : unit -> world -> Prop) :
  (forall v, heap w !! s = Some v ->
             Q tt (with_heap (<[s := f v]> (heap w)) w)) ->
  whenever (update s f) w Q.
Proof.
  intros H. unfold whenever, update, bind, load, store.
  destruct (heap w !! s) as [v |] eqn:E; [| tauto].
  simpl. rewrite E. auto.
Qed.

Lemma whenever_emit e w (Q : unit -> world -> Prop) :
  Q tt (with_trace (trace w ++ [e]) w) -> whenever (emit e) w Q.
Proof. exact (fun H => H). Qed.

Lemma same_frame_refl w : same_frame w w.
Proof. unfold same_frame. tauto. Qed.

(** *** Teardown *)

Lemma releasing_refl s v w : heap w !! s = Some v -> releasing s w w.
Proof.
  intros H. split; [rewrite H; eauto |]. split; [reflexivity |].
  split; [apply same_frame_refl |].
  exists []. split; [symmetry; apply app_nil_r | constructor].
Qed.

Lemma releasing_emit s w w1 e :
  releasing s w w1 -> is_resource_release e = true ->
  releasing s w (with_trace (trace w1 ++ [e]) w1).
Proof.
  intros (Hl & Ho & Hf & evs & Ht & Hall) He.
  split; [exact Hl |]. split; [exact Ho |]. split; [exact Hf |].
  exists (evs ++ [e]). simpl. split.
  - rewrite Ht. symmetry. apply app_assoc.
  - apply Forall_app. split; [exact Hall |]. constructor; [exact He | constructor].
Qed.

Lemma releasing_store s w w1 v' :
  releasing s w w1 -> releasing s w (with_heap (<[s := v']> (heap w1)) w1).
Proof.
  intros (Hl & Ho & Hf & Hev).
  split; [simpl; rewrite lookup_insert_eq; eauto |].
  split; [| split; [exact Hf | exact Hev]].
  intros l Hne. simpl. rewrite lookup_insert_ne; [| congruence]. apply Ho, Hne.
Qed.

Lemma releases_ret s : releases s (ret tt).
Proof. intros w w1 Q Hrel HQ. apply returns_ret, HQ, Hrel. Qed.

Lemma releases_emit s e : is_resource_release e = true -> releases s (emit e).
Proof.
  intros He w w1 Q Hrel HQ. apply returns_emit, HQ, releasing_emit; assumption.
Qed.

Lemma releases_seq s (m k : M unit) :
  releases s m -> releases s k -> releases s (let* _ := m in k).
Proof.
  intros Hm Hk w w1 Q Hrel HQ. apply returns_bind.
  apply (Hm w w1 _ Hrel). intros w2 Hrel2. apply (Hk w w2 Q Hrel2 HQ).
Qed.

Lemma releases_when s b m : releases s m -> releases s (when b m).
Proof. destruct b; [tauto | intros _; apply releases_ret]. Qed.

Lemma releases_update s f : releases s (update s f).
Proof.
  intros w w1 Q Hrel HQ. destruct (proj1 Hrel) as [v1 Hv1].
  eapply returns_update; [exact Hv1 |]. apply HQ, releasing_store, Hrel.
Qed.

Lemma releases_forM {A} s (l : list A) (f : A -> M unit) :
  (forall x, releases s (f x)) -> releases s (forM l f).
Proof.
  intros Hf. induction l as [| x l IH]; simpl.
  - apply releases_ret.
  - apply releases_seq; [apply Hf | exact IH].
Qed.

Lemma pending_req_finalize_releases s req : releases s (pending_req_finalize req).
Proof.
  intros w w1 Q Hrel HQ.
  exact (releases_seq s
           (when (negb (existsb (Nat.eqb (req_call req)) (completed w1)))
                 (emit (EvPendingCallCancel (req_call req))))
           (emit (EvPendingCallUnref (req_call req)))
           (releases_when s _ _
              (releases_emit s (EvPendingCallCancel (req_call req)) eq_refl))
           (releases_emit s (EvPendingCallUnref (req_call req)) eq_refl)
           w w1 Q Hrel HQ).
Qed.

Lemma session_unregistered_releases s : releases s (session_unregistered s).
Proof.
  intros w w1 Q Hrel HQ. unfold session_unregistered.
  destruct (proj1 Hrel) as [v1 Hv1].
  apply returns_bind. eapply returns_load; [exact Hv1 |].
  refine (releases_seq s _ _ _ _ w w1 Q Hrel HQ).
  - apply releases_when, releases_emit. reflexivity.
  - apply releases_seq; [apply releases_update | apply releases_emit; reflexivity].
Qed.

(** Runs one stage of a teardown and names the world it leaves. *)
Ltac release_stage w Hrel :=
  apply returns_bind;
  match goal with
  | H : releasing ?s ?w0 _ |- _ =>
      let R := fresh "Hstage" in
      assert (R : forall m, releases s m -> forall Q : unit -> world -> Prop,
                    (forall w2, releasing s w0 w2 -> Q tt w2) -> returns m _ Q)
        by (intros m Hm Q HQ; exact (Hm _ _ Q H HQ));
      apply R; clear R H; [| intros w Hrel]
  end.

(** [session_free] on a live session always returns: it releases
    resources, takes the session off the registry, and hands the object
    back as its last act. *)
Lemma session_free_returns s v w :
  heap w !! s = Some v ->
  returns (session_free s) w (fun _ w' =>
    heap w' = delete s (heap w)
    /\ sessions w' = g_slist_remove Pos.eqb (sessions w) s
    /\ transfers w' = transfers w /\ completed w' = completed w
    /\ next_loc w' = next_loc w /\ counter w' = counter w
    /\ exists tear, trace w' = trace w ++ tear ++ [EvFree s]
                    /\ Forall (fun e => is_resource_release e = true) tear).
Proof.
  intros Hv. unfold session_free.
  apply returns_bind. eapply returns_load; [exact Hv |].
  pose proof (releasing_refl s v w Hv) as Hrel.
  release_stage w1 Hrel1.
  { apply releases_forM. intros req.
    apply releases_seq; [apply releases_update | apply pending_req_finalize_releases]. }
  release_stage w2 Hrel2.
  { destruct (agent v); [| apply releases_ret].
    apply releases_seq; apply releases_emit; reflexivity. }
  release_stage w3 Hrel3.
  { apply releases_when, releases_emit. reflexivity. }
  release_stage w4 Hrel4.
  { destruct (obex v); [apply releases_emit; reflexivity | apply releases_ret]. }
  release_stage w5 Hrel5.
  { destruct (io v); [| apply releases_ret].
    apply releases_seq; apply releases_emit; reflexivity. }
  release_stage w6 Hrel6.
  { destruct (path v); [apply session_unregistered_releases | apply releases_ret]. }
  release_stage w7 Hrel7.
  { destruct (conn v); [apply releases_emit; reflexivity | apply releases_ret]. }
  release_stage w8 Hrel8.
  { destruct (conn_system v); [apply releases_emit; reflexivity | apply releases_ret]. }
  unfold returns, bind, emit. simpl.
  destruct Hrel8 as (_ & Hother & (Hs & Ht & Hc & Hn & Hk) & tear & Htr & Hall).
  rewrite Hs, Ht, Hc, Hn, Hk, Htr.
  split.
  { apply map_eq. intros l. destruct (decide (l = s)) as [-> | Hne].
    - rewrite !lookup_delete_eq. reflexivity.
    - rewrite !lookup_delete_ne by congruence. apply Hother, Hne. }
  repeat (split; [reflexivity |]).
  exists tear. split; [symmetry; apply app_assoc | exact Hall].
Qed.

(** *** Reference counting *)

Lemma send_without_reply X c d p i m ud w :
  send_method_call X c d p i m None ud w =
    Some (None,
          if x_message_new X m && x_append_args X m
          then with_trace (trace w ++ [EvSendMessage c d p i m]) w
          else w).
Proof.
  unfold send_method_call.
  destruct (x_message_new X m); [| reflexivity].
  destruct (x_append_args X m); reflexivity.
Qed.

Lemma release_send X v w :
  exists w', send_method_call X (conn_system v) BT_BUS_NAME (adapter v)
               BT_ADAPTER_IFACE "ReleaseSession" None None w = Some (None, w')
             /\ heap w' = heap w /\ same_frame w w'
             /\ trace w' = trace w ++ release_notification X v.
Proof.
  rewrite send_without_reply. unfold release_notification.
  destruct (x_message_new X "ReleaseSession" && x_append_args X "ReleaseSession");
    eexists; (split; [reflexivity |]); (split; [reflexivity |]);
    (split; [unfold same_frame; simpl; tauto |]).
  - reflexivity.
  - symmetry. apply app_nil_r.
Qed.

(** The loop of [session_free] over the pending calls gives up each of
    them, in the order of the list, and touches nothing of the session
    but the list. *)
Lemma free_calls_trace s (l : list pending_req) : forall w1 v1,
  heap w1 !! s = Some v1 ->
  returns
    (forM l (fun req =>
       let* _ := update s (fun s' =>
                   set_pending_calls (g_slist_remove req_eqb (pending_calls s') req) s') in
       pending_req_finalize req)) w1
    (fun _ w2 =>
       completed w2 = completed w1
       /\ trace w2 = trace w1 ++ flat_map (finalize_events (completed w1)) l
       /\ exists v2, heap w2 !! s = Some v2 /\ driver v2 = driver v1
                     /\ conn v2 = conn v1 /\ path v2 = path v1).
Proof.
  induction l as [| req l IH]; intros w1 v1 Hv1.
  - apply returns_ret. split; [reflexivity |].
    split; [symmetry; apply app_nil_r |]. exists v1. tauto.
  - cbn [forM]. apply returns_bind. apply returns_bind.
    eapply returns_update; [exact Hv1 |].
    set (v2 := set_pending_calls (g_slist_remove req_eqb (pending_calls v1) req) v1).
    set (w2 := with_heap (<[s := v2]> (heap w1)) w1).
    assert (Hv2 : forall t, heap (with_trace t w2) !! s = Some v2)
      by (intros t; apply lookup_insert_eq).
    unfold returns at 1, pending_req_finalize, bind, when, emit, ret.
    cbn [flat_map]. unfold finalize_events at 1.
    change (completed w2) with (completed w1).
    destruct (existsb (Nat.eqb (req_call req)) (completed w1)).
    + eapply returns_mono; [apply (IH _ v2), Hv2 |].
      intros [] w3 (Hc & Ht & v3 & Hv3 & Hd & Hn & Hp).
      split; [exact Hc |]. split; [| exists v3; tauto].
      rewrite Ht. cbn. rewrite <- !app_assoc. reflexivity.
    + eapply returns_mono; [apply (IH _ v2), Hv2 |].
      intros [] w3 (Hc & Ht & v3 & Hv3 & Hd & Hn & Hp).
      split; [exact Hc |]. split; [| exists v3; tauto].
      rewrite Ht. cbn. rewrite <- !app_assoc. reflexivity.
Qed.

(** The calls of [session_free] are exactly the releases due for what
    the session owned, then the return of the object. *)
Lemma session_free_trace s v w :
  heap w !! s = Some v ->
  returns (session_free s) w (fun _ w' =>
    trace w' = trace w ++ owned_releases (completed w) s v ++ [EvFree s]).
Proof.
  intros Hv. unfold session_free.
  apply returns_bind. eapply returns_load; [exact Hv |].
  apply returns_bind.
  eapply returns_mono; [apply (free_calls_trace s (pending_calls v) w v Hv) |].
  intros [] w1 (Hc1 & Ht1 & v1 & Hv1 & Hd1 & Hn1 & Hp1).
  unfold owned_releases.
  generalize (flat_map (finalize_events (completed w)) (pending_calls v)) Ht1.
  intros calls Hcalls.
  unfold returns, session_unregistered, update, bind, when, emit, ret, store, load.
  destruct (agent v) as [a |], (watch v =? 0), (obex v) as [o |], (io v) as [i |],
           (path v) as [p |], (conn v) as [c |], (conn_system v) as [c' |],
           (match driver v with Some d => remove d | None => false end) eqn:Er;
    repeat (progress (cbn [negb trace heap with_trace sessions with_sessions with_heap];
                      rewrite ?Hv1, ?Hd1, ?Hn1, ?Hp1, ?Er));
    rewrite Hcalls, <- ?app_assoc; reflexivity.
Qed.

(** A release that does not reach zero only stores the new count. *)
Lemma unref_keeps X s v w :
  heap w !! s = Some v ->
  wrap_gint (refcount v - 1) <> 0 ->
  obc_session_unref X s w =
    Some (tt, with_heap (<[s := set_refcount (wrap_gint (refcount v - 1)) v]> (heap w)) w).
Proof.
  intros Hv Hnz. unfold obc_session_unref, bind, load, store. rewrite Hv. simpl.
  rewrite Hv. destruct (Z.eqb_spec (wrap_gint (refcount v - 1)) 0); [contradiction |].
  reflexivity.
Qed.

(** A release that reaches zero notifies the adapter and then frees. *)
Lemma unref_frees X s v w :
  heap w !! s = Some v ->
  wrap_gint (refcount v - 1) = 0 ->
  returns (obc_session_unref X s) w (fun _ w' =>
    heap w' = delete s (heap w)
    /\ sessions w' = g_slist_remove Pos.eqb (sessions w) s
    /\ transfers w' = transfers w /\ completed w' = completed w
    /\ next_loc w' = next_loc w /\ counter w' = counter w
    /\ exists tear, trace w' = trace w ++ release_notification X v ++ tear ++ [EvFree s]
                    /\ Forall (fun e => is_resource_release e = true) tear).
Proof.
  intros Hv Hz. unfold obc_session_unref.
  apply returns_bind. eapply returns_load; [exact Hv |].
  apply returns_bind. eapply returns_store; [exact Hv |].
  rewrite Hz. simpl.
  apply returns_bind.
  pose (w1 := with_heap (<[s := set_refcount 0 v]> (heap w)) w).
  destruct (release_send X v w1) as (w2 & Hsend & Hh & Hf & Ht).
  eapply returns_eq; [exact Hsend |].
  eapply returns_mono.
  - apply (session_free_returns s (set_refcount 0 v) w2).
    rewrite Hh. apply lookup_insert_eq.
  - intros [] w' (H1 & H2 & H3 & H4 & H5 & H6 & tear & H7 & H8).
    destruct Hf as (F1 & F2 & F3 & F4 & F5).
    rewrite H1, H2, H3, H4, H5, H6, Hh, F1, F2, F3, F4, F5. simpl.
    split; [apply delete_insert_eq |].
    repeat (split; [reflexivity |]).
    exists tear. split; [| exact H8].
    rewrite H7, Ht. simpl. symmetry. apply app_assoc.
Qed.

(** A release that reaches zero makes exactly the calls that are due:
    the notification, the releases for what the session owned, the
    return of the object. *)
Lemma unref_frees_trace X s v w :
  heap w !! s = Some v ->
  wrap_gint (refcount v - 1) = 0 ->
  returns (obc_session_unref X s) w (fun _ w' =>
    trace w' = trace w ++ release_notification X v
                 ++ owned_releases (completed w) s v ++ [EvFree s]).
Proof.
  intros Hv Hz. unfold obc_session_unref.
  apply returns_bind. eapply returns_load; [exact Hv |].
  apply returns_bind. eapply returns_store; [exact Hv |].
  rewrite Hz. simpl.
  apply returns_bind.
  pose (w1 := with_heap (<[s := set_refcount 0 v]> (heap w)) w).
  destruct (release_send X v w1) as (w2 & Hsend & Hh & Hf & Ht).
  eapply returns_eq; [exact Hsend |].
  eapply returns_mono.
  - apply (session_free_trace s (set_refcount 0 v) w2).
    rewrite Hh. apply lookup_insert_eq.
  - intros [] w' H. destruct Hf as (_ & _ & F3 & _).
    rewrite H, Ht, F3. simpl. rewrite <- app_assoc. reflexivity.
Qed.

Lemma owned_releases_release done s v :
  Forall (fun e => is_resource_release e = true) (owned_releases done s v).
Proof.
  unfold owned_releases.
  repeat (apply Forall_app; split).
  - apply Forall_flat_map, Forall_forall. intros req _.
    unfold finalize_events.
    destruct (existsb (Nat.eqb (req_call req)) done); repeat constructor.
  - destruct (agent v); repeat constructor.
  - destruct (watch v =? 0); repeat constructor.
  - destruct (obex v); repeat constructor.
  - destruct (io v); repeat constructor.
  - destruct (path v); [| constructor].
    destruct (match driver v with Some d => remove d | None => false end);
      repeat constructor.
  - destruct (conn v); repeat constructor.
  - destruct (conn_system v); repeat constructor.
Qed.

Lemma ref_returns s v w :
  heap w !! s = Some v ->
  obc_session_ref s w =
    Some (s, with_heap (<[s := set_refcount (wrap_gint (refcount v + 1)) v]> (heap w)) w).
Proof.
  intros Hv. unfold obc_session_ref, update, bind, load, store. rewrite Hv. simpl.
  rewrite Hv. reflexivity.
Qed.

Lemma teardown_of_release e : is_resource_release e = true -> is_teardown e = true.
Proof. destruct e; simpl; congruence. Qed.

(** Whatever the count, a release of a live session returns; it adds
    none but teardown events, never adds to the registry, and leaves
    every other session alone. *)
Lemma unref_returns X s v w :
  heap w !! s = Some v ->
  returns (obc_session_unref X s) w (fun _ w' =>
    (forall l, l <> s -> heap w' !! l = heap w !! l)
    /\ (heap w' !! s = None
        \/ heap w' !! s = Some (set_refcount (wrap_gint (refcount v - 1)) v))
    /\ sessions w' `sublist_of` sessions w
    /\ transfers w' = transfers w /\ completed w' = completed w
    /\ next_loc w' = next_loc w /\ counter w' = counter w
    /\ exists evs, trace w' = trace w ++ evs
                   /\ Forall (fun e => is_teardown e = true) evs).
Proof.
  intros Hv. destruct (Z.eq_dec (wrap_gint (refcount v - 1)) 0) as [Hz | Hnz].
  - eapply returns_mono; [apply (unref_frees X s v w Hv Hz) |].
    intros [] w' (H1 & H2 & H3 & H4 & H5 & H6 & tear & H7 & H8).
    rewrite H1, H2. split; [| split; [| split]].
    + intros l Hne. apply lookup_delete_ne. congruence.
    + left. apply lookup_delete_eq.
    + clear. induction (sessions w) as [| x r IH]; simpl; [constructor |].
      destruct (Pos.eqb x s); [apply sublist_cons, reflexivity | apply sublist_skip, IH].
    + repeat (split; [assumption |]).
      exists (release_notification X v ++ tear ++ [EvFree s]).
      split; [exact H7 |].
      apply Forall_app. split.
      * unfold release_notification.
        destruct (x_message_new X "ReleaseSession" && x_append_args X "ReleaseSession");
          repeat constructor.
      * apply Forall_app. split; [| repeat constructor].
        eapply Forall_impl; [exact H8 |]. apply teardown_of_release.
  - unfold returns. rewrite (unref_keeps X s v w Hv Hnz). simpl.
    split; [intros l Hne; apply lookup_insert_ne; congruence |].
    split; [right; apply lookup_insert_eq |].
    split; [reflexivity |]. repeat (split; [reflexivity |]).
    exists []. split; [symmetry; apply app_nil_r | constructor].
Qed.

Lemma new_events_app w w' evs :
  trace w' = trace w ++ evs -> new_events w w' = evs.
Proof. unfold new_events. intros ->. apply drop_app_length. Qed.

Lemma count_free_app s l1 l2 :
  count_free s (l1 ++ l2) = (count_free s l1 + count_free s l2)%nat.
Proof. unfold count_free. rewrite filter_app. apply length_app. Qed.

Lemma count_free_release s l :
  Forall (fun e => is_resource_release e = true) l -> count_free s l = 0%nat.
Proof.
  unfold count_free. induction 1 as [| e l He _ IH]; [reflexivity |].
  rewrite filter_cons. destruct (decide (is_free_of s e = true)) as [Hf | _].
  - destruct e; simpl in *; congruence.
  - exact IH.
Qed.

Lemma count_free_notification X s v : count_free s (release_notification X v) = 0%nat.
Proof.
  unfold release_notification.
  destruct (x_message_new X "ReleaseSession" && x_append_args X "ReleaseSession");
    reflexivity.
Qed.

Lemma count_free_one s : count_free s [EvFree s] = 1%nat.
Proof.
  unfold count_free. rewrite filter_cons. simpl.
  rewrite Pos.eqb_refl. reflexivity.
Qed.

(** One call of a sequence on a live session: it returns, and either
    it was the release to zero, which freed the session once, or the
    session is still live and nothing was emitted. *)
Lemma run_op_live X s o v w :
  heap w !! s = Some v ->
  exists w1 evs,
    run_op X s o w = Some (tt, w1) /\ trace w1 = trace w ++ evs
    /\ ((heap w1 !! s = None /\ count_free s evs = 1%nat)
        \/ (is_Some (heap w1 !! s) /\ evs = [])).
Proof.
  intros Hv. destruct o; simpl.
  - unfold bind. rewrite (ref_returns s v w Hv). simpl.
    eexists _, []. split; [reflexivity |]. split; [symmetry; apply app_nil_r |].
    right. simpl. rewrite lookup_insert_eq. eauto.
  - destruct (Z.eq_dec (wrap_gint (refcount v - 1)) 0) as [Hz | Hnz].
    + destruct (returns_inv _ _ _ (unref_frees X s v w Hv Hz))
        as ([] & w1 & Hrun & Hh & _ & _ & _ & _ & _ & tear & Ht & Hall).
      exists w1, (release_notification X v ++ tear ++ [EvFree s]).
      split; [exact Hrun |]. split; [exact Ht |]. left.
      split; [rewrite Hh; apply lookup_delete_eq |].
      rewrite !count_free_app, count_free_notification,
        (count_free_release s tear Hall), count_free_one. reflexivity.
    + rewrite (unref_keeps X s v w Hv Hnz).
      eexists _, []. split; [reflexivity |]. split; [symmetry; apply app_nil_r |].
      right. simpl. rewrite lookup_insert_eq. eauto.
Qed.

(** Once the session is freed, no further call on it has a meaning. *)
Lemma run_ops_after_free X s o ops w :
  heap w !! s = None -> run_ops X s (o :: ops) w = None.
Proof.
  intros Hn. unfold run_ops. simpl. unfold bind.
  destruct o; simpl.
  - unfold obc_session_ref, update, bind, load. rewrite Hn. reflexivity.
  - unfold obc_session_unref, bind, load. rewrite Hn. reflexivity.
Qed.

Lemma run_ops_cons X s o ops w w1 :
  run_op X s o w = Some (tt, w1) ->
  run_ops X s (o :: ops) w = run_ops X s ops w1.
Proof. intros H. unfold run_ops. simpl. unfold bind. rewrite H. reflexivity. Qed.

(** Along a sequence of calls on a live session the object is handed
    back at most once: not at all while the session stays live, once
    when it is gone; a sequence that goes on after the free stops
    there. *)
Lemma run_ops_live X s ops : forall w v,
  heap w !! s = Some v ->
  match run_ops X s ops w with
  | Some (_, w') =>
      exists evs, trace w' = trace w ++ evs
                  /\ count_free s evs = match heap w' !! s with
                                        | Some _ => 0%nat
                                        | None => 1%nat
                                        end
  | None =>
      exists pre post w' evs,
        ops = pre ++ post /\ post <> []
        /\ run_ops X s pre w = Some (tt, w') /\ heap w' !! s = None
        /\ trace w' = trace w ++ evs /\ count_free s evs = 1%nat
  end.
Proof.
  induction ops as [| o ops IH]; intros w v Hv.
  - simpl. exists []. rewrite Hv. split; [symmetry; apply app_nil_r | reflexivity].
  - destruct (run_op_live X s o v w Hv) as (w1 & evs & Hrun & Ht & Hcase).
    rewrite (run_ops_cons X s o ops w w1 Hrun).
    destruct Hcase as [[Hgone Hcount] | [[v1 Hv1] ->]].
    + destruct ops as [| o' ops].
      * simpl. exists evs. rewrite Hgone. split; [exact Ht | exact Hcount].
      * rewrite (run_ops_after_free X s o' ops w1 Hgone).
        exists [o], (o' :: ops), w1, evs.
        split; [reflexivity |]. split; [discriminate |].
        split; [rewrite (run_ops_cons X s o [] w w1 Hrun); reflexivity |].
        split; [exact Hgone |]. split; [exact Ht | exact Hcount].
    + rewrite app_nil_r in Ht. specialize (IH w1 v1 Hv1).
      destruct (run_ops X s ops w1) as [[[] w'] |].
      * destruct IH as (evs & Ht' & Hc). exists evs.
        split; [rewrite Ht', Ht; reflexivity | exact Hc].
      * destruct IH as (pre & post & w' & evs & -> & Hpost & Hpre & Hgone & Ht' & Hc).
        exists (o :: pre), post, w', evs.
        split; [reflexivity |]. split; [exact Hpost |].
        split; [rewrite (run_ops_cons X s o pre w w1 Hrun); exact Hpre |].
        split; [exact Hgone |]. split; [rewrite Ht', Ht; reflexivity | exact Hc].
Qed.

(** C3: a release of a live session always returns, and it frees the
    session exactly when it brings the count to zero.  In that case the
    notification to the adapter comes first, then the releases due for
    what the session owned, each of them and nothing else, and last the
    object itself, which is gone from the heap and from the registry;
    in the other case nothing but the count changes.  An acquire never
    frees; and along every sequence of acquire and release calls the
    session is freed at most once, exactly once when the count reached
    zero. *)
Theorem session_freed_exactly_once X s :
  (forall w v, heap w !! s = Some v ->
     returns (obc_session_unref X s) w (fun _ w' =>
       if wrap_gint (refcount v - 1) =? 0
       then heap w' = delete s (heap w)
            /\ sessions w' = g_slist_remove Pos.eqb (sessions w) s
            /\ new_events w w' =
                 release_notification X v
                   ++ owned_releases (completed w) s v ++ [EvFree s]
            /\ Forall (fun e => is_resource_release e = true)
                      (owned_releases (completed w) s v)
       else heap w' = <[s := set_refcount (wrap_gint (refcount v - 1)) v]> (heap w)
            /\ sessions w' = sessions w
            /\ new_events w w' = []))
  /\ (forall w v, heap w !! s = Some v ->
        returns (obc_session_ref s) w (fun r w' =>
          r = s
          /\ heap w' !! s = Some (set_refcount (wrap_gint (refcount v + 1)) v)
          /\ new_events w w' = []))
  /\ (forall ops w v, heap w !! s = Some v ->
        match run_ops X s ops w with
        | Some (_, w') =>
            count_free s (new_events w w') = match heap w' !! s with
                                             | Some _ => 0%nat
                                             | None => 1%nat
                                             end
        | None =>
            exists pre post w',
              ops = pre ++ post /\ post <> []
              /\ run_ops X s pre w = Some (tt, w') /\ heap w' !! s = None
              /\ count_free s (new_events w w') = 1%nat
        end).
Proof.
  split; [| split].
  - intros w v Hv. destruct (Z.eqb_spec (wrap_gint (refcount v - 1)) 0) as [Hz | Hnz].
    + destruct (returns_inv _ _ _ (unref_frees X s v w Hv Hz))
        as ([] & w' & Hrun & Hh & Hs & _).
      pose proof (unref_frees_trace X s v w Hv Hz) as Ht.
      unfold returns in Ht |- *. rewrite Hrun in Ht |- *.
      split; [exact Hh |]. split; [exact Hs |].
      split; [apply new_events_app, Ht | apply owned_releases_release].
    + unfold returns. rewrite (unref_keeps X s v w Hv Hnz).
      split; [reflexivity |]. split; [reflexivity |].
      apply new_events_app. symmetry. apply app_nil_r.
  - intros w v Hv. unfold returns. rewrite (ref_returns s v w Hv).
    split; [reflexivity |]. split; [apply lookup_insert_eq |].
    apply new_events_app. symmetry. apply app_nil_r.
  - intros ops w v Hv. pose proof (run_ops_live X s ops w v Hv) as H.
    destruct (run_ops X s ops w) as [[[] w'] |].
    + destruct H as (evs & Ht & Hc). rewrite (new_events_app w w' evs Ht). exact Hc.
    + destruct H as (pre & post & w' & evs & Hops & Hpost & Hpre & Hgone & Ht & Hc).
      exists pre, post, w'. rewrite (new_events_app w w' evs Ht). auto.
Qed.

Lemma session_freed_exactly_once_witness :
  returns (obc_session_unref Scenario.x_ok 1%positive) Scenario.w_ready (fun _ w' =>
    heap w' = delete 1%positive (heap Scenario.w_ready)
    /\ sessions w' = g_slist_remove Pos.eqb (sessions Scenario.w_ready) 1%positive
    /\ new_events Scenario.w_ready w' =
         release_notification Scenario.x_ok Scenario.ready_session
           ++ owned_releases (completed Scenario.w_ready) 1%positive
                Scenario.ready_session
           ++ [EvFree 1%positive]
    /\ Forall (fun e => is_resource_release e = true)
              (owned_releases (completed Scenario.w_ready) 1%positive
                 Scenario.ready_session)).
Proof.
  exact (proj1 (session_freed_exactly_once Scenario.x_ok 1%positive)
           Scenario.w_ready Scenario.ready_session eq_refl).
Defined.

(** *** Requests on a session *)

(** C10: on a session without an OBEX connection, get, send, pull and
    put each return -ENOTCONN at once and leave the whole state,
    pending queue included, as it was. *)
Theorem not_connected_requests_fail X session w v :
  heap w !! session = Some v ->
  obex v = None ->
  (forall type filename targetname apparam func user_data,
     obc_session_get X session type filename targetname apparam func user_data w
       = Some (- ENOTCONN, w))
  /\ (forall filename targetname,
        obc_session_send X session filename targetname w = Some (- ENOTCONN, w))
  /\ (forall type filename function user_data,
        obc_session_pull X session type filename function user_data w
          = Some (- ENOTCONN, w))
  /\ (forall buf type filename targetname apparam func user_data,
        obc_session_put X session buf type filename targetname apparam func user_data w
          = Some (- ENOTCONN, w)).
Proof.
  intros Hv Hobex. repeat split; intros.
  - unfold obc_session_get, bind, load. rewrite Hv, Hobex. reflexivity.
  - unfold obc_session_send, bind, load. rewrite Hv, Hobex. reflexivity.
  - unfold obc_session_pull, bind, load. rewrite Hv, Hobex. reflexivity.
  - unfold obc_session_put, bind, load. rewrite Hv, Hobex. reflexivity.
Qed.

Lemma not_connected_requests_fail_witness :
  obc_session_send Scenario.x_ok 1%positive (Some "/tmp/a.vcf") (Some "a.vcf")
    Scenario.w_unconnected = Some (- ENOTCONN, Scenario.w_unconnected).
Proof.
  exact (proj1 (proj2 (not_connected_requests_fail Scenario.x_ok 1%positive
                         Scenario.w_unconnected Scenario.unconnected_session
                         eq_refl eq_refl))
           (Some "/tmp/a.vcf") (Some "a.vcf")).
Defined.

Import Reach.

(** *** The pending queue *)

Create HintDb queues.

Lemma kq_ret {A} (a : A) : keeps_queues (ret a).
Proof. intros w Hw. exact Hw. Qed.

Lemma kq_fault {A} : keeps_queues (@fault A).
Proof. intros w Hw. exact I. Qed.

Lemma kq_bind {A B} (m : M A) (f : A -> M B) :
  keeps_queues m -> (forall a, keeps_queues (f a)) -> keeps_queues (bind m f).
Proof.
  intros Hm Hf w Hw. apply whenever_bind.
  eapply whenever_mono; [apply Hm, Hw |].
  intros a w1 H1. apply Hf, H1.
Qed.

Lemma kq_emit e : keeps_queues (emit e).
Proof. intros w Hw. exact Hw. Qed.

Lemma kq_load s : keeps_queues (load s).
Proof. intros w Hw. apply whenever_load. intros _ _. exact Hw. Qed.

Lemma kq_load_transfer t : keeps_queues (load_transfer t).
Proof.
  intros w Hw. unfold whenever, load_transfer.
  destruct (transfers w !! t); [exact Hw | exact I].
Qed.

Lemma kq_when b m : keeps_queues m -> keeps_queues (when b m).
Proof. destruct b; [tauto | intros _; apply kq_ret]. Qed.

Lemma kq_forM {A} (l : list A) (f : A -> M unit) :
  (forall x, keeps_queues (f x)) -> keeps_queues (forM l f).
Proof.
  intros Hf. induction l as [| x l IH]; simpl.
  - apply kq_ret.
  - apply kq_bind; [apply Hf | intros _; exact IH].
Qed.

(** A store into a session keeps the queues connected when it keeps
    the queue of that session connected. *)
Lemma kq_update s f :
  (forall v, queue_connected v -> queue_connected (f v)) ->
  keeps_queues (update s f).
Proof.
  intros Hf w Hw. apply whenever_update. intros v Hv s' v'. simpl.
  destruct (decide (s' = s)) as [-> | Hne].
  - rewrite lookup_insert_eq. intros [= <-]. apply Hf, (Hw s v Hv).
  - rewrite lookup_insert_ne by congruence. apply Hw.
Qed.

Lemma queue_connected_remove v t :
  queue_connected v ->
  queue_connected (set_pending (g_slist_remove Pos.eqb (pending v) t) v).
Proof.
  unfold queue_connected. simpl. intros H Hne. apply H.
  intros E. rewrite E in Hne. apply Hne. reflexivity.
Qed.

Lemma queue_connected_obex v o : queue_connected (set_obex (Some o) v).
Proof. intros _. discriminate. Qed.

Lemma kq_delete s :
  keeps_queues (fun w => Some (tt, with_heap (delete s (heap w)) w)).
Proof.
  intros w Hw l v. simpl. intros H.
  apply lookup_delete_Some in H. apply (Hw l v), H.
Qed.

Lemma kq_alloc_session : keeps_queues alloc_session.
Proof.
  intros w Hw l v. simpl.
  destruct (decide (l = next_loc w)) as [-> | Hne].
  - rewrite lookup_insert_eq. intros [= <-] H. contradiction.
  - rewrite lookup_insert_ne by congruence. apply Hw.
Qed.

#[local] Hint Resolve kq_ret kq_fault kq_emit kq_load kq_load_transfer kq_delete
  kq_alloc_session : queues.

(** Takes a computation apart along its binds and case distinctions;
    a step that leaves the heap as it is needs no more. *)
Ltac queues_step :=
  match goal with
  | |- keeps_queues (bind _ _) => apply kq_bind; [| intros ?]
  | |- keeps_queues (when _ _) => apply kq_when
  | |- keeps_queues (forM _ _) => apply kq_forM; intros ?
  | |- keeps_queues (update _ _) =>
      apply kq_update;
      solve [ intros ? H; exact H
            | intros ?; apply queue_connected_remove
            | intros ? _; apply queue_connected_obex ]
  | |- keeps_queues (match ?x with _ => _ end) => destruct x
  | |- keeps_queues _ => solve [auto with queues | intros ? H; exact H]
  end.

Ltac queues := cbv zeta; repeat queues_step.

Lemma kq_pending_req_finalize req : keeps_queues (pending_req_finalize req).
Proof.
  intros w. unfold pending_req_finalize.
  assert (H : keeps_queues
                (let* _ := when (negb (existsb (Nat.eqb (req_call req)) (completed w)))
                                (emit (EvPendingCallCancel (req_call req))) in
                 emit (EvPendingCallUnref (req_call req)))) by queues.
  apply H.
Qed.

Lemma kq_session_unregistered s : keeps_queues (session_unregistered s).
Proof. unfold session_unregistered. queues. Qed.

#[local] Hint Resolve kq_pending_req_finalize kq_session_unregistered : queues.

Lemma kq_session_free s : keeps_queues (session_free s).
Proof. unfold session_free. queues. Qed.

Lemma kq_send_method_call X c d p i m cb ud :
  keeps_queues (send_method_call X c d p i m cb ud).
Proof. unfold send_method_call. queues. Qed.

(** A release changes the count of the session or frees it. *)
Lemma kq_unref X s : keeps_queues (obc_session_unref X s).
Proof.
  intros w Hw. unfold whenever.
  destruct (heap w !! s) as [v |] eqn:Hv.
  - pose proof (unref_returns X s v w Hv) as H. unfold returns in H.
    destruct (obc_session_unref X s w) as [[[] w'] |]; [| exact I].
    destruct H as (Hother & Hs & _). intros l vl Hl.
    destruct (decide (l = s)) as [-> | Hne].
    + destruct Hs as [Hs | Hs]; rewrite Hs in Hl; [discriminate |].
      injection Hl as <-. exact (Hw s v Hv).
    + rewrite (Hother l Hne) in Hl. exact (Hw l vl Hl).
  - unfold obc_session_unref, bind, load. rewrite Hv. exact I.
Qed.

Lemma kq_ref s : keeps_queues (obc_session_ref s).
Proof. unfold obc_session_ref. queues. Qed.

#[local] Hint Resolve kq_session_free kq_send_method_call kq_unref kq_ref : queues.

Lemma kq_connect_cb X err rsp_code cb : keeps_queues (connect_cb X err rsp_code cb).
Proof. unfold connect_cb. queues. Qed.

Lemma kq_rfcomm_callback X err cb : keeps_queues (rfcomm_callback X err cb).
Proof. unfold rfcomm_callback, rfcomm_callback_done. queues. Qed.

Lemma kq_rfcomm_connect X s d ch cb : keeps_queues (rfcomm_connect X s d ch cb).
Proof. unfold rfcomm_connect. queues. Qed.

#[local] Hint Resolve kq_rfcomm_connect : queues.

Lemma kq_discovery_failed X cb : keeps_queues (discovery_failed X cb).
Proof. unfold discovery_failed. queues. Qed.

#[local] Hint Resolve kq_discovery_failed : queues.

Lemma kq_service_callback X i cond cb : keeps_queues (service_callback X i cond cb).
Proof. unfold service_callback. queues. Qed.

Lemma kq_process_callback X cond cb : keeps_queues (process_callback X cond cb).
Proof. unfold process_callback. queues. Qed.

Lemma kq_search_callback X (R L : Type) seq pdu protos port type status rsp size cb :
  keeps_queues (search_callback X R L seq pdu protos port type status rsp size cb).
Proof. unfold search_callback. queues. Qed.

Lemma kq_service_connect X s d cb : keeps_queues (service_connect X s d cb).
Proof. unfold service_connect. queues. Qed.

#[local] Hint Resolve kq_service_connect : queues.

Lemma kq_connection_complete X cb : keeps_queues (connection_complete X cb).
Proof. unfold connection_complete. queues. Qed.

Lemma kq_session_connect X s cb : keeps_queues (session_connect X s cb).
Proof. unfold session_connect. queues. Qed.

Lemma kq_reply_prologue s call : keeps_queues (reply_prologue s call).
Proof. unfold reply_prologue, find_session_request. queues. Qed.

#[local] Hint Resolve kq_session_connect kq_reply_prologue : queues.

Lemma kq_adapter_reply X call reply cb : keeps_queues (adapter_reply X call reply cb).
Proof. unfold adapter_reply. queues. Qed.

Lemma kq_manager_reply X call reply cb : keeps_queues (manager_reply X call reply cb).
Proof. unfold manager_reply. queues. Qed.

Lemma kq_set_owner X s name : keeps_queues (obc_session_set_owner X s name).
Proof. unfold obc_session_set_owner. queues. Qed.

#[local] Hint Resolve kq_set_owner : queues.

Lemma kq_create_proceed X s source owner_name f d :
  keeps_queues (obc_session_create_proceed X s source owner_name f d).
Proof. unfold obc_session_create_proceed. queues. Qed.

Lemma kq_session_find str2ba source destination service_name ch owner_name :
  keeps_queues (session_find str2ba source destination service_name ch owner_name).
Proof.
  intros w Hw. unfold whenever, session_find.
  destruct (session_find_in _ _ _ _ _ _ _ _); [exact Hw | exact I].
Qed.

#[local] Hint Resolve kq_create_proceed kq_session_find : queues.

Lemma kq_create X str2ba find_driver source destination service_name ch owner_name f d :
  keeps_queues (obc_session_create X str2ba find_driver source destination
                  service_name ch owner_name f d).
Proof. unfold obc_session_create. queues. Qed.

Lemma kq_remove_transfer s t : keeps_queues (obc_session_remove_transfer s t).
Proof. unfold obc_session_remove_transfer. queues. Qed.

#[local] Hint Resolve kq_remove_transfer : queues.

Lemma kq_transfer_unregister t : keeps_queues (obc_transfer_unregister t).
Proof. unfold obc_transfer_unregister. queues. Qed.

#[local] Hint Resolve kq_transfer_unregister : queues.

Lemma kq_shutdown X s : keeps_queues (obc_session_shutdown X s).
Proof. unfold obc_session_shutdown. queues. Qed.

Lemma kq_session_request X s cb t : keeps_queues (session_request X s cb t).
Proof. unfold session_request. queues. Qed.

#[local] Hint Resolve kq_session_request : queues.

Lemma kq_terminate_transfer X s t gerr :
  keeps_queues (session_terminate_transfer X s t gerr).
Proof. unfold session_terminate_transfer. queues. Qed.

#[local] Hint Resolve kq_terminate_transfer : queues.

Lemma kq_notify_complete X s t : keeps_queues (session_notify_complete X s t).
Proof. unfold session_notify_complete. queues. Qed.

Lemma kq_notify_error X s t err : keeps_queues (session_notify_error X s t err).
Proof. unfold session_notify_error. queues. Qed.

#[local] Hint Resolve kq_notify_complete kq_notify_error : queues.

Lemma kq_notify_progress X s t transferred :
  keeps_queues (session_notify_progress X s t transferred).
Proof. unfold session_notify_progress. queues. Qed.

#[local] Hint Resolve kq_notify_progress : queues.

Lemma kq_transfer_progress X t transferred err s :
  keeps_queues (transfer_progress X t transferred err s).
Proof. unfold transfer_progress. queues. Qed.

Lemma kq_run_prepare X strerror cb s t : keeps_queues (run_prepare X strerror cb s t).
Proof. unfold run_prepare, session_prepare_get, session_prepare_put. queues. Qed.

#[local] Hint Resolve kq_run_prepare : queues.

Lemma kq_request_proceed X strerror p :
  keeps_queues (session_request_proceed X strerror p).
Proof. unfold session_request_proceed. queues. Qed.

Lemma kq_request_reply X strerror reply p :
  keeps_queues (session_request_reply X strerror reply p).
Proof. unfold session_request_reply. queues. Qed.

Lemma kq_install_callback s func user_data :
  keeps_queues (install_callback s func user_data).
Proof. unfold install_callback. queues. Qed.

Lemma kq_register X s : keeps_queues (obc_session_register X s).
Proof. unfold obc_session_register. queues. Qed.

Lemma kq_agent_destroy s : keeps_queues (agent_destroy s).
Proof. unfold agent_destroy. queues. Qed.

Lemma kq_set_agent X s name apath : keeps_queues (obc_session_set_agent X s name apath).
Proof. unfold obc_session_set_agent. queues. Qed.

(** A transfer is put on the queue of a connected session only: the
    registration keeps the queues connected when the session it is made
    for has its OBEX connection. *)
Lemma kq_transfer_register X filename name type session w :
  queues_connected w ->
  (forall v, heap w !! session = Some v -> obex v <> None) ->
  whenever (obc_transfer_register X filename name type session) w
    (fun _ w' => queues_connected w').
Proof.
  intros Hw Hc. unfold obc_transfer_register.
  destruct (x_transfer_register X) as [[tpath size] |]; [| exact Hw].
  apply whenever_bind. unfold whenever at 1.
  apply whenever_bind, whenever_emit.
  apply whenever_bind. unfold obc_session_add_transfer.
  apply whenever_update. intros v Hv. simpl in Hv.
  apply whenever_ret. intros l vl. simpl.
  destruct (decide (l = session)) as [-> | Hne].
  - rewrite lookup_insert_eq. intros [= <-] _. simpl. apply (Hc v Hv).
  - rewrite lookup_insert_ne by congruence. apply Hw.
Qed.

(** Get, send, pull and put register their transfer after they have
    found the OBEX connection. *)
Lemma kq_get X session type filename targetname apparam func user_data :
  keeps_queues (obc_session_get X session type filename targetname apparam
                  func user_data).
Proof.
  intros w Hw. unfold obc_session_get.
  apply whenever_bind, whenever_load. intros v Hv.
  destruct (obex v) as [o |] eqn:Ho; [| exact Hw].
  apply whenever_bind.
  eapply whenever_mono;
    [apply (kq_transfer_register X _ _ _ session w Hw); intros v' Hv'; congruence |].
  intros tr w1 Hw1. refine ((_ : keeps_queues _) w1 Hw1).
  pose proof kq_install_callback. queues.
Qed.

Lemma kq_send X session filename targetname :
  keeps_queues (obc_session_send X session filename targetname).
Proof.
  intros w Hw. unfold obc_session_send.
  apply whenever_bind, whenever_load. intros v Hv.
  destruct (obex v) as [o |] eqn:Ho; [| exact Hw].
  apply whenever_bind.
  eapply whenever_mono;
    [apply (kq_transfer_register X _ _ _ session w Hw); intros v' Hv'; congruence |].
  intros tr w1 Hw1. refine ((_ : keeps_queues _) w1 Hw1).
  queues.
Qed.

Lemma kq_pull X session type filename function user_data :
  keeps_queues (obc_session_pull X session type filename function user_data).
Proof.
  intros w Hw. unfold obc_session_pull.
  apply whenever_bind, whenever_load. intros v Hv.
  destruct (obex v) as [o |] eqn:Ho; [| exact Hw].
  apply whenever_bind.
  eapply whenever_mono;
    [apply (kq_transfer_register X _ _ _ session w Hw); intros v' Hv'; congruence |].
  intros tr w1 Hw1. refine ((_ : keeps_queues _) w1 Hw1).
  pose proof kq_install_callback. queues.
Qed.

Lemma kq_put X session buf type filename targetname apparam func user_data :
  keeps_queues (obc_session_put X session buf type filename targetname apparam
                  func user_data).
Proof.
  intros w Hw. unfold obc_session_put.
  apply whenever_bind, whenever_load. intros v Hv.
  destruct (obex v) as [o |] eqn:Ho; [| exact Hw].
  destruct (pending v) as [| t q]; [| exact Hw].
  apply whenever_bind.
  assert (Hreg : forall w1,
             queues_connected w1 ->
             (forall v1, heap w1 !! session = Some v1 -> obex v1 <> None) ->
             whenever
               (let* transfer := obc_transfer_register X filename targetname type
                                   session in
                match transfer with
                | Some transfer =>
                    let* _ := match buf with
                              | Some _ => emit (EvTransferSetBuffer transfer)
                              | None => ret ()
                              end in
                    let* err := session_request X session session_prepare_put_fn
                                  transfer in
                    if err <? 0 then ret err else ret 0
                | None => ret (- EIO)
                end) w1 (fun _ w' => queues_connected w')).
  { intros w1 Hw1 Hc1. apply whenever_bind.
    eapply whenever_mono; [apply (kq_transfer_register X _ _ _ session w1 Hw1 Hc1) |].
    intros tr w2 Hw2. refine ((_ : keeps_queues _) w2 Hw2). queues. }
  unfold install_callback. destruct func as [fn |].
  - apply whenever_update. intros v0 Hv0.
    assert (v0 = v) as -> by congruence.
    apply Hreg.
    + intros l vl. simpl. destruct (decide (l = session)) as [-> | Hne].
      * rewrite lookup_insert_eq. intros [= <-]. exact (Hw session v Hv).
      * rewrite lookup_insert_ne by congruence. apply Hw.
    + intros v1. simpl. rewrite lookup_insert_eq. intros [= <-]. simpl. congruence.
  - apply whenever_ret. apply Hreg; [exact Hw | intros v1 Hv1; congruence].
Qed.

#[local] Hint Resolve kq_connect_cb kq_rfcomm_callback kq_service_callback
  kq_process_callback kq_search_callback kq_connection_complete kq_adapter_reply
  kq_manager_reply kq_create kq_shutdown kq_transfer_progress kq_request_proceed
  kq_request_reply kq_register kq_agent_destroy kq_set_agent kq_get kq_send
  kq_pull kq_put : queues.

Section Reached.

Variables R L : Type.
Variable seq : list Z -> Z -> Z -> Z * Z.
Variable pdu : list Z -> Z -> Z -> option (R * Z).
Variable protos : R -> option L.
Variable port : L -> Z -> Z.
Variable str2ba : string -> bdaddr_t.
Variable find_driver : option string -> option obc_driver.
Variable strerror : Z -> string.

(** Every call into the session core keeps the queues connected. *)
Lemma kq_enter X e :
  keeps_queues (enter R L seq pdu protos port str2ba find_driver strerror X e).
Proof. destruct e; unfold enter, done; queues. Qed.

Lemma reachable_enter_all l : forall w w',
  reachable R L seq pdu protos port str2ba find_driver strerror w ->
  enter_all R L seq pdu protos port str2ba find_driver strerror l w = Some (tt, w') ->
  reachable R L seq pdu protos port str2ba find_driver strerror w'.
Proof.
  induction l as [| [X e] l IH]; intros w w' Hw; simpl.
  - intros [= <-]. exact Hw.
  - unfold bind.
    destruct (enter R L seq pdu protos port str2ba find_driver strerror X e w)
      as [[[] w1] |] eqn:Hrun; [| discriminate].
    apply IH. exact (reach_enter _ _ _ _ _ _ _ _ _ X e w w1 Hw Hrun).
Qed.

(** In every state the process reaches, a session with transfers in
    its queue has its OBEX connection. *)
Lemma reachable_queues w :
  reachable R L seq pdu protos port str2ba find_driver strerror w ->
  queues_connected w.
Proof.
  induction 1 as [| X e w w' _ IH Hrun].
  - intros s v H. exact (False_ind _ (lookup_empty_Some (M := gmap loc) s v H)).
  - pose proof (kq_enter X e w IH) as H. unfold whenever in H.
    rewrite Hrun in H. exact H.
Qed.

(** C4: in every state that the process reaches, a session with a
    non-empty pending queue has its OBEX connection, and a put on it
    returns -EISCONN at once and leaves the whole state as it was: the
    pending queue, the agent and the rest of the session, with no
    transfer registered.  The states reached are those that the calls
    into the session core lead to from the start of the process; the
    answer is the same in any state, reached or not, in which the
    session has the connection and a non-empty queue. *)
Theorem put_while_pending_fails :
  (forall X session w v,
     heap w !! session = Some v ->
     obex v <> None ->
     pending v <> [] ->
     forall buf type filename targetname apparam func user_data,
       obc_session_put X session buf type filename targetname apparam func user_data w
         = Some (- EISCONN, w))
  /\ (forall w session v,
        reachable R L seq pdu protos port str2ba find_driver strerror w ->
        heap w !! session = Some v ->
        pending v <> [] ->
        obex v <> None)
  /\ (forall w X session v,
        reachable R L seq pdu protos port str2ba find_driver strerror w ->
        heap w !! session = Some v ->
        pending v <> [] ->
        forall buf type filename targetname apparam func user_data,
          obc_session_put X session buf type filename targetname apparam func
            user_data w
            = Some (- EISCONN, w)).
Proof.
  assert (Hput : forall X session w v,
             heap w !! session = Some v ->
             obex v <> None ->
             pending v <> [] ->
             forall buf type filename targetname apparam func user_data,
               obc_session_put X session buf type filename targetname apparam func
                 user_data w
                 = Some (- EISCONN, w)).
  { intros X session w v Hv Hobex Hpending. intros.
    unfold obc_session_put, bind, load. rewrite Hv.
    destruct (obex v); [| contradiction].
    destruct (pending v); [contradiction |]. reflexivity. }
  split; [exact Hput |]. split.
  - intros w session v Hreach Hv. exact (reachable_queues w Hreach session v Hv).
  - intros w X session v Hreach Hv Hpending. intros.
    apply (Hput X session w v Hv); [| exact Hpending].
    exact (reachable_queues w Hreach session v Hv Hpending).
Qed.

End Reached.

Lemma put_while_pending_fails_witness :
  exists w v,
    reachable unit unit Scenario.seq_header Scenario.four_byte_record
      Scenario.no_protos Scenario.no_port Scenario.str2ba Scenario.find_driver
      Scenario.strerror w
    /\ heap w !! 1%positive = Some v
    /\ pending v <> []
    /\ obc_session_put Scenario.x_ok 1%positive None (Some "x-bt/message")
         (Some "/tmp/msg") (Some "msg") None None 0%nat w
       = Some (- EISCONN, w).
Proof.
  pose proof (reachable_enter_all unit unit Scenario.seq_header
                Scenario.four_byte_record Scenario.no_protos Scenario.no_port
                Scenario.str2ba Scenario.find_driver Scenario.strerror
                Scenario.put_in_flight boot) as Hreach.
  destruct (enter_all unit unit Scenario.seq_header Scenario.four_byte_record
              Scenario.no_protos Scenario.no_port Scenario.str2ba
              Scenario.find_driver Scenario.strerror Scenario.put_in_flight boot)
    as [[[] w] |] eqn:Hrun; [| vm_compute in Hrun; discriminate Hrun].
  specialize (Hreach w (reach_boot _ _ _ _ _ _ _ _ _) eq_refl).
  assert (Hv : exists v, heap w !! 1%positive = Some v /\ pending v <> []).
  { vm_compute in Hrun. injection Hrun as <-.
    eexists. split; [vm_compute; reflexivity | discriminate]. }
  destruct Hv as (v & Hv & Hp).
  exists w, v. split; [exact Hreach |]. split; [exact Hv |]. split; [exact Hp |].
  exact (proj2 (proj2 (put_while_pending_fails unit unit Scenario.seq_header
                         Scenario.four_byte_record Scenario.no_protos
                         Scenario.no_port Scenario.str2ba Scenario.find_driver
                         Scenario.strerror))
           w Scenario.x_ok 1%positive v Hreach Hv Hp
           None (Some "x-bt/message") (Some "/tmp/msg") (Some "msg") None None 0%nat).
Defined.

(** *** After admission *)

(** What [session_connect] does, branch by branch. *)
Lemma session_connect_returns X s cb w v :
  heap w !! s = Some v ->
  cb_session cb = s ->
  returns (session_connect X s cb) w (fun r w' =>
    (forall l, l <> s -> heap w' !! l = heap w !! l)
    /\ is_Some (heap w' !! s)
    /\ same_frame w w'
    /\ match obex v with
       | Some _ =>
           trace w' = trace w ++ [EvIdleAdd (connection_complete_fn cb)]
           /\ r = (0, cb)
       | None =>
           if 0 <? channel v
           then trace w' = trace w ++ [EvBtIoConnect (src v) (dst v) (channel v) cb]
                /\ fst r = match x_bt_io_connect X with
                           | None => - EINVAL
                           | Some _ => 0
                           end
           else exists evs,
                  trace w' = trace w ++ EvSdpConnect (src v) (dst v) :: evs
                  /\ Forall (fun e => is_bt_io_connect e = false) evs
                  /\ fst r = match snd r with
                             | {| cb_sdp := None |} => - ENOMEM
                             | _ => 0
                             end
       end).
Proof.
  intros Hv <-. unfold session_connect, returns, bind, load. rewrite Hv.
  destruct (obex v) as [o |].
  - simpl. rewrite Hv. split; [reflexivity |]. split; [eauto |].
    split; [unfold same_frame; simpl; tauto |]. split; reflexivity.
  - destruct (0 <? channel v).
    + unfold rfcomm_connect, update, bind, load, store, emit, ret.
      repeat (simpl; rewrite ?Hv).
      split; [intros l Hne; apply lookup_insert_ne; congruence |].
      split; [rewrite lookup_insert_eq; eauto |].
      split; [unfold same_frame; simpl; tauto |].
      split; [reflexivity |]. destruct (x_bt_io_connect X); reflexivity.
    + unfold service_connect, update, bind, load, store, emit, ret. simpl.
      destruct (x_sdp_connect X) as [sdp |]; simpl.
      * destruct (x_io_channel_unix_new X) as [i |]; simpl.
        -- repeat (simpl; rewrite ?Hv).
           split; [intros l Hne; apply lookup_insert_ne; congruence |].
           split; [rewrite lookup_insert_eq; eauto |].
           split; [unfold same_frame; simpl; tauto |].
           eexists [_]. split; [rewrite <- app_assoc; reflexivity |].
           split; [repeat constructor | reflexivity].
        -- rewrite Hv. split; [reflexivity |]. split; [eauto |].
           split; [unfold same_frame; simpl; tauto |].
           eexists [_]. split; [rewrite <- app_assoc; reflexivity |].
           split; [repeat constructor | reflexivity].
      * rewrite Hv. split; [reflexivity |]. split; [eauto |].
        split; [unfold same_frame; simpl; tauto |].
        exists []. split; [reflexivity |]. split; [constructor | reflexivity].
Qed.

(** The first lines of both reply handlers: the request leaves
    [pending_calls] and is finalized. *)
Lemma reply_prologue_returns s call req w v :
  heap w !! s = Some v ->
  find_request (pending_calls v) call = Some req ->
  returns (reply_prologue s call) w (fun _ w1 =>
    heap w1 = <[s := set_pending_calls
                       (g_slist_remove req_eqb (pending_calls v) req) v]> (heap w)
    /\ same_frame w w1
    /\ exists evs, trace w1 = trace w ++ evs
                   /\ Forall (fun e => is_resource_release e = true) evs).
Proof.
  intros Hv Hreq.
  unfold reply_prologue, find_session_request, returns, bind, load, ret.
  rewrite Hv, Hreq. unfold update, bind, load, store. rewrite Hv. simpl. rewrite Hv.
  unfold pending_req_finalize, bind, when. simpl.
  destruct (negb (existsb (Nat.eqb (req_call req)) (completed w))); simpl.
  - split; [reflexivity |]. split; [unfold same_frame; simpl; tauto |].
    eexists [_; _]. split; [rewrite <- app_assoc; reflexivity | repeat constructor].
  - split; [reflexivity |]. split; [unfold same_frame; simpl; tauto |].
    eexists [_]. split; [reflexivity | repeat constructor].
Qed.

Lemma release_not_discovery e : is_resource_release e = true -> is_sdp_connect e = false.
Proof. destruct e; simpl; congruence. Qed.

Lemma teardown_not_discovery e : is_teardown e = true -> is_sdp_connect e = false.
Proof. destruct e; simpl; congruence. Qed.

Lemma teardown_not_func e : is_teardown e = true -> is_func e = false.
Proof. destruct e; simpl; congruence. Qed.

Lemma teardown_not_connect e : is_teardown e = true -> is_bt_io_connect e = false.
Proof. destruct e; simpl; congruence. Qed.

Lemma release_not_func e : is_resource_release e = true -> is_func e = false.
Proof. destruct e; simpl; congruence. Qed.

Lemma release_not_connect e : is_resource_release e = true -> is_bt_io_connect e = false.
Proof. destruct e; simpl; congruence. Qed.

(** [adapter_reply] on a reply that grants admission: the request is
    finalized, [session_connect] takes its branch, and a failure to
    start that branch drops the reference. *)
Lemma adapter_reply_granted X call req args cb w v :
  heap w !! cb_session cb = Some v ->
  find_request (pending_calls v) call = Some req ->
  returns (adapter_reply X call (MethodReturn args) cb) w (fun _ w' =>
    sessions w' `sublist_of` sessions w
    /\ exists pre post,
         Forall (fun e => is_resource_release e = true) pre
         /\ Forall (fun e => is_teardown e = true) post
         /\ match obex v with
            | Some _ =>
                new_events w w' = pre ++ [EvIdleAdd (connection_complete_fn cb)] ++ post
            | None =>
                if 0 <? channel v
                then new_events w w'
                     = pre ++ [EvBtIoConnect (src v) (dst v) (channel v) cb] ++ post
                else exists evs,
                       new_events w w'
                       = pre ++ (EvSdpConnect (src v) (dst v) :: evs) ++ post
                       /\ Forall (fun e => is_bt_io_connect e = false) evs
            end).
Proof.
  intros Hv Hreq. unfold adapter_reply.
  apply returns_bind.
  eapply returns_mono; [apply (reply_prologue_returns _ call req w v Hv Hreq) |].
  intros [] w1 (Hh1 & Hf1 & pre & Ht1 & Hpre).
  set (v1 := set_pending_calls _ v) in Hh1.
  assert (Hv1 : heap w1 !! cb_session cb = Some v1)
    by (rewrite Hh1; apply lookup_insert_eq).
  apply returns_bind.
  eapply returns_mono; [apply (session_connect_returns X _ cb w1 v1 Hv1 eq_refl) |].
  intros r w2 (_ & [v2 Hv2] & Hf2 & Hcase).
  assert (Hs2 : sessions w2 = sessions w)
    by (destruct Hf1 as (E1 & _); destruct Hf2 as (E2 & _); congruence).
  assert (Hfin : forall mid,
             trace w2 = trace w1 ++ mid ->
             returns (if fst r <? 0 then obc_session_unref X (cb_session cb) else ret tt) w2
               (fun _ w' => sessions w' `sublist_of` sessions w
                            /\ exists post, Forall (fun e => is_teardown e = true) post
                                            /\ new_events w w' = pre ++ mid ++ post)).
  { intros mid Hmid. destruct (fst r <? 0).
    - eapply returns_mono; [apply (unref_returns X _ v2 w2 Hv2) |].
      intros [] w' (_ & _ & Hsub & _ & _ & _ & _ & post & Ht & Hpost).
      split; [rewrite <- Hs2; exact Hsub |].
      exists post. split; [exact Hpost |].
      apply new_events_app. rewrite Ht, Hmid, Ht1, <- !app_assoc. reflexivity.
    - apply returns_ret. split; [rewrite Hs2; reflexivity |].
      exists []. split; [constructor |].
      apply new_events_app. rewrite Hmid, Ht1, app_nil_r, <- app_assoc. reflexivity. }
  change (obex v1) with (obex v) in Hcase.
  change (channel v1) with (channel v) in Hcase.
  change (src v1) with (src v) in Hcase.
  change (dst v1) with (dst v) in Hcase.
  destruct (obex v).
  - destruct Hcase as [Ht2 _].
    eapply returns_mono; [apply (Hfin _ Ht2) |].
    intros [] w' (Hsub & post & Hpost & Hnew). split; [exact Hsub |].
    exists pre, post. auto.
  - destruct (0 <? channel v).
    + destruct Hcase as [Ht2 _].
      eapply returns_mono; [apply (Hfin _ Ht2) |].
      intros [] w' (Hsub & post & Hpost & Hnew). split; [exact Hsub |].
      exists pre, post. auto.
    + destruct Hcase as (evs & Ht2 & Hevs & _).
      eapply returns_mono; [apply (Hfin _ Ht2) |].
      intros [] w' (Hsub & post & Hpost & Hnew). split; [exact Hsub |].
      exists pre, post. split; [exact Hpre |]. split; [exact Hpost |].
      exists evs. auto.
Qed.

Lemma filter_none {A} (P : A -> bool) (l : list A) :
  Forall (fun e => P e = false) l -> filter (fun e => P e = true) l = [].
Proof.
  induction 1 as [| e l He _ IH]; [reflexivity |].
  rewrite filter_cons. destruct (decide (P e = true)); [congruence | exact IH].
Qed.

Lemma filter_single {A} (P : A -> bool) (pre post : list A) (x : A) :
  Forall (fun e => P e = false) pre -> Forall (fun e => P e = false) post ->
  P x = true ->
  filter (fun e => P e = true) (pre ++ [x] ++ post) = [x].
Proof.
  intros Hpre Hpost Hx.
  rewrite !filter_app, (filter_none P pre Hpre), (filter_none P post Hpost).
  simpl. rewrite filter_cons. destruct (decide (P x = true)); [reflexivity | contradiction].
Qed.

(** C8, as the code has it: once admission is granted, a session
    whose channel is known never starts service discovery; if it has no
    OBEX connection yet, the one transport connect goes to that channel;
    if it has one, no transport connect is made and the completion is
    scheduled; discovery is started exactly when the channel is zero and
    there is no OBEX connection. *)
Theorem admission_granted_connects X call req args cb w v :
  heap w !! cb_session cb = Some v ->
  find_request (pending_calls v) call = Some req ->
  uint8_range (channel v) ->
  returns (adapter_reply X call (MethodReturn args) cb) w (fun _ w' =>
    (channel v <> 0 ->
       Forall (fun e => is_sdp_connect e = false) (new_events w w'))
    /\ (channel v <> 0 -> obex v = None ->
          filter (fun e => is_bt_io_connect e = true) (new_events w w')
          = [EvBtIoConnect (src v) (dst v) (channel v) cb])
    /\ (obex v <> None ->
          filter (fun e => is_bt_io_connect e = true) (new_events w w') = []
          /\ In (EvIdleAdd (connection_complete_fn cb)) (new_events w w'))
    /\ (Exists (fun e => is_sdp_connect e = true) (new_events w w')
        <-> channel v = 0 /\ obex v = None)).
Proof.
  intros Hv Hreq Hrange.
  eapply returns_mono; [apply (adapter_reply_granted X call req args cb w v Hv Hreq) |].
  intros [] w' (_ & pre & post & Hpre & Hpost & Hcase).
  assert (Hpre_d := Forall_impl _ _ _ Hpre release_not_discovery).
  assert (Hpost_d := Forall_impl _ _ _ Hpost teardown_not_discovery).
  assert (Hpre_c := Forall_impl _ _ _ Hpre release_not_connect).
  assert (Hpost_c := Forall_impl _ _ _ Hpost teardown_not_connect).
  destruct (obex v) as [o |].
  - rewrite Hcase. split; [| split; [| split; [| split]]].
    + intros _. repeat (apply Forall_app; split); try assumption. repeat constructor.
    + discriminate.
    + intros _. split.
      * rewrite !filter_app, (filter_none _ pre Hpre_c), (filter_none _ post Hpost_c).
        reflexivity.
      * apply in_or_app. right. left. reflexivity.
    + intros Hex. exfalso. rewrite !Exists_app in Hex.
      destruct Hex as [Hex | [Hex | Hex]].
      * apply Exists_exists in Hex as (e & Hin & He).
        rewrite Forall_forall in Hpre_d. rewrite (Hpre_d e Hin) in He. discriminate.
      * inversion Hex as [? ? He | ? ? He]; [discriminate He | inversion He].
      * apply Exists_exists in Hex as (e & Hin & He).
        rewrite Forall_forall in Hpost_d. rewrite (Hpost_d e Hin) in He. discriminate.
    + intros [_ Hn]. discriminate Hn.
  - destruct (Z.ltb_spec 0 (channel v)) as [Hpos | Hzero].
    + rewrite Hcase. split; [| split; [| split; [| split]]].
      * intros _. repeat (apply Forall_app; split); try assumption. repeat constructor.
      * intros _ _. apply filter_single; [assumption | assumption | reflexivity].
      * intros Hc. contradiction.
      * intros Hex. exfalso. rewrite !Exists_app in Hex.
        destruct Hex as [Hex | [Hex | Hex]].
        -- apply Exists_exists in Hex as (e & Hin & He).
           rewrite Forall_forall in Hpre_d. rewrite (Hpre_d e Hin) in He. discriminate.
        -- inversion Hex as [? ? He | ? ? He]; [discriminate He | inversion He].
        -- apply Exists_exists in Hex as (e & Hin & He).
           rewrite Forall_forall in Hpost_d. rewrite (Hpost_d e Hin) in He. discriminate.
      * intros [Hz _]. lia.
    + destruct Hcase as (evs & Hnew & Hevs). rewrite Hnew.
      assert (Hch : channel v = 0) by (unfold uint8_range in Hrange; lia).
      split; [| split; [| split; [| split]]].
      * intros Hc. contradiction.
      * intros Hc. contradiction.
      * intros Hc. contradiction.
      * intros _. split; [exact Hch | reflexivity].
      * intros _. apply Exists_app. right. apply Exists_app. left.
        apply Exists_cons_hd. reflexivity.
Qed.

Lemma admission_granted_connects_witness :
  returns (adapter_reply Scenario.x_ok 7%nat (MethodReturn []) Scenario.connect_request)
    Scenario.w_admitting (fun _ w' =>
      Forall (fun e => is_sdp_connect e = false) (new_events Scenario.w_admitting w')).
Proof.
  eapply returns_mono.
  - apply (admission_granted_connects Scenario.x_ok 7%nat
             {| req_call := 7%nat; req_user_data := Some Scenario.connect_request |}
             [] Scenario.connect_request Scenario.w_admitting
             Scenario.admitting_session).
    + reflexivity.
    + reflexivity.
    + unfold uint8_range. simpl. lia.
  - intros [] w' (H & _). apply H. simpl. discriminate.
Defined.

(** C8 as stated fails: admission is granted on a session whose
    channel is known, yet no transport connect is issued, because the
    session already has its OBEX connection. *)
Lemma known_channel_without_transport_connect :
  heap Scenario.w_admitting !! 1%positive = Some Scenario.admitting_session
  /\ channel Scenario.admitting_session = 5
  /\ exists w',
       adapter_reply Scenario.x_ok 7%nat (MethodReturn []) Scenario.connect_request
         Scenario.w_admitting = Some (tt, w')
       /\ new_events Scenario.w_admitting w'
          = [EvPendingCallUnref 7; EvIdleAdd (connection_complete_fn Scenario.connect_request)]
       /\ filter (fun e => is_bt_io_connect e = true) (new_events Scenario.w_admitting w')
          = [].
Proof.
  split; [reflexivity |]. split; [reflexivity |].
  eexists. split; [vm_compute; reflexivity |]. split; reflexivity.
Qed.

(** *** Failure of the adapter-manager step *)

(** The fixture [w_resolving] is what [obc_session_create] leaves once
    libdbus has completed the call. *)
Lemma create_reaches_resolving :
  exists w',
    obc_session_create Scenario.x_ok Scenario.str2ba Scenario.find_driver
      None (Some Scenario.remote) (Some "MAP") 0 (Some ":1.42") 11%nat 22%nat
      Scenario.w_boot = Some (Some 1%positive, w')
    /\ heap w' = heap Scenario.w_resolving
    /\ sessions w' = sessions Scenario.w_resolving
    /\ next_loc w' = next_loc Scenario.w_resolving.
Proof.
  eexists. split; [vm_compute; reflexivity |].
  split; [vm_compute; reflexivity |]. split; reflexivity.
Qed.

(** When the manager step fails, the handler drops its reference and
    returns; the connect callback is not among the calls it makes. *)
Lemma admission_failure_is_silent X call req cb w v :
  heap w !! cb_session cb = Some v ->
  find_request (pending_calls v) call = Some req ->
  (forall reply, get_object_path reply = None ->
     returns (manager_reply X call reply cb) w (fun _ w' =>
       Forall (fun e => is_func e = false) (new_events w w')))
  /\ (forall name msg,
        returns (adapter_reply X call (ErrorReply name msg) cb) w (fun _ w' =>
          Forall (fun e => is_func e = false) (new_events w w'))).
Proof.
  intros Hv Hreq.
  assert (Hfail : returns (let* _ := reply_prologue (cb_session cb) call in
                           obc_session_unref X (cb_session cb)) w
                    (fun _ w' => Forall (fun e => is_func e = false) (new_events w w'))).
  { apply returns_bind.
    eapply returns_mono; [apply (reply_prologue_returns _ call req w v Hv Hreq) |].
    intros [] w1 (Hh1 & _ & pre & Ht1 & Hpre).
    eapply returns_mono.
    - eapply (unref_returns X (cb_session cb) _ w1).
      rewrite Hh1. apply lookup_insert_eq.
    - intros [] w' (_ & _ & _ & _ & _ & _ & _ & post & Ht & Hpost).
      rewrite (new_events_app w w' (pre ++ post))
        by (rewrite Ht, Ht1, <- app_assoc; reflexivity).
      apply Forall_app. split.
      + eapply Forall_impl; [exact Hpre | apply release_not_func].
      + eapply Forall_impl; [exact Hpost | apply teardown_not_func]. }
  split.
  - intros reply Hnone. unfold manager_reply.
    destruct reply as [name msg | args]; [exact Hfail |].
    rewrite Hnone. exact Hfail.
  - intros name msg. exact Hfail.
Qed.

(** C1 on the code: the adapter manager replies with an error, or
    without an object path, or the adapter refuses admission; each time
    the handler finalizes the call, drops one reference and returns
    without invoking the connect callback; nothing is left pending. *)
Theorem manager_failure_drops_callback :
  (exists w',
     manager_reply Scenario.x_ok 7%nat
       (ErrorReply "org.bluez.Error.NoSuchAdapter" "No such adapter")
       Scenario.connect_request Scenario.w_resolving = Some (tt, w')
     /\ new_events Scenario.w_resolving w' = [EvPendingCallUnref 7]
     /\ filter (fun e => is_func e = true) (new_events Scenario.w_resolving w') = []
     /\ heap w' !! 1%positive
        = Some (set_refcount 1 (set_pending_calls [] Scenario.resolving_session)))
  /\ (exists w',
        manager_reply Scenario.x_ok 7%nat (MethodReturn [])
          Scenario.connect_request Scenario.w_resolving = Some (tt, w')
        /\ new_events Scenario.w_resolving w' = [EvPendingCallUnref 7]
        /\ filter (fun e => is_func e = true) (new_events Scenario.w_resolving w') = []
        /\ heap w' !! 1%positive
           = Some (set_refcount 1 (set_pending_calls [] Scenario.resolving_session)))
  /\ (exists w',
        adapter_reply Scenario.x_ok 7%nat
          (ErrorReply "org.bluez.Error.Rejected" "Rejected")
          Scenario.connect_request Scenario.w_requesting = Some (tt, w')
        /\ new_events Scenario.w_requesting w' = [EvPendingCallUnref 7]
        /\ filter (fun e => is_func e = true) (new_events Scenario.w_requesting w') = []
        /\ heap w' !! 1%positive
           = Some (set_refcount 1 (set_pending_calls [] Scenario.requesting_session))).
Proof.
  repeat split; eexists; (split; [vm_compute; reflexivity |]);
    repeat split; vm_compute; reflexivity.
Qed.

(** *** The registry *)

Create HintDb registry.

Lemma nr_ret {A} (a : A) : never_registers (ret a).
Proof. intros w. apply whenever_ret. reflexivity. Qed.

Lemma nr_fault {A} : never_registers (@fault A).
Proof. intros w. exact I. Qed.

Lemma nr_bind {A B} (m : M A) (f : A -> M B) :
  never_registers m -> (forall a, never_registers (f a)) ->
  never_registers (bind m f).
Proof.
  intros Hm Hf w. apply whenever_bind.
  eapply whenever_mono; [apply Hm |].
  intros a w1 H1. eapply whenever_mono; [apply Hf |].
  intros b w2 H2. simpl in *. etransitivity; eassumption.
Qed.

Lemma nr_emit e : never_registers (emit e).
Proof. intros w. apply whenever_emit. reflexivity. Qed.

Lemma nr_load s : never_registers (load s).
Proof. intros w. apply whenever_load. reflexivity. Qed.

Lemma nr_update s f : never_registers (update s f).
Proof. intros w. apply whenever_update. reflexivity. Qed.

Lemma nr_load_transfer t : never_registers (load_transfer t).
Proof.
  intros w. unfold whenever, load_transfer.
  destruct (transfers w !! t); [reflexivity | exact I].
Qed.

Lemma nr_when b m : never_registers m -> never_registers (when b m).
Proof. destruct b; [tauto | intros _; apply nr_ret]. Qed.

Lemma nr_forM {A} (l : list A) (f : A -> M unit) :
  (forall x, never_registers (f x)) -> never_registers (forM l f).
Proof.
  intros Hf. induction l as [| x l IH]; simpl.
  - apply nr_ret.
  - apply nr_bind; [apply Hf | intros _; exact IH].
Qed.

Lemma g_slist_remove_sublist (l : list loc) (s : loc) :
  g_slist_remove Pos.eqb l s `sublist_of` l.
Proof.
  induction l as [| x r IH]; simpl; [constructor |].
  destruct (Pos.eqb x s); [apply sublist_cons, reflexivity | apply sublist_skip, IH].
Qed.

#[local] Hint Resolve nr_ret nr_fault nr_emit nr_load nr_update nr_load_transfer
  : registry.

(** Takes a computation apart along its binds and case distinctions. *)
Ltac registry_step :=
  match goal with
  | |- never_registers (bind _ _) => apply nr_bind; [| intros ?]
  | |- never_registers (when _ _) => apply nr_when
  | |- never_registers (forM _ _) => apply nr_forM; intros ?
  | |- never_registers (match ?x with _ => _ end) => destruct x
  | |- never_registers _ => solve [auto with registry]
  end.

Ltac registry := repeat registry_step.

Lemma nr_pending_req_finalize req : never_registers (pending_req_finalize req).
Proof.
  intros w. unfold pending_req_finalize.
  assert (H : never_registers
                (let* _ := when (negb (existsb (Nat.eqb (req_call req)) (completed w)))
                                (emit (EvPendingCallCancel (req_call req))) in
                 emit (EvPendingCallUnref (req_call req)))) by registry.
  apply H.
Qed.

Lemma nr_session_unregistered s : never_registers (session_unregistered s).
Proof. unfold session_unregistered. registry. Qed.

#[local] Hint Resolve nr_pending_req_finalize nr_session_unregistered : registry.

Lemma nr_session_free s : never_registers (session_free s).
Proof.
  unfold session_free. registry.
  - intros w. apply g_slist_remove_sublist.
  - intros w. unfold whenever. simpl. reflexivity.
Qed.

#[local] Hint Resolve nr_session_free : registry.

Lemma nr_send_method_call X c d p i m cb ud :
  never_registers (send_method_call X c d p i m cb ud).
Proof. unfold send_method_call. registry. Qed.

#[local] Hint Resolve nr_send_method_call : registry.

Lemma nr_store s v : never_registers (store s v).
Proof.
  intros w. unfold whenever, store. destruct (heap w !! s); [reflexivity | exact I].
Qed.

#[local] Hint Resolve nr_store : registry.

Lemma nr_unref X s : never_registers (obc_session_unref X s).
Proof. unfold obc_session_unref. registry. Qed.

Lemma nr_ref s : never_registers (obc_session_ref s).
Proof. unfold obc_session_ref. registry. Qed.

#[local] Hint Resolve nr_unref nr_ref : registry.

Lemma nr_connect_cb X err rsp_code cb : never_registers (connect_cb X err rsp_code cb).
Proof. unfold connect_cb. registry. Qed.

Lemma nr_rfcomm_connect X s d ch cb : never_registers (rfcomm_connect X s d ch cb).
Proof. unfold rfcomm_connect. registry. Qed.

#[local] Hint Resolve nr_rfcomm_connect : registry.

Lemma nr_discovery_failed X cb : never_registers (discovery_failed X cb).
Proof. unfold discovery_failed. registry. Qed.

#[local] Hint Resolve nr_discovery_failed : registry.

Lemma nr_service_callback X i cond cb : never_registers (service_callback X i cond cb).
Proof. unfold service_callback. registry. Qed.

Lemma nr_process_callback X cond cb : never_registers (process_callback X cond cb).
Proof. unfold process_callback. registry. Qed.

Lemma nr_service_connect X s d cb : never_registers (service_connect X s d cb).
Proof. unfold service_connect. registry. Qed.

#[local] Hint Resolve nr_service_connect : registry.

Lemma nr_connection_complete X cb : never_registers (connection_complete X cb).
Proof. unfold connection_complete. registry. Qed.

Lemma nr_session_connect X s cb : never_registers (session_connect X s cb).
Proof. unfold session_connect. registry. Qed.

Lemma nr_reply_prologue s call : never_registers (reply_prologue s call).
Proof. unfold reply_prologue, find_session_request. registry. Qed.

#[local] Hint Resolve nr_session_connect nr_reply_prologue : registry.

Lemma nr_adapter_reply X call reply cb : never_registers (adapter_reply X call reply cb).
Proof. unfold adapter_reply. registry. Qed.

Lemma nr_manager_reply X call reply cb : never_registers (manager_reply X call reply cb).
Proof. unfold manager_reply. registry. Qed.

Lemma nr_set_owner X s name : never_registers (obc_session_set_owner X s name).
Proof. unfold obc_session_set_owner. registry. Qed.

#[local] Hint Resolve nr_set_owner : registry.

Lemma nr_create_proceed X s source owner_name f d :
  never_registers (obc_session_create_proceed X s source owner_name f d).
Proof. unfold obc_session_create_proceed. registry. Qed.

#[local] Hint Resolve nr_create_proceed : registry.

Lemma nr_session_find str2ba source destination service_name ch owner_name :
  never_registers (session_find str2ba source destination service_name ch owner_name).
Proof.
  intros w. unfold whenever, session_find.
  destruct (session_find_in _ _ _ _ _ _ _ _); [reflexivity | exact I].
Qed.

Lemma nr_alloc_session : never_registers alloc_session.
Proof. intros w. unfold whenever, alloc_session. simpl. reflexivity. Qed.

#[local] Hint Resolve nr_session_find nr_alloc_session : registry.

Lemma nr_create X str2ba find_driver source destination service_name ch owner_name f d :
  never_registers (obc_session_create X str2ba find_driver source destination
                     service_name ch owner_name f d).
Proof. unfold obc_session_create. registry. Qed.

Lemma nr_search_callback X (R L : Type) seq pdu protos port type status rsp size cb :
  never_registers (search_callback X R L seq pdu protos port type status rsp size cb).
Proof. unfold search_callback. registry. Qed.

(** [rfcomm_callback] on a live session with a driver: it puts the
    session on the registry when, and only when, the transport is up,
    the OBEX engine exists and the CONNECT request went out; then it
    returns at once, before any response. *)
Lemma rfcomm_callback_returns X err cb w v d :
  heap w !! cb_session cb = Some v ->
  driver v = Some d ->
  returns (rfcomm_callback X err cb) w (fun _ w' =>
    match err, x_obex_new X, x_obex_connect_err X with
    | None, Some o, None =>
        sessions w' = cb_session cb :: sessions w
        /\ heap w' !! cb_session cb = Some (set_obex (Some o) (set_io None v))
        /\ new_events w w' = [EvIoUnref (io v); EvObexConnect o (target d)]
    | _, _, _ =>
        sessions w' `sublist_of` sessions w
        /\ Exists (fun e => is_func e = true) (new_events w w')
    end).
Proof.
  intros Hv Hd.
  assert (Hdone : forall e w1 v1 evs,
             heap w1 !! cb_session cb = Some v1 ->
             sessions w1 = sessions w ->
             trace w1 = trace w ++ evs ->
             returns (rfcomm_callback_done X e cb) w1 (fun _ w' =>
               sessions w' `sublist_of` sessions w
               /\ Exists (fun e => is_func e = true) (new_events w w'))).
  { intros e w1 v1 evs Hv1 Hs1 Ht1. unfold rfcomm_callback_done.
    apply returns_bind, returns_emit.
    eapply returns_mono; [apply (unref_returns X _ v1); exact Hv1 |].
    intros [] w' (_ & _ & Hsub & _ & _ & _ & _ & post & Ht & _).
    simpl in Hsub, Ht. split; [rewrite <- Hs1; exact Hsub |].
    rewrite (new_events_app w w' (evs ++ [EvFunc (cb_func cb) (cb_session cb) e (cb_data cb)] ++ post))
      by (rewrite Ht, Ht1, <- !app_assoc; reflexivity).
    apply Exists_app. right. apply Exists_cons_hd. reflexivity. }
  unfold rfcomm_callback.
  apply returns_bind. eapply returns_load; [exact Hv |].
  destruct err as [e |].
  - assert (H := Hdone (Some e) w v [] Hv eq_refl (eq_sym (app_nil_r _))).
    destruct (x_obex_new X), (x_obex_connect_err X); exact H.
  - destruct (x_obex_new X) as [o |].
    + apply returns_bind, returns_emit.
      apply returns_bind. eapply returns_update; [exact Hv |].
      rewrite Hd.
      apply returns_bind, returns_emit.
      destruct (x_obex_connect_err X) as [e |].
      * apply returns_bind, returns_emit.
        eapply (Hdone (Some e) _ (set_io None v)
                  [EvIoUnref (io v); EvObexConnect o (target d); EvObexUnref o]).
        -- simpl. apply lookup_insert_eq.
        -- reflexivity.
        -- simpl. rewrite <- !app_assoc. reflexivity.
      * apply returns_bind. eapply returns_update; [simpl; apply lookup_insert_eq |].
        unfold returns. simpl. split; [reflexivity |].
        split; [rewrite insert_insert_eq; apply lookup_insert_eq |].
        apply new_events_app. simpl. rewrite <- app_assoc. reflexivity.
    + assert (H := Hdone None w v [] Hv eq_refl (eq_sym (app_nil_r _))).
      destruct (x_obex_connect_err X); exact H.
Qed.

(** C2, as the code has it: the one place that puts a session on the
    registry is [rfcomm_callback], and it does so exactly when the
    transport is up, the OBEX engine was created and the OBEX CONNECT
    request was issued without error, that is when the handshake
    begins, before its outcome is known.  No other step of the
    bring-up, the completion of the handshake included, adds an
    entry. *)
Theorem registered_when_handshake_begins X :
  (forall err cb w v d,
     heap w !! cb_session cb = Some v ->
     driver v = Some d ->
     returns (rfcomm_callback X err cb) w (fun _ w' =>
       match err, x_obex_new X, x_obex_connect_err X with
       | None, Some o, None =>
           sessions w' = cb_session cb :: sessions w
           /\ new_events w w' = [EvIoUnref (io v); EvObexConnect o (target d)]
       | _, _, _ => sessions w' `sublist_of` sessions w
       end))
  /\ (forall err rsp_code cb, never_registers (connect_cb X err rsp_code cb))
  /\ (forall str2ba find_driver source destination service_name ch owner_name f d,
        never_registers (obc_session_create X str2ba find_driver source destination
                           service_name ch owner_name f d))
  /\ (forall call reply cb, never_registers (manager_reply X call reply cb))
  /\ (forall call reply cb, never_registers (adapter_reply X call reply cb))
  /\ (forall s cb, never_registers (session_connect X s cb))
  /\ (forall i cond cb, never_registers (service_callback X i cond cb))
  /\ (forall cond cb, never_registers (process_callback X cond cb))
  /\ (forall (R L : Type) seq pdu protos port type status rsp size cb,
        never_registers (search_callback X R L seq pdu protos port
                           type status rsp size cb))
  /\ (forall cb, never_registers (connection_complete X cb)).
Proof.
  split.
  { intros err cb w v d Hv Hd.
    eapply returns_mono; [apply (rfcomm_callback_returns X err cb w v d Hv Hd) |].
    intros [] w'. simpl.
    destruct err, (x_obex_new X), (x_obex_connect_err X); tauto. }
  split; [intros; apply nr_connect_cb |].
  split; [intros; apply nr_create |].
  split; [intros; apply nr_manager_reply |].
  split; [intros; apply nr_adapter_reply |].
  split; [intros; apply nr_session_connect |].
  split; [intros; apply nr_service_callback |].
  split; [intros; apply nr_process_callback |].
  split; [intros; apply nr_search_callback |].
  intros; apply nr_connection_complete.
Qed.

Lemma registered_when_handshake_begins_witness :
  returns (rfcomm_callback Scenario.x_ok None Scenario.connect_request)
    Scenario.w_transport (fun _ w' =>
      sessions w' = [1%positive]
      /\ new_events Scenario.w_transport w'
         = [EvIoUnref (Some 3%nat);
            EvObexConnect 6 (target Scenario.map_driver)]).
Proof.
  exact (proj1 (registered_when_handshake_begins Scenario.x_ok)
           None Scenario.connect_request Scenario.w_transport
           Scenario.transport_session Scenario.map_driver eq_refl eq_refl).
Defined.

(** C2 as stated fails: the session is on the registry as soon as the
    OBEX CONNECT request is issued; here the handshake then fails with
    the response 0xc3, so the session was registered although the
    handshake never succeeded. *)
Lemma registered_before_handshake_outcome :
  sessions Scenario.w_transport = []
  /\ exists w1 w2,
       rfcomm_callback Scenario.x_ok None Scenario.connect_request Scenario.w_transport
         = Some (tt, w1)
       /\ sessions w1 = [1%positive]
       /\ trace w1 = [EvIoUnref (Some 3%nat);
                      EvObexConnect 6 (target Scenario.map_driver)]
       /\ connect_cb Scenario.x_ok None 195 Scenario.connect_request w1 = Some (tt, w2)
       /\ new_events w1 w2
          = [EvFunc 11%nat 1%positive
               (Some {| domain := OBEX_IO_ERROR; code := - EIO;
                        message := "OBEX Connect failed with 0xc3" |}) 22%nat]
       /\ sessions w2 = [1%positive].
Proof.
  split; [reflexivity |].
  eexists _, _. split; [vm_compute; reflexivity |].
  split; [reflexivity |]. split; [reflexivity |].
  split; [vm_compute; reflexivity |]. split; reflexivity.
Qed.

(** *** Completion of a transfer *)






Lemma wrap_gint_bracket z : gint_range z -> wrap_gint (wrap_gint (z + 1) - 1) = z.
Proof.
  intros H. unfold gint_range, wrap_gint in *.
  destruct (Z.eq_dec z (2 ^ 31 - 1)) as [-> | Hne].
  - reflexivity.
  - rewrite (Z.mod_small (z + 1 + 2 ^ 31)) by lia.
    rewrite Z.mod_small; lia.
Qed.






(** *** Service discovery without a channel *)

(** The [failed:] exit: the socket is given up, the connect callback
    gets the error, the reference of the request is dropped. *)
Lemma discovery_failed_returns X cb w v :
  heap w !! cb_session cb = Some v ->
  returns (discovery_failed X cb) w (fun _ w' =>
    exists post,
      new_events w w'
      = [EvIoShutdown (io v); EvIoUnref (io v);
         EvFunc (cb_func cb) (cb_session cb) (Some service_record_error) (cb_data cb)]
        ++ post
      /\ Forall (fun e => is_teardown e = true) post).
Proof.
  intros Hv. unfold discovery_failed.
  apply returns_bind. eapply returns_load; [exact Hv |].
  apply returns_bind, returns_emit. apply returns_bind, returns_emit.
  apply returns_bind. eapply returns_update; [exact Hv |].
  apply returns_bind, returns_emit.
  eapply returns_mono.
  - eapply (unref_returns X (cb_session cb) (set_io None v)).
    simpl. apply lookup_insert_eq.
  - intros [] w' (_ & _ & _ & _ & _ & _ & _ & post & Ht & Hpost).
    exists post. split; [| exact Hpost].
    apply new_events_app. rewrite Ht. simpl. rewrite <- !app_assoc. reflexivity.
Qed.

Section Discovery.

Variables (R L : Type).
Variable seq : list Z -> Z -> Z -> Z * Z.
Variable pdu : list Z -> Z -> Z -> option (R * Z).
Variable protos : R -> option L.
Variable port : L -> Z -> Z.

(** The scan ends with channel 0 when no record offers one, provided
    the parser never reports more bytes than it was given. *)
Lemma search_records_none rsp size :
  (forall off n rec k, pdu rsp off n = Some (rec, k) -> 0 <= k <= n) ->
  (forall off n rec k, pdu rsp off n = Some (rec, k) ->
                       record_channel R L protos port rec <= 0) ->
  forall fuel off scanned bytesleft,
    0 <= bytesleft < 2 ^ 32 ->
    (Z.to_nat bytesleft < fuel)%nat ->
    search_records R L pdu protos port fuel rsp size off scanned bytesleft = Some 0.
Proof.
  intros Hfit Hnone. induction fuel as [| fuel IH]; intros off scanned bytesleft Hb Hfuel.
  - lia.
  - simpl. destruct (pdu rsp off bytesleft) as [[rec k] |] eqn:E; [| reflexivity].
    destruct (Z.eqb_spec k 0) as [Hk | Hk]; [reflexivity |].
    pose proof (Hfit _ _ _ _ E) as Hkn. pose proof (Hnone _ _ _ _ E) as Hch.
    destruct (Z.ltb_spec 0 (record_channel R L protos port rec)); [lia |].
    assert (Hleft : wrap_uint (bytesleft - k) = bytesleft - k)
      by (unfold wrap_uint; apply Z.mod_small; lia).
    rewrite Hleft.
    destruct ((wrap_uint (scanned + k) <? size) && (0 <? bytesleft - k)); [| reflexivity].
    apply IH; lia.
Qed.

Lemma search_channel_none type status rsp size :
  (forall off n rec k, pdu rsp off n = Some (rec, k) -> 0 <= k <= n) ->
  (forall off n rec k, pdu rsp off n = Some (rec, k) ->
                       record_channel R L protos port rec <= 0) ->
  search_channel R L seq pdu protos port type status rsp size = Some 0.
Proof.
  intros Hfit Hnone. unfold search_channel.
  destruct (negb (status =? 0) || negb (type =? SDP_SVC_SEARCH_ATTR_RSP));
    [reflexivity |].
  destruct (seq rsp 0 (wrap_uint size)) as [scanned seqlen].
  destruct ((scanned =? 0) || (seqlen =? 0)); [reflexivity |].
  apply search_records_none; try assumption.
  - unfold wrap_uint. apply Z.mod_pos_bound. lia.
  - lia.
Qed.

(** C7: when the search yields no record with an RFCOMM channel,
    [search_callback] invokes the connect callback, once, with the
    error "Unable to find service record", and issues no transport
    connect. *)
Theorem search_without_channel X type status rsp size cb w v :
  heap w !! cb_session cb = Some v ->
  (forall off n rec k, pdu rsp off n = Some (rec, k) -> 0 <= k <= n) ->
  (forall off n rec k, pdu rsp off n = Some (rec, k) ->
                       record_channel R L protos port rec <= 0) ->
  returns (search_callback X R L seq pdu protos port type status rsp size cb) w
    (fun _ w' =>
       filter (fun e => is_func e = true) (new_events w w')
       = [EvFunc (cb_func cb) (cb_session cb) (Some service_record_error) (cb_data cb)]
       /\ filter (fun e => is_bt_io_connect e = true) (new_events w w') = []).
Proof.
  intros Hv Hfit Hnone. unfold search_callback.
  rewrite (search_channel_none type status rsp size Hfit Hnone). simpl.
  eapply returns_mono; [apply (discovery_failed_returns X cb w v Hv) |].
  intros [] w' (post & -> & Hpost). split.
  - apply (filter_single is_func [EvIoShutdown (io v); EvIoUnref (io v)] post).
    + repeat constructor.
    + eapply Forall_impl; [exact Hpost | apply teardown_not_func].
    + reflexivity.
  - apply filter_none. apply Forall_app. split; [repeat constructor |].
    eapply Forall_impl; [exact Hpost | apply teardown_not_connect].
Qed.

End Discovery.

Lemma search_without_channel_witness :
  returns (search_callback Scenario.x_ok unit unit Scenario.seq_header
             Scenario.four_byte_record Scenario.no_protos Scenario.no_port
             SDP_SVC_SEARCH_ATTR_RSP 0 [53; 8; 1; 2; 3; 4; 5; 6; 7; 8] 10
             Scenario.discovery_request)
    Scenario.w_discovering
    (fun _ w' =>
       filter (fun e => is_func e = true) (new_events Scenario.w_discovering w')
       = [EvFunc 11%nat 1%positive (Some service_record_error) 22%nat]
       /\ filter (fun e => is_bt_io_connect e = true)
            (new_events Scenario.w_discovering w') = []).
Proof.
  apply (search_without_channel unit unit Scenario.seq_header
           Scenario.four_byte_record Scenario.no_protos Scenario.no_port
           Scenario.x_ok SDP_SVC_SEARCH_ATTR_RSP 0 [53; 8; 1; 2; 3; 4; 5; 6; 7; 8] 10
           Scenario.discovery_request Scenario.w_discovering
           Scenario.discovering_session).
  - reflexivity.
  - intros off n rec k. unfold Scenario.four_byte_record.
    destruct (Z.leb_spec 4 n); [| discriminate].
    intros [= _ <-]. lia.
  - intros off n rec k _. unfold record_channel, Scenario.no_protos. lia.
Defined.

(** *** Reuse of a session *)

Lemma g_strcmp0_eq (a b : option string) : g_strcmp0 a b = 0 <-> a = b.
Proof.
  unfold g_strcmp0. destruct a as [x |], b as [y |]; try (split; congruence).
  destruct (String.compare x y) eqn:E.
  - apply String.compare_eq_iff in E. subst. tauto.
  - split; [discriminate |]. intros [= ->].
    pose proof (String.compare_antisym y y) as H. rewrite E in H. discriminate.
  - split; [discriminate |]. intros [= ->].
    pose proof (String.compare_antisym y y) as H. rewrite E in H. discriminate.
Qed.




Lemma send_method_call_returns X c d p i m cb ud w :
  returns (send_method_call X c d p i m cb ud) w (fun _ w' =>
    heap w' = heap w /\ same_frame w w').
Proof.
  unfold send_method_call.
  destruct (x_message_new X m); simpl;
    [| apply returns_ret; split; [reflexivity | apply same_frame_refl]].
  destruct (x_append_args X m); simpl;
    [| apply returns_ret; split; [reflexivity | apply same_frame_refl]].
  destruct cb as [n |].
  - destruct (x_send_with_reply X m) as [call |].
    + apply returns_bind, returns_emit, returns_ret.
      split; [reflexivity | unfold same_frame; simpl; tauto].
    + apply returns_ret. split; [reflexivity | apply same_frame_refl].
  - apply returns_bind, returns_emit, returns_ret.
    split; [reflexivity | unfold same_frame; simpl; tauto].
Qed.

Lemma set_owner_returns X s name w v :
  heap w !! s = Some v ->
  returns (obc_session_set_owner X s name) w (fun _ w' =>
    next_loc w' = next_loc w
    /\ exists v', heap w' !! s = Some v' /\ refcount v' = refcount v).
Proof.
  intros Hv. unfold obc_session_set_owner.
  apply returns_bind. eapply returns_load; [exact Hv |].
  assert (Hrest : forall w1,
             heap w1 = heap w -> next_loc w1 = next_loc w ->
             returns (let* _ := emit (EvAddDisconnectWatch (conn v) name) in
                      let* _ := update s (set_watch (x_add_disconnect_watch X)) in
                      if x_add_disconnect_watch X =? 0 then ret (- EINVAL)
                      else let* _ := update s (set_owner (Some name)) in ret 0) w1
               (fun _ w' => next_loc w' = next_loc w
                            /\ exists v', heap w' !! s = Some v'
                                          /\ refcount v' = refcount v)).
  { intros w1 Hh1 Hn1.
    apply returns_bind, returns_emit.
    apply returns_bind. eapply returns_update; [simpl; rewrite Hh1; exact Hv |].
    destruct (x_add_disconnect_watch X =? 0).
    - apply returns_ret. simpl. split; [exact Hn1 |].
      eexists. split; [apply lookup_insert_eq | reflexivity].
    - apply returns_bind. eapply returns_update; [simpl; apply lookup_insert_eq |].
      apply returns_ret. simpl. split; [exact Hn1 |].
      eexists. split; [apply lookup_insert_eq | reflexivity]. }
  apply returns_bind, returns_when; intros _.
  - apply returns_emit. apply Hrest; reflexivity.
  - apply Hrest; reflexivity.
Qed.








(** The same request from the owner of the session is served by the
    session itself, which then holds two more references; from another
    owner it is served by a new session. *)
Lemma reuse_by_owner_only :
  (exists w',
     obc_session_create Scenario.x_ok Scenario.str2ba Scenario.find_driver
       None (Some Scenario.remote) (Some "MAP") 0 (Some ":1.42") 11%nat 22%nat
       Scenario.w_ready = Some (Some 1%positive, w')
     /\ (refcount <$> heap w' !! 1%positive) = Some 3
     /\ next_loc w' = next_loc Scenario.w_ready)
  /\ (exists w',
        obc_session_create Scenario.x_ok Scenario.str2ba Scenario.find_driver
          None (Some Scenario.remote) (Some "MAP") 0 (Some ":1.99") 11%nat 22%nat
          Scenario.w_ready = Some (Some 10%positive, w')
        /\ (refcount <$> heap w' !! 1%positive) = Some 1
        /\ (refcount <$> heap w' !! 10%positive) = Some 2).
Proof.
  split; eexists; (split; [vm_compute; reflexivity |]); split; vm_compute; reflexivity.
Qed.

End SessionSpec.

(** ** Folder navigation beyond the whitelist check *)

Module FolderSpec.
Import GLib Phonebook Derived PhonebookSpec.

Local Open Scope string_scope.

(** X1: whenever [phonebook_set_folder] returns, it returns one of the
    seven valid folders with the status 0, or NULL with a negative
    status, or, in one case only, NULL with the status 0: going up
    (flags 0x03) with no current folder and no folder name, where the
    call does return NULL and 0.  The status is what it stores through
    [err]. *)
Theorem set_folder_stays_in_whitelist (current new : option string) (flags : Z)
    (err : bool) :
  (forall r,
     phonebook_set_folder current new flags err = Some r ->
     match sf_path r with
     | Some p => In p valid_folders /\ sf_ret r = 0
     | None =>
         sf_ret r < 0
         \/ (sf_ret r = 0 /\ current = None /\ flags = 3
             /\ (new = None \/ new = Some ""))
     end
     /\ sf_err r = (if err then Some (sf_ret r) else None))
  /\ (new = None \/ new = Some "" ->
      phonebook_set_folder None new 3 err =
        Some {| sf_path := None; sf_ret := 0;
                sf_err := if err then Some 0 else None |}).
Proof.
  split.
  - intros r. unfold phonebook_set_folder.
    destruct (set_folder_switch current new flags) as [path ret |] eqn:Hsw;
      [| discriminate].
    assert (Hret : (path = None /\ ret = - EBADR)
                   \/ (path = None /\ ret = 0 /\ current = None /\ flags = 3
                       /\ (new = None \/ new = Some ""))
                   \/ (path <> None /\ ret = 0)).
    { unfold set_folder_switch in Hsw.
      destruct (Z.eqb_spec flags 2) as [_ | _].
      { right. right.
        destruct (negb _); inversion Hsw; split; (discriminate || reflexivity). }
      destruct (Z.eqb_spec flags 3) as [Hf | _];
        [| left; inversion Hsw; split; reflexivity].
      right.
      destruct (Z.eqb (g_strcmp0 (Some "/") current) 0);
        [right; inversion Hsw; split; (discriminate || reflexivity) |].
      destruct current as [cur |].
      - right.
        repeat match type of Hsw with
               | (if ?c then _ else _) = _ => destruct c
               | match ?x with _ => _ end = _ => destruct x
               end; inversion Hsw; split; (discriminate || reflexivity).
      - destruct new as [[| a n] |]; simpl in Hsw; inversion Hsw.
        + left. auto 10.
        + right. split; [discriminate | reflexivity].
        + left. auto 10. }
    intros [= <-]. simpl.
    destruct Hret as [[-> ->] | [(-> & -> & Hc & Hf & Hn) | [Hp ->]]].
    + simpl. split; [left; unfold EBADR; lia | reflexivity].
    + simpl. split; [right; tauto | reflexivity].
    + destruct path as [p |]; [| contradiction].
      destruct (folder_is_valid (Some p)) eqn:Hv; simpl.
      * split; [| reflexivity]. split; [| reflexivity].
        apply folder_is_valid_whitelist, Hv.
      * split; [left; unfold ENOENT; lia | reflexivity].
  - intros [-> | ->]; reflexivity.
Qed.

Lemma set_folder_stays_in_whitelist_witness :
  In "/telecom/pb" valid_folders
  /\ phonebook_set_folder None None 3 true =
       Some {| sf_path := None; sf_ret := 0; sf_err := Some 0 |}.
Proof.
  split.
  - exact (proj1 (proj1 (proj1 (set_folder_stays_in_whitelist (Some "/telecom")
             (Some "pb") FLAGS_ENTER true)
             {| sf_path := Some "/telecom/pb"; sf_ret := 0; sf_err := Some 0 |}
             eq_refl))).
  - exact (proj2 (set_folder_stays_in_whitelist None None 3 true)
             (or_introl eq_refl)).
Defined.

(** X2: the status is [-EBADR] exactly for the flags other than 0x02
    and 0x03, and then nothing else of the arguments is looked at: the
    result is NULL whatever the folders are. *)
Theorem set_folder_unknown_flags (current new : option string) (flags : Z)
    (err : bool) :
  (flags <> 2 /\ flags <> 3 ->
   phonebook_set_folder current new flags err =
     Some {| sf_path := None; sf_ret := - EBADR;
             sf_err := if err then Some (- EBADR) else None |})
  /\ (forall r, phonebook_set_folder current new flags err = Some r ->
        sf_ret r = - EBADR -> flags <> 2 /\ flags <> 3).
Proof.
  split.
  - intros [H2 H3]. unfold phonebook_set_folder, set_folder_switch.
    destruct (Z.eqb_spec flags 2); [contradiction |].
    destruct (Z.eqb_spec flags 3); [contradiction |].
    reflexivity.
  - intros r Hr Hret.
    unfold phonebook_set_folder in Hr.
    destruct (set_folder_switch current new flags) as [path ret |] eqn:Hsw;
      [| discriminate].
    assert (H0 : flags = 2 \/ flags = 3 -> ret = 0).
    { intros Hf. unfold set_folder_switch in Hsw.
      destruct (Z.eqb_spec flags 2).
      - repeat match type of Hsw with
               | (if ?c then _ else _) = _ => destruct c
               | match ?x with _ => _ end = _ => destruct x
               end; inversion Hsw; reflexivity.
      - destruct (Z.eqb_spec flags 3); [| lia].
        repeat match type of Hsw with
               | (if ?c then _ else _) = _ => destruct c
               | match ?x with _ => _ end = _ => destruct x
               end; inversion Hsw; reflexivity. }
    injection Hr as <-. simpl in Hret.
    destruct (Z.eq_dec flags 2) as [E2 | H2];
      [exfalso | destruct (Z.eq_dec flags 3) as [E3 | H3];
                 [exfalso | split; assumption]].
    + rewrite (H0 (or_introl E2)) in Hret.
      destruct path; [destruct (negb _) |]; simpl in Hret;
        unfold ENOENT, EBADR in Hret; lia.
    + rewrite (H0 (or_intror E3)) in Hret.
      destruct path; [destruct (negb _) |]; simpl in Hret;
        unfold ENOENT, EBADR in Hret; lia.
Qed.

Lemma set_folder_unknown_flags_witness :
  phonebook_set_folder (Some "/telecom") (Some "pb") 1 true =
    Some {| sf_path := None; sf_ret := - EBADR; sf_err := Some (- EBADR) |}.
Proof.
  apply (proj1 (set_folder_unknown_flags (Some "/telecom") (Some "pb") 1 true)).
  split; lia.
Defined.

(** X3: going up one level with no folder name is defined on every
    valid folder (the pointer arithmetic of the 0x03 case stays inside
    the string) and gives its parent: the root for the root and for
    "/telecom", "/telecom" for the five phonebook folders.  The name
    may be NULL or empty. *)
Theorem set_folder_up_gives_parent (current : string) (new : option string)
    (err : bool) :
  In current valid_folders ->
  new = None \/ new = Some "" ->
  phonebook_set_folder (Some current) new FLAGS_UP err =
    Some {| sf_path := Some (parent_folder current); sf_ret := 0;
            sf_err := if err then Some 0 else None |}.
Proof.
  intros Hin Hnew. unfold valid_folders in Hin. simpl in Hin.
  destruct Hnew as [-> | ->];
    repeat (destruct Hin as [<- | Hin]; [destruct err; reflexivity |]);
    destruct Hin.
Qed.

Lemma set_folder_up_gives_parent_witness :
  phonebook_set_folder (Some "/telecom/mch") None FLAGS_UP false =
    Some {| sf_path := Some "/telecom"; sf_ret := 0; sf_err := None |}.
Proof.
  apply (set_folder_up_gives_parent "/telecom/mch" None false).
  - unfold valid_folders. simpl. tauto.
  - left. reflexivity.
Defined.

End FolderSpec.

(** ** The tracker back-end: which queries are sent *)

Module QuerySpec.
Import GLib Phonebook Tracker Derived PhonebookSpec.

Local Open Scope string_scope.

Lemma folder2query_listing (folder : string) :
  is_Some (folder2query folder) <-> is_listing_folder folder.
Proof.
  unfold folder2query, is_listing_folder, valid_folders, g_str_equal. split.
  - intros H.
    repeat match type of H with
           | is_Some (if String.eqb ?a ?b then _ else _) =>
               destruct (String.eqb_spec a b);
               [subst; simpl; repeat split; try tauto; discriminate |]
           end.
    destruct H as [? H]. discriminate H.
  - intros (Hin & Hroot & Htel). simpl in Hin.
    destruct Hin as [<- | [<- | Hin]]; [contradiction | contradiction |].
    repeat (destruct Hin as [<- | Hin]; [simpl; eauto |]).
    destruct Hin.
Qed.

(** X4: [phonebook_create_cache] sends a query exactly for the five
    valid folders that hold a phonebook; for them it asks for 7 columns
    to be given to [add_to_cache] and reports 0, or [-EPERM] when the
    message could not be sent; for every other name, the root and
    "/telecom" included, it sends nothing and reports [-ENOENT]. *)
Theorem create_cache_listing_folders (sent : option nat) (name : string) :
  (is_listing_folder name ->
   exists q,
     phonebook_create_cache sent name =
       {| qr_call := sent;
          qr_err := Some (match sent with Some _ => 0 | None => - EPERM end);
          qr_request := Some {| rq_query := q; rq_num_fields := 7;
                                rq_callback := add_to_cache_fn;
                                rq_user_data := CacheData |} |})
  /\ (~ is_listing_folder name -> phonebook_create_cache sent name = not_found).
Proof.
  unfold phonebook_create_cache. split.
  - intros H. apply folder2query_listing in H. destruct H as [q ->].
    exists q. destruct sent; reflexivity.
  - intros H. destruct (folder2query name) as [q |] eqn:E; [| reflexivity].
    exfalso. apply H, folder2query_listing. eauto.
Qed.

Lemma create_cache_listing_folders_witness :
  phonebook_create_cache (Some 1%nat) "/telecom" = not_found.
Proof.
  apply (proj2 (create_cache_listing_folders (Some 1%nat) "/telecom")).
  intros (_ & _ & H). apply H. reflexivity.
Defined.

Lemma name2query_folder (name : string) :
  is_Some (name2query name) <->
  exists folder, is_listing_folder folder /\ String "/" name = folder ++ ".vcf".
Proof.
  split.
  - unfold name2query, g_str_equal. intros H.
    repeat match type of H with
           | is_Some (if String.eqb ?a ?b then _ else _) =>
               destruct (String.eqb_spec a b);
               [subst;
                match goal with
                | |- exists f, _ /\ String "/" ?n = _ =>
                    exists (String.substring 0 (String.length n - 3) (String "/" n))
                end;
                split; [apply folder2query_listing; simpl; eauto | reflexivity] |]
           end.
    destruct H as [? H]. discriminate H.
  - intros (folder & (Hin & Hroot & Htel) & E).
    unfold valid_folders in Hin. simpl in Hin.
    destruct Hin as [<- | [<- | Hin]]; [contradiction | contradiction |].
    repeat (destruct Hin as [<- | Hin]; [injection E as ->; simpl; eauto |]).
    destruct Hin.
Qed.

Lemma name2count_query_same_names (name : string) :
  is_Some (name2count_query name) <-> is_Some (name2query name).
Proof.
  unfold name2count_query, name2query.
  repeat match goal with
         | |- context [g_str_equal ?a ?b] => destruct (g_str_equal a b); [split; eauto |]
         end.
  tauto.
Qed.

(** X5: the objects [phonebook_pull] accepts are the five phonebook
    folders with the suffix ".vcf" and without the leading slash,
    whether the contacts or only their number is asked for
    ([maxlistcount] zero); any other name is answered with [-ENOENT]
    and no query.  An accepted pull asks for one column and
    [pull_contacts_size] when [maxlistcount] is zero, for 26 columns
    and [pull_contacts] otherwise. *)
Theorem pull_accepts_listing_folders (sent : option nat) (name : string)
    (p : apparam_field) :
  let accepted :=
    exists folder, is_listing_folder folder /\ String "/" name = folder ++ ".vcf" in
  (accepted ->
   exists q,
     phonebook_pull sent name p =
       {| qr_call := sent;
          qr_err := Some (match sent with Some _ => 0 | None => - EPERM end);
          qr_request :=
            Some {| rq_query := q;
                    rq_num_fields := if Z.eqb (maxlistcount p) 0 then 1 else 26;
                    rq_callback := if Z.eqb (maxlistcount p) 0
                                   then pull_contacts_size_fn else pull_contacts_fn;
                    rq_user_data := PhonebookData false p |} |})
  /\ (~ accepted -> phonebook_pull sent name p = not_found).
Proof.
  intros accepted. unfold phonebook_pull. split.
  - intros H. apply name2query_folder in H.
    destruct (Z.eqb (maxlistcount p) 0).
    + apply name2count_query_same_names in H. destruct H as [q ->].
      exists q. destruct sent; reflexivity.
    + destruct H as [q ->]. exists q. destruct sent; reflexivity.
  - intros H.
    assert (Hq : name2query name = None).
    { destruct (name2query name) eqn:E; [| reflexivity].
      exfalso. apply H, name2query_folder. eauto. }
    assert (Hc : name2count_query name = None).
    { destruct (name2count_query name) eqn:E; [| reflexivity].
      assert (Hs : is_Some (name2query name))
        by (apply name2count_query_same_names; eauto).
      rewrite Hq in Hs. destruct Hs as [? Hs]. discriminate Hs. }
    destruct (Z.eqb (maxlistcount p) 0); rewrite ?Hq, ?Hc; reflexivity.
Qed.

Lemma pull_accepts_listing_folders_witness :
  phonebook_pull None "telecom/pb" {| maxlistcount := 10; liststartoffset := 0;
                                      ap_filter := 0; ap_format := 0 |} = not_found.
Proof.
  apply (proj2 (pull_accepts_listing_folders None "telecom/pb"
                  {| maxlistcount := 10; liststartoffset := 0;
                     ap_filter := 0; ap_format := 0 |})).
  intros (folder & (Hin & _) & E). unfold valid_folders in Hin. simpl in Hin.
  repeat (destruct Hin as [<- | Hin]; [discriminate E |]). destruct Hin.
Defined.

End QuerySpec.

(** ** The tracker back-end: building a contact *)

Module ContactSpec.
Import GLib Phonebook Tracker Derived.

Local Open Scope string_scope.

Lemma g_strcmp0_zero (a b : option string) : Z.eqb (g_strcmp0 a b) 0 = true <-> a = b.
Proof. rewrite Z.eqb_eq. apply SessionSpec.g_strcmp0_eq. Qed.

(** The step of the three [find_...] loops. *)
Ltac find_cons p' p t' t IH :=
  rewrite not_elem_of_cons; cbn -[g_strcmp0];
  destruct (Z.eqb (g_strcmp0 (Some p') (Some p)) 0) eqn:E; cbn -[g_strcmp0];
  [ apply g_strcmp0_zero in E; injection E as E; subst p';
    destruct (bool_decide_reflect (t' = t)) as [Ht | Ht];
    [ subst t'; split; [discriminate | intros [H _]; contradiction]
    | rewrite IH; split; [intros H; split; [congruence | exact H] | tauto] ]
  | assert (p' <> p)
      by (intros ->; rewrite (proj2 (g_strcmp0_zero _ _) eq_refl) in E; discriminate);
    rewrite IH; split; [intros H'; split; [congruence | exact H'] | tauto] ].

Lemma find_phone_None (l : list phonebook_number) (p : string)
    (t : phonebook_number_type) :
  find_phone l (Some p) t = None <-> {| tel := p; tel_type := t |} ∉ l.
Proof.
  induction l as [| [p' t'] l IH]; [split; [intros _; apply not_elem_of_nil | reflexivity] |].
  find_cons p' p t' t IH.
Qed.

Lemma find_email_None (l : list phonebook_email) (p : string)
    (t : phonebook_email_type) :
  find_email l (Some p) t = None <-> {| address := p; email_type := t |} ∉ l.
Proof.
  induction l as [| [p' t'] l IH]; [split; [intros _; apply not_elem_of_nil | reflexivity] |].
  find_cons p' p t' t IH.
Qed.

Lemma find_address_None (l : list phonebook_address) (p : string)
    (t : phonebook_address_type) :
  find_address l (Some p) t = None <-> {| addr := p; addr_type := t |} ∉ l.
Proof.
  induction l as [| [p' t'] l IH]; [split; [intros _; apply not_elem_of_nil | reflexivity] |].
  find_cons p' p t' t IH.
Qed.

Lemma grows_by_new_NoDup {A} (l l' : list A) :
  grows_by_new l l' -> NoDup l -> NoDup l'.
Proof.
  intros [-> | (x & Hx & ->)] H; [exact H |].
  apply NoDup_app. split; [exact H |]. split; [| apply NoDup_singleton].
  intros y Hy Hy'. apply list_elem_of_singleton in Hy'. subst. contradiction.
Qed.

Lemma grows_by_new_prefix {A} (l l' : list A) :
  grows_by_new l l' -> l `prefix_of` l'.
Proof.
  intros [-> | (x & _ & ->)]; [reflexivity | apply prefix_app_r; reflexivity].
Qed.

Lemma extends_refl {A} (l : list A) : extends l l.
Proof. split; [reflexivity | tauto]. Qed.

Lemma extends_trans {A} (l1 l2 l3 : list A) :
  extends l1 l2 -> extends l2 l3 -> extends l1 l3.
Proof. intros [P1 N1] [P2 N2]. split; [etrans; eassumption | tauto]. Qed.

Lemma grows_extends {A} (l l' : list A) : grows_by_new l l' -> extends l l'.
Proof.
  intros H. split; [apply grows_by_new_prefix, H | apply grows_by_new_NoDup, H].
Qed.

Lemma with_numbers_id (c : phonebook_contact) : with_numbers (numbers c) c = c.
Proof. destruct c; reflexivity. Qed.

Lemma with_emails_id (c : phonebook_contact) : with_emails (emails c) c = c.
Proof. destruct c; reflexivity. Qed.

Lemma with_addresses_id (c : phonebook_contact) : with_addresses (addresses c) c = c.
Proof. destruct c; reflexivity. Qed.

Lemma add_phone_number_grows (c : phonebook_contact) (p : option string)
    (t : phonebook_number_type) :
  exists l, add_phone_number c p t = with_numbers l c /\ grows_by_new (numbers c) l.
Proof.
  unfold add_phone_number.
  destruct p as [p |];
    [| exists (numbers c); split; [symmetry; apply with_numbers_id | left; reflexivity]].
  destruct (Nat.eqb (String.length p) 0);
    [exists (numbers c); split; [symmetry; apply with_numbers_id | left; reflexivity] |].
  destruct (find_phone (numbers c) (Some p) t) eqn:E;
    [exists (numbers c); split; [symmetry; apply with_numbers_id | left; reflexivity] |].
  eexists. split; [reflexivity |]. right. eexists. split; [| reflexivity].
  apply find_phone_None, E.
Qed.

Lemma add_email_grows (c : phonebook_contact) (p : option string)
    (t : phonebook_email_type) :
  exists l, add_email c p t = with_emails l c /\ grows_by_new (emails c) l.
Proof.
  unfold add_email.
  destruct p as [p |];
    [| exists (emails c); split; [symmetry; apply with_emails_id | left; reflexivity]].
  destruct (Nat.eqb (String.length p) 0);
    [exists (emails c); split; [symmetry; apply with_emails_id | left; reflexivity] |].
  destruct (find_email (emails c) (Some p) t) eqn:E;
    [exists (emails c); split; [symmetry; apply with_emails_id | left; reflexivity] |].
  eexists. split; [reflexivity |]. right. eexists. split; [| reflexivity].
  apply find_email_None, E.
Qed.

Lemma add_address_grows (present : string -> bool) (c : phonebook_contact)
    (p : option string) (t : phonebook_address_type) :
  exists l, add_address present c p t = with_addresses l c
            /\ grows_by_new (addresses c) l.
Proof.
  unfold add_address.
  destruct p as [p |];
    [| exists (addresses c); split; [symmetry; apply with_addresses_id | left; reflexivity]].
  destruct (negb (present p));
    [exists (addresses c); split; [symmetry; apply with_addresses_id | left; reflexivity] |].
  destruct (find_address (addresses c) (Some p) t) eqn:E;
    [exists (addresses c); split; [symmetry; apply with_addresses_id | left; reflexivity] |].
  eexists. split; [reflexivity |]. right. eexists. split; [| reflexivity].
  apply find_address_None, E.
Qed.

Lemma add_main_number_grows (c : phonebook_contact) (s : string) :
  exists l, add_main_number c s = with_numbers l c /\ grows_by_new (numbers c) l.
Proof.
  unfold add_main_number.
  destruct (g_strsplit (Some s) SUB_DELIM 2) as [[| type [| number ?]] |];
    try (exists (numbers c); split; [symmetry; apply with_numbers_id | left; reflexivity]).
  destruct (g_strrstr type FAX_NUM_TYPE), (g_strrstr type MOBILE_NUM_TYPE);
    apply add_phone_number_grows.
Qed.

(** A loop of steps that each rewrite the numbers of the contact. *)
Lemma fold_numbers_extends {A} (step : phonebook_contact -> A -> phonebook_contact)
    (items : list A) :
  (forall c x, exists l, step c x = with_numbers l c /\ grows_by_new (numbers c) l) ->
  forall c, exists l,
    fold_left step items c = with_numbers l c /\ extends (numbers c) l.
Proof.
  intros Hstep. induction items as [| x items IH]; intros c; simpl.
  - exists (numbers c). split; [symmetry; apply with_numbers_id | apply extends_refl].
  - destruct (Hstep c x) as (l1 & -> & H1).
    destruct (IH (with_numbers l1 c)) as (l2 & -> & H2).
    exists l2. split; [reflexivity |].
    eapply extends_trans; [apply grows_extends, H1 | exact H2].
Qed.

Lemma fold_emails_extends {A} (step : phonebook_contact -> A -> phonebook_contact)
    (items : list A) :
  (forall c x, exists l, step c x = with_emails l c /\ grows_by_new (emails c) l) ->
  forall c, exists l,
    fold_left step items c = with_emails l c /\ extends (emails c) l.
Proof.
  intros Hstep. induction items as [| x items IH]; intros c; simpl.
  - exists (emails c). split; [symmetry; apply with_emails_id | apply extends_refl].
  - destruct (Hstep c x) as (l1 & -> & H1).
    destruct (IH (with_emails l1 c)) as (l2 & -> & H2).
    exists l2. split; [reflexivity |].
    eapply extends_trans; [apply grows_extends, H1 | exact H2].
Qed.

Lemma fold_addresses_extends {A} (step : phonebook_contact -> A -> phonebook_contact)
    (items : list A) :
  (forall c x, exists l, step c x = with_addresses l c
                         /\ grows_by_new (addresses c) l) ->
  forall c, exists l,
    fold_left step items c = with_addresses l c /\ extends (addresses c) l.
Proof.
  intros Hstep. induction items as [| x items IH]; intros c; simpl.
  - exists (addresses c).
    split; [symmetry; apply with_addresses_id | apply extends_refl].
  - destruct (Hstep c x) as (l1 & -> & H1).
    destruct (IH (with_addresses l1 c)) as (l2 & -> & H2).
    exists l2. split; [reflexivity |].
    eapply extends_trans; [apply grows_extends, H1 | exact H2].
Qed.

Lemma add_each_unfold {A}
    (add : phonebook_contact -> option string -> A -> phonebook_contact)
    (c : phonebook_contact) (pieces : option (list string)) (reply : row)
    (type_of : option string -> A) (c' : phonebook_contact) :
  add_each add c pieces reply type_of = Some c' ->
  exists items t, c' = fold_left (fun c s => add c (Some s) t) items c.
Proof.
  unfold add_each. destruct pieces as [[| x l] |].
  - intros [= <-]. exists [], (type_of None). reflexivity.
  - destruct (col reply COL_AFF_TYPE) as [aff |]; [| discriminate].
    intros [= <-]. exists (x :: l), (type_of aff). reflexivity.
  - intros [= <-]. exists [], (type_of None). reflexivity.
Qed.

Section Rows.

Variable address_fields_present : string -> bool.

Lemma contact_add_numbers_extends (c c' : phonebook_contact) (reply : row) :
  contact_add_numbers c reply = Some c' ->
  exists l, c' = with_numbers l c /\ extends (numbers c) l.
Proof.
  unfold contact_add_numbers.
  destruct (col reply COL_PHONE_AFF) as [phone_aff |]; [| discriminate].
  destruct (add_each _ _ _ _ _) as [c1 |] eqn:E1; [| discriminate].
  apply add_each_unfold in E1. destruct E1 as (items & t & ->).
  destruct (fold_numbers_extends (fun c s => add_phone_number c (Some s) t) items
              (fun c x => add_phone_number_grows c (Some x) t) c)
    as (l1 & -> & H1).
  destruct (col reply COL_PHONE_CONTACT) as [phone_contact |]; [| discriminate].
  destruct (g_strsplit phone_contact MAIN_DELIM MAX_FIELDS) as [con_numbers |].
  - intros [= <-].
    destruct (fold_numbers_extends add_main_number con_numbers add_main_number_grows
                (with_numbers l1 c)) as (l2 & E2 & H2).
    exists l2. split; [exact E2 |]. eapply extends_trans; eassumption.
  - intros [= <-]. exists l1. split; [reflexivity | exact H1].
Qed.

Lemma contact_add_emails_extends (c c' : phonebook_contact) (reply : row) :
  contact_add_emails c reply = Some c' ->
  exists l, c' = with_emails l c /\ extends (emails c) l.
Proof.
  unfold contact_add_emails.
  destruct (col reply COL_EMAIL_AFF) as [email_aff |]; [| discriminate].
  destruct (add_each _ _ _ _ _) as [c1 |] eqn:E1; [| discriminate].
  apply add_each_unfold in E1. destruct E1 as (items & t & ->).
  destruct (fold_emails_extends (fun c s => add_email c (Some s) t) items
              (fun c x => add_email_grows c (Some x) t) c)
    as (l1 & -> & H1).
  destruct (col reply COL_EMAIL_CONTACT) as [email_contact |]; [| discriminate].
  destruct (g_strsplit email_contact MAIN_DELIM MAX_FIELDS) as [con_emails |].
  - intros [= <-].
    destruct (fold_emails_extends (fun c s => add_email c (Some s) EMAIL_TYPE_OTHER)
                con_emails (fun c x => add_email_grows c (Some x) EMAIL_TYPE_OTHER)
                (with_emails l1 c)) as (l2 & E2 & H2).
    exists l2. split; [exact E2 |]. eapply extends_trans; eassumption.
  - intros [= <-]. exists l1. split; [reflexivity | exact H1].
Qed.

Lemma contact_add_addresses_extends (c c' : phonebook_contact) (reply : row) :
  contact_add_addresses address_fields_present c reply = Some c' ->
  exists l, c' = with_addresses l c /\ extends (addresses c) l.
Proof.
  unfold contact_add_addresses.
  destruct (col reply COL_ADDR_AFF) as [addr_aff |]; [| discriminate].
  destruct (add_each _ _ _ _ _) as [c1 |] eqn:E1; [| discriminate].
  apply add_each_unfold in E1. destruct E1 as (items & t & ->).
  destruct (fold_addresses_extends
              (fun c s => add_address address_fields_present c (Some s) t) items
              (fun c x => add_address_grows address_fields_present c (Some x) t) c)
    as (l1 & -> & H1).
  destruct (col reply COL_ADDR_CONTACT) as [addr_contact |]; [| discriminate].
  destruct (g_strsplit addr_contact MAIN_DELIM MAX_FIELDS) as [con_addr |].
  - intros [= <-].
    destruct (fold_addresses_extends
                (fun c s => add_address address_fields_present c (Some s) ADDR_TYPE_OTHER)
                con_addr
                (fun c x => add_address_grows address_fields_present c (Some x)
                              ADDR_TYPE_OTHER)
                (with_addresses l1 c)) as (l2 & E2 & H2).
    exists l2. split; [exact E2 |]. eapply extends_trans; eassumption.
  - intros [= <-]. exists l1. split; [reflexivity | exact H1].
Qed.

Lemma add_affiliation_kept (field value field' : option string) :
  add_affiliation field value = Some field' -> kept_or_filled field field'.
Proof.
  unfold add_affiliation, kept_or_filled.
  destruct field as [f |]; [| discriminate].
  destruct f as [| a f]; simpl; [| intros [= <-]; left; reflexivity].
  destruct value as [[| a v] |]; simpl; intros [= <-]; auto.
  right. split; [reflexivity |]. eexists. split; [reflexivity | discriminate].
Qed.

Lemma contact_add_organization_kept (c c' : phonebook_contact) (reply : row) :
  contact_add_organization c reply = Some c' ->
  exists t co d r,
    c' = with_organization t co d r c
    /\ kept_or_filled (title c) t /\ kept_or_filled (company c) co
    /\ kept_or_filled (department c) d /\ kept_or_filled (role c) r.
Proof.
  unfold contact_add_organization.
  destruct (col reply COL_TITLE) as [r_title |]; [| discriminate].
  destruct (add_affiliation (title c) r_title) as [t |] eqn:Et; [| discriminate].
  destruct (col reply COL_ORG_NAME) as [r_company |]; [| discriminate].
  destruct (add_affiliation (company c) r_company) as [co |] eqn:Eco; [| discriminate].
  destruct (col reply COL_ORG_DEPARTMENT) as [r_department |]; [| discriminate].
  destruct (add_affiliation (department c) r_department) as [d |] eqn:Ed;
    [| discriminate].
  destruct (col reply COL_ORG_ROLE) as [r_role |]; [| discriminate].
  destruct (add_affiliation (role c) r_role) as [r |] eqn:Er; [| discriminate].
  intros [= <-]. exists t, co, d, r.
  split; [reflexivity |].
  repeat split; eapply add_affiliation_kept; eassumption.
Qed.

(** What the statements from [add_numbers:] on do to a contact. *)
Lemma add_numbers_label_shape (c c' : phonebook_contact) (reply : row) :
  add_numbers_label address_fields_present c reply = Some c' ->
  exists ln le la t co d r,
    c' = with_organization t co d r
           (with_addresses la (with_emails le (with_numbers ln c)))
    /\ extends (numbers c) ln /\ extends (emails c) le /\ extends (addresses c) la
    /\ kept_or_filled (title c) t /\ kept_or_filled (company c) co
    /\ kept_or_filled (department c) d /\ kept_or_filled (role c) r.
Proof.
  unfold add_numbers_label.
  destruct (contact_add_numbers c reply) as [c1 |] eqn:E1; [| discriminate].
  apply contact_add_numbers_extends in E1. destruct E1 as (ln & -> & Hn).
  destruct (contact_add_emails _ reply) as [c2 |] eqn:E2; [| discriminate].
  apply contact_add_emails_extends in E2. destruct E2 as (le & -> & He).
  destruct (contact_add_addresses _ _ reply) as [c3 |] eqn:E3; [| discriminate].
  apply contact_add_addresses_extends in E3. destruct E3 as (la & -> & Ha).
  intros E4. apply contact_add_organization_kept in E4.
  destruct E4 as (t & co & d & r & -> & Ht & Hco & Hd & Hr).
  exists ln, le, la, t, co, d, r. simpl in *. tauto.
Qed.

(** X6: a further row added to a contact (the statements from
    [add_numbers:] on) only appends to its phone numbers, e-mail
    addresses and postal addresses, and when none of the three lists
    held an entry twice, none does afterwards. *)
Theorem row_adds_no_duplicate (c c' : phonebook_contact) (reply : row) :
  add_numbers_label address_fields_present c reply = Some c' ->
  (numbers c `prefix_of` numbers c' /\ emails c `prefix_of` emails c'
   /\ addresses c `prefix_of` addresses c')
  /\ (NoDup (numbers c) -> NoDup (numbers c'))
  /\ (NoDup (emails c) -> NoDup (emails c'))
  /\ (NoDup (addresses c) -> NoDup (addresses c')).
Proof.
  intros H. apply add_numbers_label_shape in H.
  destruct H as (ln & le & la & t & co & d & r & -> & [Pn Nn] & [Pe Ne] & [Pa Na] & _).
  simpl. tauto.
Qed.

(** X7: a further row added to a contact changes none of the fields
    [contact_init] took from the first row of the contact (names,
    birthday, nickname, web site, photo, UID, call time and call type),
    and of the title, company, department and role it only fills those
    that were empty, with a text that is not. *)
Theorem row_keeps_card (c c' : phonebook_contact) (reply : row) :
  add_numbers_label address_fields_present c reply = Some c' ->
  same_card c c'
  /\ kept_or_filled (title c) (title c') /\ kept_or_filled (company c) (company c')
  /\ kept_or_filled (department c) (department c')
  /\ kept_or_filled (role c) (role c').
Proof.
  intros H. apply add_numbers_label_shape in H.
  destruct H as (ln & le & la & t & co & d & r & -> & _ & _ & _ & Ht & Hco & Hd & Hr).
  unfold same_card. simpl. tauto.
Qed.

End Rows.

Lemma row_adds_no_duplicate_witness : NoDup (numbers TrackerScenario.jo_again).
Proof.
  apply (proj1 (proj2 (row_adds_no_duplicate TrackerScenario.present_always
                         TrackerScenario.jo TrackerScenario.jo_again
                         TrackerScenario.jo_row eq_refl))).
  repeat (apply NoDup_cons_2;
          [rewrite ?not_elem_of_cons; repeat split; try discriminate;
           apply not_elem_of_nil |]).
  apply NoDup_nil_2.
Defined.

Lemma row_keeps_card_witness :
  same_card TrackerScenario.jo TrackerScenario.jo_again.
Proof.
  exact (proj1 (row_keeps_card TrackerScenario.present_always
                  TrackerScenario.jo TrackerScenario.jo_again
                  TrackerScenario.jo_row eq_refl)).
Defined.

(** X8: an affiliation that is neither "Home" nor "Work" (NULL
    included) makes a phone number and an e-mail address of the type
    OTHER, but a postal address of the type HOME: [get_addr_type] never
    answers [ADDR_TYPE_OTHER].  On "Home" and "Work" the three functions
    agree. *)
Theorem addr_type_never_other (affilation : option string) :
  get_addr_type affilation <> ADDR_TYPE_OTHER
  /\ (affilation = Some "Home" ->
      get_phone_type affilation = TEL_TYPE_HOME
      /\ get_email_type affilation = EMAIL_TYPE_HOME
      /\ get_addr_type affilation = ADDR_TYPE_HOME)
  /\ (affilation = Some "Work" ->
      get_phone_type affilation = TEL_TYPE_WORK
      /\ get_email_type affilation = EMAIL_TYPE_WORK
      /\ get_addr_type affilation = ADDR_TYPE_WORK)
  /\ (affilation <> Some "Home" -> affilation <> Some "Work" ->
      get_phone_type affilation = TEL_TYPE_OTHER
      /\ get_email_type affilation = EMAIL_TYPE_OTHER
      /\ get_addr_type affilation = ADDR_TYPE_HOME).
Proof.
  unfold get_addr_type, get_phone_type, get_email_type, AFFILATION_HOME,
    AFFILATION_WORK.
  split; [| split; [| split]].
  - destruct (Z.eqb _ 0); [discriminate |]. destruct (Z.eqb _ 0); discriminate.
  - intros ->. repeat split.
  - intros ->. repeat split.
  - intros Hh Hw.
    destruct (Z.eqb (g_strcmp0 (Some "Home") affilation) 0) eqn:E1.
    { apply g_strcmp0_zero in E1. congruence. }
    destruct (Z.eqb (g_strcmp0 (Some "Work") affilation) 0) eqn:E2.
    { apply g_strcmp0_zero in E2. congruence. }
    repeat split.
Qed.

Lemma addr_type_never_other_witness :
  get_phone_type (Some "Other") = TEL_TYPE_OTHER
  /\ get_email_type (Some "Other") = EMAIL_TYPE_OTHER
  /\ get_addr_type (Some "Other") = ADDR_TYPE_HOME.
Proof.
  apply (proj2 (proj2 (proj2 (addr_type_never_other (Some "Other")))));
    discriminate.
Defined.

(** X9: [set_call_type] classifies the row by its date and its two
    flags alone.  "NOTACALL" as date gives [CALL_TYPE_NOT_A_CALL]
    whatever the flags are, set or not, and leaves the call time as it
    was.  Any other date, with both flags set, gives OUTGOING when the
    sent flag is "true" (whatever the answered flag), else INCOMING when
    the answered flag is "true", else MISSED, with the date converted as
    call time.  Conversely each class is given in these cases only, and
    nothing else of the contact changes. *)
Theorem set_call_type_classifies (iso : string -> string) (c : phonebook_contact)
    (dt is_sent is_answered : option string) :
  (dt = Some "NOTACALL" ->
     set_call_type iso c dt is_sent is_answered =
       Some (with_call (Some CALL_TYPE_NOT_A_CALL) (datetime c) c))
  /\ (forall d s a,
        dt = Some d -> d <> "NOTACALL" ->
        is_sent = Some s -> is_answered = Some a ->
        (s = "true" ->
           set_call_type iso c dt is_sent is_answered =
             Some (with_call (Some CALL_TYPE_OUTGOING) (Some (iso d)) c))
        /\ (s <> "true" -> a = "true" ->
              set_call_type iso c dt is_sent is_answered =
                Some (with_call (Some CALL_TYPE_INCOMING) (Some (iso d)) c))
        /\ (s <> "true" -> a <> "true" ->
              set_call_type iso c dt is_sent is_answered =
                Some (with_call (Some CALL_TYPE_MISSED) (Some (iso d)) c)))
  /\ (forall c',
        set_call_type iso c dt is_sent is_answered = Some c' ->
        same_card (with_call (calltype c) (datetime c) c')
                  (with_call (calltype c) (datetime c) c)
        /\ numbers c' = numbers c /\ emails c' = emails c
        /\ addresses c' = addresses c
        /\ match calltype c' with
           | Some CALL_TYPE_NOT_A_CALL =>
               dt = Some "NOTACALL" /\ datetime c' = datetime c
           | Some CALL_TYPE_OUTGOING =>
               dt <> Some "NOTACALL" /\ is_sent = Some "true"
               /\ exists d, dt = Some d /\ datetime c' = Some (iso d)
           | Some CALL_TYPE_INCOMING =>
               dt <> Some "NOTACALL"
               /\ is_sent <> Some "true" /\ is_answered = Some "true"
               /\ exists d, dt = Some d /\ datetime c' = Some (iso d)
           | Some CALL_TYPE_MISSED =>
               dt <> Some "NOTACALL"
               /\ is_sent <> Some "true" /\ is_answered <> Some "true"
               /\ exists d, dt = Some d /\ datetime c' = Some (iso d)
           | None => False
           end).
Proof.
  split; [| split].
  - intros ->. reflexivity.
  - intros d s a -> Hd -> ->. unfold set_call_type.
    assert (E : Z.eqb (g_strcmp0 (Some d) (Some "NOTACALL")) 0 = false).
    { destruct (Z.eqb (g_strcmp0 (Some d) (Some "NOTACALL")) 0) eqn:E; [| reflexivity].
      apply g_strcmp0_zero in E. congruence. }
    rewrite E. unfold g_str_equal.
    split; [| split].
    + intros ->. reflexivity.
    + intros Hs ->. destruct (String.eqb_spec s "true"); [contradiction | reflexivity].
    + intros Hs Ha. destruct (String.eqb_spec s "true"); [contradiction |].
      destruct (String.eqb_spec a "true"); [contradiction | reflexivity].
  - intros c'. unfold set_call_type.
    destruct (Z.eqb (g_strcmp0 dt (Some "NOTACALL")) 0) eqn:E.
    + apply g_strcmp0_zero in E. intros [= <-]. unfold same_card. simpl. tauto.
    + assert (Hn : dt <> Some "NOTACALL").
      { intros ->. discriminate E. }
      destruct is_sent as [s |]; [| discriminate].
      destruct is_answered as [a |]; [| discriminate].
      destruct dt as [d |]; [| discriminate].
      unfold g_str_equal.
      destruct (String.eqb_spec s "true") as [-> | Hs],
               (String.eqb_spec a "true") as [-> | Ha];
        intros [= <-]; unfold same_card; simpl;
        repeat split; eauto; congruence.
Qed.

Lemma set_call_type_classifies_witness :
  set_call_type TrackerScenario.time_as_given zeroed_contact
    (Some "NOTACALL") None None =
    Some (with_call (Some CALL_TYPE_NOT_A_CALL) None zeroed_contact)
  /\ set_call_type TrackerScenario.time_as_given zeroed_contact
       (Some "2011-01-01T10:00:00Z") (Some "false") (Some "true") =
       Some (with_call (Some CALL_TYPE_INCOMING)
               (Some (TrackerScenario.time_as_given "2011-01-01T10:00:00Z"))
               zeroed_contact).
Proof.
  split.
  - exact (proj1 (set_call_type_classifies TrackerScenario.time_as_given
                    zeroed_contact (Some "NOTACALL") None None) eq_refl).
  - refine (proj1 (proj2 (proj1 (proj2
              (set_call_type_classifies TrackerScenario.time_as_given
                 zeroed_contact (Some "2011-01-01T10:00:00Z")
                 (Some "false") (Some "true")))
              "2011-01-01T10:00:00Z" "false" "true" eq_refl _ eq_refl eq_refl)) _ eq_refl);
      discriminate.
Defined.

Lemma split_at_none (d : ascii) (s : string) :
  ~ occurs d s -> split_at d s = None.
Proof.
  unfold occurs. induction s as [| c s IH]; simpl; [reflexivity |].
  intros H. destruct (Ascii.eqb_spec c d) as [-> | Hne]; [tauto |].
  rewrite IH; [reflexivity | tauto].
Qed.

Lemma split_at_first (d : ascii) (a b : string) :
  ~ occurs d a -> split_at d (a ++ String d b) = Some (a, b).
Proof.
  unfold occurs. induction a as [| c a IH]; simpl.
  - intros _. rewrite Ascii.eqb_refl. reflexivity.
  - intros H. destruct (Ascii.eqb_spec c d) as [-> | Hne]; [tauto |].
    rewrite IH; [reflexivity | tauto].
Qed.

Lemma g_strsplit_two (d : ascii) (s : string) :
  g_strsplit (Some s) d 2 =
    Some match s with
         | EmptyString => []
         | _ => match split_at d s with
                | Some (a, r) => [a; r]
                | None => [s]
                end
         end.
Proof. destruct s; reflexivity. Qed.

(** X10: [add_main_number] cuts its string at the first [SUB_DELIM]
    only: what comes before is the type, everything after it (further
    delimiters included) is the number, added as FAX when the type
    mentions the fax class, else as MOBILE when it mentions the cell
    phone class, else as OTHER.  A string without [SUB_DELIM] adds
    nothing. *)
Theorem add_main_number_cuts_once (c : phonebook_contact) (pnumber : string) :
  (~ occurs SUB_DELIM pnumber -> add_main_number c pnumber = c)
  /\ (forall type number,
        ~ occurs SUB_DELIM type ->
        pnumber = type ++ String SUB_DELIM number ->
        add_main_number c pnumber =
          add_phone_number c (Some number) (main_number_type type)).
Proof.
  unfold add_main_number. rewrite g_strsplit_two. split.
  - intros H. rewrite (split_at_none _ _ H).
    destruct pnumber; reflexivity.
  - intros type number Ht ->. rewrite (split_at_first _ _ _ Ht).
    unfold main_number_type.
    destruct (type ++ String SUB_DELIM number) eqn:E;
      [destruct type; discriminate E |].
    destruct (g_strrstr type FAX_NUM_TYPE), (g_strrstr type MOBILE_NUM_TYPE);
      reflexivity.
Qed.

Lemma add_main_number_cuts_once_witness :
  numbers (add_main_number zeroed_contact
             (MOBILE_NUM_TYPE ++ String SUB_DELIM "555")) =
    [{| tel := "555"; tel_type := TEL_TYPE_MOBILE |}].
Proof.
  rewrite (proj2 (add_main_number_cuts_once zeroed_contact
                    (MOBILE_NUM_TYPE ++ String SUB_DELIM "555"))
             MOBILE_NUM_TYPE "555").
  - reflexivity.
  - unfold occurs. simpl. intros H.
    repeat (destruct H as [H | H]; [discriminate H |]). exact H.
  - reflexivity.
Defined.

End ContactSpec.

(** ** The tracker back-end: gathering the contacts of a reply *)

Module PullSpec.
Import GLib Phonebook Tracker Derived ContactSpec.

Local Open Scope string_scope.

Lemma find_contact_None (l : list contact_data) (id : option string) :
  find_contact l id = None <-> id ∉ map cd_id l.
Proof.
  induction l as [| c l IH]; simpl.
  - split; [intros _; apply not_elem_of_nil | reflexivity].
  - rewrite not_elem_of_cons.
    destruct (Z.eqb (g_strcmp0 (cd_id c) id) 0) eqn:E.
    + apply g_strcmp0_zero in E. split; [discriminate | intros [H _]; congruence].
    + assert (cd_id c <> id).
      { intros H. apply g_strcmp0_zero in H. congruence. }
      destruct (find_contact l id) eqn:F.
      * split; [discriminate |]. intros [_ H']. apply IH in H'. discriminate.
      * split; [intros _ | reflexivity]. split; [congruence | apply IH; reflexivity].
Qed.

Lemma find_contact_Some (l : list contact_data) (id : option string) (pos : nat) :
  find_contact l id = Some pos -> exists c, l !! pos = Some c /\ cd_id c = id.
Proof.
  revert pos. induction l as [| c l IH]; simpl; [discriminate |]. intros pos.
  destruct (Z.eqb (g_strcmp0 (cd_id c) id) 0) eqn:E.
  - intros [= <-]. apply g_strcmp0_zero in E. eauto.
  - destruct (find_contact l id) as [n |]; [| discriminate].
    intros [= <-]. apply (IH n). reflexivity.
Qed.

Section Pull.

Variable address_fields_present : string -> bool.
Variable phonebook_add_contact : string -> phonebook_contact -> Z -> Z -> string.
Variable iso8601_utc_to_localtime : string -> string.

Let pull := pull_contacts address_fields_present phonebook_add_contact
              iso8601_utc_to_localtime.

Lemma add_entry_label_appends (reply : row) (id : option string)
    (data data' : phonebook_data) :
  add_entry_label address_fields_present iso8601_utc_to_localtime reply id data =
    Some data' ->
  exists c,
    data' = set_contacts (contacts data ++ [{| cd_id := id; cd_contact := c |}]) data.
Proof.
  unfold add_entry_label.
  destruct (contact_init _ _ _) as [c0 |]; [| discriminate].
  destruct (add_numbers_label _ _ _) as [c |]; [| discriminate].
  intros [= <-]. eauto.
Qed.

(** The ways [pull_contacts] leaves a row. *)
Lemma pull_row_shape (reply : row) (num_fields : Z) (data data' : phonebook_data) :
  pull (Some reply) num_fields data = Some data' ->
  Z.ltb num_fields 0 = false ->
  contacts_freed data = false
  /\ exists id,
    col reply CONTACTS_ID_COL = Some id
    /\ ((exists pos c c',
           contacts data !! pos = Some c /\ cd_id c = id
           /\ add_numbers_label address_fields_present (cd_contact c) reply = Some c'
           /\ data' = set_contacts
                        (<[pos := {| cd_id := cd_id c; cd_contact := c' |}]>
                           (contacts data)) data)
        \/ (id ∉ ids data)
           /\ ((vcardentry data = true
                /\ exists c, data' = set_contacts
                                       (contacts data
                                          ++ [{| cd_id := id; cd_contact := c |}])
                                       data)
               \/ vcardentry data = false
                  /\ (data' = data
                      \/ (temp_id data <> id
                          /\ data' = set_index (index data + 1) id data
                          /\ outside data')
                      \/ exists d1 c,
                           ((d1 = data /\ temp_id data = id)
                            \/ (d1 = set_index (index data + 1) id data
                                /\ temp_id data <> id))
                           /\ ~ outside d1
                           /\ data' = set_contacts
                                        (contacts d1
                                           ++ [{| cd_id := id; cd_contact := c |}])
                                        d1))).
Proof.
  unfold pull, pull_contacts. intros H Hnf. rewrite Hnf in H.
  destruct (contacts_freed data) eqn:Hfreed; [discriminate |].
  split; [reflexivity |].
  destruct (col reply CONTACTS_ID_COL) as [id |]; [| discriminate].
  exists id. split; [reflexivity |].
  destruct (find_contact (contacts data) id) as [pos |] eqn:Hfind.
  - left. apply find_contact_Some in Hfind. destruct Hfind as (c & Hc & Hid).
    rewrite Hc in H.
    destruct (add_numbers_label _ (cd_contact c) reply) as [c' |] eqn:Hadd;
      [| discriminate].
    injection H as <-. exists pos, c, c'. auto.
  - right. apply find_contact_None in Hfind. split; [exact Hfind |].
    destruct (vcardentry data) eqn:Hentry.
    + left. split; [reflexivity |]. eapply add_entry_label_appends, H.
    + right. split; [reflexivity |].
      destruct (scan_empty reply 0 _) as [i |]; [| discriminate].
      match type of H with
      | match ?s with _ => _ end = _ => destruct s as [[|] |]; [| | discriminate]
      end.
      { injection H as <-. left. reflexivity. }
      destruct (Z.eqb (g_strcmp0 (temp_id data) id) 0) eqn:Hcmp; simpl in H.
      * apply g_strcmp0_zero in Hcmp.
        match type of H with
        | (if ?b then _ else _) = _ => destruct b eqn:Hout
        end.
        { injection H as <-. left. reflexivity. }
        right. right. apply add_entry_label_appends in H. destruct H as (c & ->).
        exists data, c. split; [left; auto |]. split; [| reflexivity].
        unfold outside. intros [Hw Hm].
        apply andb_false_iff in Hout. destruct Hout as [Hout | Hout].
        -- apply orb_false_iff in Hout. destruct Hout as [H1 H2].
           apply Z.leb_gt in H1. apply Z.ltb_ge in H2. lia.
        -- apply Z.ltb_ge in Hout. lia.
      * assert (Hne : temp_id data <> id).
        { intros E. apply g_strcmp0_zero in E. congruence. }
        destruct (Z.eqb (index data) INT_MAX); [discriminate |].
        match type of H with
        | (if ?b then _ else _) = _ => destruct b eqn:Hout
        end.
        { injection H as <-. right. left. split; [exact Hne |].
          split; [reflexivity |]. unfold outside. simpl in *.
          apply andb_true_iff in Hout. destruct Hout as [Hout Hm].
          apply Z.ltb_lt in Hm. apply orb_true_iff in Hout.
          rewrite Z.leb_le, Z.ltb_lt in Hout. tauto. }
        right. right. apply add_entry_label_appends in H. destruct H as (c & ->).
        eexists _, c. split; [right; split; [reflexivity | exact Hne] |].
        split; [| reflexivity].
        unfold outside. simpl in *. intros [Hw Hm].
        apply andb_false_iff in Hout. destruct Hout as [Hout | Hout].
        -- apply orb_false_iff in Hout. destruct Hout as [H1 H2].
           apply Z.leb_gt in H1. apply Z.ltb_ge in H2. lia.
        -- apply Z.ltb_ge in Hout. lia.
Qed.

Lemma ids_insert (l : list contact_data) (pos : nat) (c : contact_data)
    (c' : phonebook_contact) :
  l !! pos = Some c ->
  map cd_id (<[pos := {| cd_id := cd_id c; cd_contact := c' |}]> l) = map cd_id l.
Proof.
  intros H. rewrite list_fmap_insert. simpl.
  apply list_insert_id. rewrite list_lookup_fmap, H. reflexivity.
Qed.

(** What [pull_contacts] does to the contacts when it is not given a
    row: nothing. *)
Lemma pull_end_contacts (reply : option row) (num_fields : Z)
    (data data' : phonebook_data) :
  pull reply num_fields data = Some data' ->
  Z.ltb num_fields 0 = true \/ reply = None ->
  contacts data' = contacts data /\ index data' = index data
  /\ params data' = params data /\ vcardentry data' = vcardentry data
  /\ temp_id data' = None
  /\ contacts_freed data' = match contacts data with [] => false | _ => true end.
Proof.
  unfold pull, pull_contacts. intros H Hend.
  destruct (contacts_freed data); [discriminate |].
  destruct (Z.ltb num_fields 0).
  - injection H as <-. simpl. tauto.
  - destruct Hend as [? | ->]; [discriminate |].
    injection H as <-. destruct (Z.eqb num_fields 0); simpl; tauto.
Qed.

(** X11: [pull_contacts] never lists an identifier twice: when the
    contacts gathered so far have distinct identifiers, so have the
    contacts after any call that returns, be it for a row, for the end
    of the reply or for an error, with or without a window. *)
Theorem pull_keeps_ids_distinct (reply : option row) (num_fields : Z)
    (data data' : phonebook_data) :
  NoDup (ids data) ->
  pull reply num_fields data = Some data' ->
  NoDup (ids data').
Proof.
  intros Hnd H. unfold ids in *.
  destruct (Z.ltb num_fields 0) eqn:Hnf.
  { apply pull_end_contacts in H; [| auto]. destruct H as (-> & _). exact Hnd. }
  destruct reply as [reply |].
  2: { apply pull_end_contacts in H; [| auto]. destruct H as (-> & _). exact Hnd. }
  apply pull_row_shape in H; [| exact Hnf].
  destruct H as (_ & id & _ & [(pos & c & c' & Hc & _ & _ & ->) | (Hid & H)]).
  - simpl. rewrite (ids_insert _ _ _ _ Hc). exact Hnd.
  - assert (Happ : forall c, NoDup (map cd_id (contacts data
                                 ++ [{| cd_id := id; cd_contact := c |}]))).
    { intros c. rewrite map_app. simpl. apply NoDup_app.
      split; [exact Hnd |]. split; [| apply NoDup_singleton].
      intros y Hy Hy'. apply list_elem_of_singleton in Hy'. subst.
      apply Hid, Hy. }
    destruct H as [(_ & c & ->) | (_ & [-> | [(_ & -> & _) | H]])];
      try exact Hnd; try apply Happ.
    destruct H as (d1 & c & [[-> _] | [-> _]] & _ & ->); apply Happ.
Qed.

Lemma within_window_bound (data : phonebook_data) :
  0 <= maxlistcount (params data) ->
  within_window data ->
  Z.of_nat (length (contacts data)) <= maxlistcount (params data).
Proof. unfold within_window. intros Hm [H _]. lia. Qed.

Lemma within_window_step (reply : option row) (num_fields : Z)
    (data data' : phonebook_data) :
  vcardentry data = false ->
  0 < maxlistcount (params data) ->
  0 <= liststartoffset (params data) ->
  within_window data ->
  pull reply num_fields data = Some data' ->
  within_window data'
  /\ Z.of_nat (length (contacts data')) <= maxlistcount (params data).
Proof.
  intros Hentry Hmax Hoff HW H.
  assert (Hp : params data' = params data /\ within_window data').
  { destruct HW as [W1 W2].
    assert (Hend : Z.ltb num_fields 0 = true \/ reply = None ->
                   params data' = params data /\ within_window data').
    { intros Hend. apply pull_end_contacts in H; [| exact Hend].
      destruct H as (Hc & Hi & Hp & _ & Ht & Hfr). split; [exact Hp |].
      unfold within_window, outside, ids. rewrite Hc, Hi, Hp, Hfr.
      split; [exact W1 |]. intros Hnil Hin _.
      destruct (contacts data); [simpl; lia | discriminate]. }
    destruct (Z.ltb num_fields 0) eqn:Hnf; [auto |].
    destruct reply as [reply |]; [| auto]. clear Hend.
    apply pull_row_shape in H; [| exact Hnf].
    destruct H as (Hfr & id & _ & [(pos & c & c' & Hc & _ & _ & ->) | (Hid & H)]).
    - split; [reflexivity |].
      unfold within_window, outside, ids in *. simpl.
      rewrite length_insert, (ids_insert _ _ _ _ Hc). auto.
    - destruct H as [(He & _) | (_ & [-> | [(Hne & -> & Hout) | H]])].
      + congruence.
      + split; [reflexivity | split; assumption].
      + split; [reflexivity |].
        unfold within_window, outside in *. simpl in *.
        split; [lia | tauto].
      + destruct H as (d1 & c & Hd1 & Hin & ->). split.
        { destruct Hd1 as [[-> _] | [-> _]]; reflexivity. }
        assert (Hlen : Z.of_nat (length (contacts data)) + 1 <=
                       index d1 - liststartoffset (params data)
                       /\ params d1 = params data /\ temp_id d1 = id
                       /\ contacts d1 = contacts data
                       /\ index d1 <= liststartoffset (params data)
                                       + maxlistcount (params data)).
        { destruct Hd1 as [[-> Ht] | [-> Ht]].
          - unfold outside, ids in *.
            assert (Z.of_nat (length (contacts data)) <
                    index data - liststartoffset (params data))
              by (apply W2; [exact Hfr | exact Hin | congruence]).
            split; [lia |]. split; [reflexivity |]. split; [exact Ht |].
            split; [reflexivity | lia].
          - unfold outside in Hin. simpl in *.
            split; [lia |]. split; [reflexivity |]. split; [reflexivity |].
            split; [reflexivity | lia]. }
        destruct Hlen as (Hlen & Hp1 & Ht1 & Hc1 & Hlast).
        unfold within_window, outside, ids. simpl.
        rewrite Hp1, Hc1, Ht1, length_app, map_app. simpl. split; [lia |].
        intros _ _ Hnot. exfalso. apply Hnot.
        apply elem_of_app. right. apply list_elem_of_singleton. reflexivity. }
  destruct Hp as [Hp HW']. split; [exact HW' |].
  rewrite <- Hp. apply within_window_bound; [rewrite Hp; lia | exact HW'].
Qed.

(** X12: with a window ([maxlistcount] positive, start offset not
    negative) and outside [PullvCardEntry], the counting of
    [pull_contacts] keeps the contacts within the window through every
    call that returns, so that there are never more than [maxlistcount]
    of them. *)
Theorem pull_stays_within_window (reply : option row) (num_fields : Z)
    (data data' : phonebook_data) :
  vcardentry data = false ->
  0 < maxlistcount (params data) ->
  0 <= liststartoffset (params data) ->
  within_window data ->
  pull reply num_fields data = Some data' ->
  within_window data'
  /\ Z.of_nat (length (contacts data')) <= maxlistcount (params data).
Proof. apply within_window_step. Qed.

(** What a call of [pull_contacts] that returns leaves of the request,
    and what it reports. *)
Lemma pull_calls (reply : option row) (num_fields : Z) (data data' : phonebook_data) :
  pull reply num_fields data = Some data' ->
  vcardentry data' = vcardentry data /\ params data' = params data
  /\ cb_calls data' =
       (cb_calls data ++
        if Z.ltb num_fields 0 then [PhonebookCb None 0 num_fields 0]
        else match reply with
             | Some _ => []
             | None =>
                 if Z.eqb num_fields 0
                 then let vcards := gen_vcards phonebook_add_contact (contacts data)
                                      (params data) in
                      [PhonebookCb (Some vcards) (Z.of_nat (String.length vcards))
                         (Z.of_nat (length (contacts data))) 0]
                 else []
             end)%list.
Proof.
  intros H. destruct (Z.ltb num_fields 0) eqn:Hnf; [| destruct reply as [reply |]].
  - unfold pull, pull_contacts in H. rewrite Hnf in H.
    destruct (contacts_freed data); [discriminate |].
    injection H as <-. simpl. auto.
  - apply pull_row_shape in H; [| exact Hnf]. rewrite app_nil_r.
    destruct H as (_ & id & _ & [(pos & c & c' & _ & _ & _ & ->) | (_ & H)]);
      [simpl; auto |].
    destruct H as [(_ & c & ->) | (_ & [-> | [(_ & -> & _) | H]])]; simpl; auto.
    destruct H as (d1 & c & [[-> _] | [-> _]] & _ & ->); simpl; auto.
  - unfold pull, pull_contacts in H. rewrite Hnf in H.
    destruct (contacts_freed data); [discriminate |].
    injection H as <-. destruct (Z.eqb num_fields 0); simpl; rewrite ?app_nil_r; auto.
Qed.

Lemma pull_freed (reply : option row) (num_fields : Z) (data : phonebook_data) :
  contacts_freed data = true -> pull reply num_fields data = None.
Proof. intros H. unfold pull, pull_contacts. rewrite H. reflexivity. Qed.

(** X13: a row that [string_array_from_iter] turns down (an element of
    it is not a string) is handed to [pull_contacts] as a NULL row with
    the number of columns: [pull_contacts] then frees the contacts
    gathered so far without reporting anything, and keeps the pointer
    to them.  When there was at least one contact, whatever follows in
    [query_reply], a further row or the call that ends the reply, works
    on the freed list: the reply has no defined outcome. *)
Theorem bad_row_after_contact (num_fields : Z) (sub rest : list dbus_value)
    (data : phonebook_data) :
  0 < num_fields ->
  string_array_from_iter (DBusArray sub) num_fields = Some None ->
  contacts data <> [] ->
  reply_rows pull num_fields (DBusArray sub :: rest) data = None.
Proof.
  intros Hnf Hbad Hc. cbn [reply_rows]. rewrite Hbad.
  destruct (pull None num_fields data) as [d1 |] eqn:H1; [| reflexivity].
  assert (Hfreed : contacts_freed d1 = true).
  { apply pull_end_contacts in H1; [| auto]. destruct H1 as (_ & _ & _ & _ & _ & ->).
    destruct (contacts data); [contradiction | reflexivity]. }
  destruct rest as [| [s | elements |] rest]; cbn [reply_rows];
    try apply pull_freed, Hfreed.
  destruct (string_array_from_iter (DBusArray elements) num_fields);
    [| reflexivity].
  rewrite (pull_freed _ _ _ Hfreed). reflexivity.
Qed.

Lemma rows_within_window (num_fields : Z) (element : list dbus_value) :
  0 < num_fields ->
  forall data data',
    vcardentry data = false ->
    0 < maxlistcount (params data) ->
    0 <= liststartoffset (params data) ->
    within_window data ->
    cb_calls data = [] ->
    reply_rows pull num_fields element data = Some data' ->
    exists buffer size,
      cb_calls data' =
        [PhonebookCb buffer size (Z.of_nat (length (contacts data'))) 0]
      /\ Z.of_nat (length (contacts data')) <= maxlistcount (params data).
Proof.
  intros Hnf.
  assert (Hend : forall data data',
            vcardentry data = false ->
            0 < maxlistcount (params data) ->
            0 <= liststartoffset (params data) ->
            within_window data ->
            cb_calls data = [] ->
            pull None 0 data = Some data' ->
            exists buffer size,
              cb_calls data' =
                [PhonebookCb buffer size (Z.of_nat (length (contacts data'))) 0]
              /\ Z.of_nat (length (contacts data')) <= maxlistcount (params data)).
  { intros data data' He Hm Ho HW Hcalls H.
    pose proof (pull_calls _ _ _ _ H) as (_ & _ & Hc).
    pose proof (pull_end_contacts _ _ _ _ H (or_intror eq_refl)) as (Hsame & _).
    rewrite Hcalls in Hc. simpl in Hc. rewrite Hc, Hsame.
    eexists _, _. split; [reflexivity |].
    apply within_window_bound; [lia | exact HW]. }
  induction element as [| e rest IH]; intros data data' He Hm Ho HW Hcalls H.
  - apply (Hend data); assumption.
  - destruct e as [s | sub |]; cbn [reply_rows] in H;
      try (apply (Hend data); assumption).
    destruct (string_array_from_iter (DBusArray sub) num_fields) as [node |];
      [| discriminate].
    destruct (pull node num_fields data) as [d1 |] eqn:H1; [| discriminate].
    pose proof (pull_calls _ _ _ _ H1) as (He1 & Hp1 & Hc1).
    pose proof (within_window_step _ _ _ _ He Hm Ho HW H1) as [HW1 _].
    assert (Hnf' : Z.ltb num_fields 0 = false) by (apply Z.ltb_ge; lia).
    assert (Hnz : Z.eqb num_fields 0 = false) by (apply Z.eqb_neq; lia).
    rewrite Hnf', Hnz, Hcalls in Hc1.
    assert (Hc1' : cb_calls d1 = []) by (destruct node; exact Hc1).
    rewrite <- Hp1 in *.
    apply (IH d1 data'); try assumption. congruence.
Qed.

(** X14: [query_reply] feeding [pull_contacts] for a pull with a window
    ([maxlistcount] positive, start offset not negative, [num_fields]
    positive), whenever it comes to an end, has reported exactly once,
    and the number of vCards it has reported is either -1, for a reply
    that is an error or not an array, or the number of contacts
    gathered, which is at most [maxlistcount]. *)
Theorem reply_reports_within_window (reply : tracker_reply) (num_fields : Z)
    (p : apparam_field) (data' : phonebook_data) :
  0 < num_fields ->
  0 < maxlistcount p ->
  0 <= liststartoffset p ->
  query_reply pull reply num_fields (new_phonebook_data false p) = Some data' ->
  exists buffer size n,
    cb_calls data' = [PhonebookCb buffer size n 0]
    /\ n <= maxlistcount p
    /\ (n = -1 \/ n = Z.of_nat (length (contacts data'))).
Proof.
  intros Hnf Hm Ho H.
  assert (Herr : pull None (-1) (new_phonebook_data false p) = Some data' ->
                 exists buffer size n,
                   cb_calls data' = [PhonebookCb buffer size n 0]
                   /\ n <= maxlistcount p
                   /\ (n = -1 \/ n = Z.of_nat (length (contacts data')))).
  { intros [= <-]. exists None, 0, (-1). simpl. split; [reflexivity |]. lia. }
  destruct reply as [| [| [s | element |] args]]; cbn [query_reply] in H; auto.
  apply rows_within_window in H; try assumption; try reflexivity.
  - destruct H as (buffer & size & Hc & Hle).
    exists buffer, size, (Z.of_nat (length (contacts data'))). auto.
  - unfold within_window, outside, ids. simpl. split; [lia |].
    intros _ Hin _. lia.
Qed.

End Pull.

Lemma pull_keeps_ids_distinct_witness : NoDup (ids TrackerScenario.after_jo).
Proof.
  apply (pull_keeps_ids_distinct TrackerScenario.present_always
           TrackerScenario.card_of TrackerScenario.time_as_given
           (Some TrackerScenario.jo_row) 26
           (new_phonebook_data false TrackerScenario.ten_from_start)
           TrackerScenario.after_jo).
  - constructor.
  - reflexivity.
Defined.

Lemma pull_stays_within_window_witness :
  within_window TrackerScenario.after_jo
  /\ Z.of_nat (length (contacts TrackerScenario.after_jo)) <= 10.
Proof.
  apply (pull_stays_within_window TrackerScenario.present_always
           TrackerScenario.card_of TrackerScenario.time_as_given
           (Some TrackerScenario.jo_row) 26
           (new_phonebook_data false TrackerScenario.ten_from_start)
           TrackerScenario.after_jo).
  - reflexivity.
  - reflexivity.
  - discriminate.
  - unfold within_window, outside. simpl. split; [lia |]. intros _ H. lia.
  - reflexivity.
Defined.

Lemma bad_row_after_contact_witness :
  reply_rows
    (pull_contacts TrackerScenario.present_always TrackerScenario.card_of
       TrackerScenario.time_as_given)
    26 [DBusArray [DBusOther]] TrackerScenario.after_jo = None.
Proof.
  apply (bad_row_after_contact TrackerScenario.present_always
           TrackerScenario.card_of TrackerScenario.time_as_given
           26 [DBusOther] [] TrackerScenario.after_jo).
  - reflexivity.
  - reflexivity.
  - discriminate.
Defined.

Lemma reply_reports_within_window_witness :
  exists buffer size n,
    cb_calls TrackerScenario.after_jo_reply = [PhonebookCb buffer size n 0]
    /\ n <= 10
    /\ (n = -1 \/ n = Z.of_nat (length (contacts TrackerScenario.after_jo_reply))).
Proof.
  apply (reply_reports_within_window TrackerScenario.present_always
           TrackerScenario.card_of TrackerScenario.time_as_given
           TrackerScenario.jo_reply 26 TrackerScenario.ten_from_start
           TrackerScenario.after_jo_reply).
  - reflexivity.
  - reflexivity.
  - discriminate.
  - reflexivity.
Defined.

End PullSpec.

(** ** The tracker back-end: reading a reply *)

Module ReplySpec.
Import GLib Phonebook Tracker Derived ContactSpec PullSpec.

Local Open Scope string_scope.

Lemma fill_strings_fits (strs : list string) :
  forall (i : nat) (result : row),
    (i + length strs <= length result)%nat ->
    fill_strings (map DBusString strs) i result =
      Some match result with
           | [] => None
           | _ => Some (take i result ++ map Some strs
                          ++ drop (i + length strs) result)%list
           end.
Proof.
  unfold row. induction strs as [| s strs IH]; intros i result Hlen;
    cbn [map fill_strings length] in *; unfold row in *.
  - rewrite Nat.add_0_r. cbn [app]. rewrite take_drop. reflexivity.
  - assert (Hi : (i < length result)%nat) by lia.
    apply Nat.ltb_lt in Hi as Hi'. rewrite Hi'.
    rewrite IH by (rewrite length_insert; lia).
    destruct result as [| r0 result]; [simpl in Hi; lia |].
    assert (Hins : <[i:=Some s]> (r0 :: result) <> []).
    { intros E. apply (f_equal length) in E. rewrite length_insert in E.
      discriminate E. }
    destruct (<[i:=Some s]> (r0 :: result)) as [| r1 result'] eqn:E;
      [contradiction |].
    rewrite <- E. f_equal. f_equal.
    rewrite (take_S_r _ _ (Some s)) by (apply list_lookup_insert_eq, Hi).
    rewrite take_insert_ge by lia.
    rewrite drop_insert_lt by lia.
    replace (S i + length strs)%nat with (i + S (length strs))%nat by lia.
    rewrite <- app_assoc. reflexivity.
Qed.

Lemma fill_strings_overflow (strs : list string) :
  forall (i : nat) (result : row),
    (length result < i + length strs)%nat ->
    (i <= length result)%nat ->
    fill_strings (map DBusString strs) i result = None.
Proof.
  unfold row. induction strs as [| s strs IH]; intros i result Hlen Hi;
    cbn [map fill_strings length] in *; unfold row in *; [lia |].
  destruct (Nat.ltb_spec i (length result)) as [Hlt | Hge]; [| reflexivity].
  apply IH; rewrite length_insert; lia.
Qed.

(** X15: [string_array_from_iter] given an array of strings and a
    positive number of columns returns the strings in their order,
    followed by NULL up to the number of columns, as long as there are
    no more strings than columns; with more strings than columns it
    writes behind the array it has allocated. *)
Theorem string_array_bounds (strs : list string) (array_len : Z) :
  0 < array_len ->
  ((Z.of_nat (length strs) <= array_len ->
    string_array_from_iter (DBusArray (map DBusString strs)) array_len =
      Some (Some (map Some strs
                    ++ replicate (Z.to_nat array_len - length strs) None)%list))
   /\ (array_len < Z.of_nat (length strs) ->
       string_array_from_iter (DBusArray (map DBusString strs)) array_len = None)).
Proof.
  intros Hpos. unfold string_array_from_iter.
  assert (Z.ltb array_len 0 = false) as -> by (apply Z.ltb_ge; lia).
  split; intros Hlen.
  - rewrite fill_strings_fits by (rewrite length_replicate; lia).
    destruct (replicate (Z.to_nat array_len) None) as [| r0 r] eqn:E.
    { apply (f_equal length) in E. rewrite length_replicate in E. simpl in E. lia. }
    rewrite <- E. rewrite drop_replicate. reflexivity.
  - apply fill_strings_overflow; rewrite length_replicate; lia.
Qed.

Lemma string_array_bounds_witness :
  string_array_from_iter (DBusArray (map DBusString ["a"; "b"; "c"])) 2 = None.
Proof.
  apply (proj2 (string_array_bounds ["a"; "b"; "c"] 2 ltac:(lia))).
  simpl. lia.
Defined.

Lemma record_rows (num_fields : Z) (element : list dbus_value) :
  forall log log',
    reply_rows record_call num_fields element log = Some log' ->
    exists rows,
      log' = (log ++ rows ++ [(None, 0)])%list
      /\ Forall (fun c => snd c = num_fields) rows
      /\ (length rows <= length element)%nat.
Proof.
  induction element as [| e rest IH]; intros log log' H.
  - injection H as <-. exists []. simpl. auto with lia.
  - destruct e as [s | sub |]; cbn [reply_rows] in H;
      try (injection H as <-; exists []; simpl; auto with lia).
    destruct (string_array_from_iter (DBusArray sub) num_fields) as [node |];
      [| discriminate].
    cbn [record_call] in H. apply IH in H. destruct H as (rows & -> & Hrows & Hlen).
    exists ((node, num_fields) :: rows). rewrite <- app_assoc. simpl.
    split; [reflexivity |]. split; [constructor; [reflexivity | exact Hrows] | lia].
Qed.

(** X16: whatever the reply, a [query_reply] that comes to an end has
    called its consumer one last time with a NULL row and a status that
    is 0 or -1, after calls that all carried the number of columns of
    the request; the status is -1, and there is no call before, exactly
    when the reply is an error or does not start with an array. *)
Theorem query_reply_ends_once (reply : tracker_reply) (num_fields : Z)
    (log : list (option row * Z)) :
  query_reply record_call reply num_fields [] = Some log ->
  exists rows err,
    log = (rows ++ [(None, err)])%list
    /\ Forall (fun c => snd c = num_fields) rows
    /\ ((err = 0 /\ is_array_reply reply)
        \/ (err = -1 /\ rows = [] /\ ~ is_array_reply reply)).
Proof.
  intros H.
  assert (Hno : ~ is_array_reply reply ->
                query_reply record_call reply num_fields [] = Some [(None, -1)]).
  { intros Hn. destruct reply as [| [| [s | element |] args]]; try reflexivity.
    exfalso. apply Hn. unfold is_array_reply. eauto. }
  destruct reply as [| [| [s | element |] args]].
  1, 2, 3, 5:
    (rewrite Hno in H by (intros (e & a & E); discriminate E);
     injection H as <-; exists [], (-1); split; [reflexivity |];
     split; [constructor |]; right;
     split; [reflexivity |]; split; [reflexivity |];
     intros (e & a & E); discriminate E).
  cbn [query_reply] in H. apply record_rows in H.
  destruct H as (rows & -> & Hrows & _).
  exists rows, 0. split; [reflexivity |]. split; [exact Hrows |].
  left. split; [reflexivity |]. unfold is_array_reply. eauto.
Qed.

Lemma query_reply_ends_once_witness :
  exists rows err,
    [(Some [Some "7"], 1); (None, 0)] = (rows ++ [(None, err)])%list
    /\ Forall (fun c : option row * Z => snd c = 1) rows
    /\ ((err = 0 /\ is_array_reply (SparqlReply [DBusArray [count_row "7"]]))
        \/ (err = -1 /\ rows = []
            /\ ~ is_array_reply (SparqlReply [DBusArray [count_row "7"]]))).
Proof.
  exact (query_reply_ends_once (SparqlReply [DBusArray [count_row "7"]]) 1
           [(Some [Some "7"], 1); (None, 0)] eq_refl).
Defined.

Section Count.

Variable atoi : string -> Z.

Lemma count_rows (counts : list string) :
  forall data,
    reply_rows (pull_contacts_size atoi) 1 (map count_row counts) data =
      Some (call_cb (PhonebookCb None 0
                       (match last counts with
                        | Some c => atoi c
                        | None => index data
                        end) 0)
              (match last counts with
               | Some c => set_index (atoi c) (temp_id data) data
               | None => data
               end)).
Proof.
  induction counts as [| c counts IH]; intros data; [reflexivity |].
  change (map count_row (c :: counts))
    with (DBusArray [DBusString c] :: map count_row counts).
  cbn [reply_rows].
  change (string_array_from_iter (DBusArray [DBusString c]) 1)
    with (Some (Some [Some c])).
  cbv iota beta.
  change (pull_contacts_size atoi (Some [Some c]) 1 data)
    with (Some (set_index (atoi c) (temp_id data) data)).
  cbv iota beta. rewrite IH.
  destruct counts as [| c' counts]; [reflexivity |].
  change (last (c :: c' :: counts)) with (last (c' :: counts)).
  destruct (last (c' :: counts)) eqn:E; [reflexivity |].
  apply last_None in E. discriminate E.
Qed.

(** X17: a count query ([maxlistcount] zero) whose reply is an array of
    rows of one column is answered with exactly one report, without
    vCards, whose number is the number read from the last row, or 0
    when there is no row; an error reply is reported as -1. *)
Theorem count_reports_last_row (counts : list string) (args : list dbus_value)
    (p : apparam_field) :
  (exists data',
     query_reply (pull_contacts_size atoi)
       (SparqlReply (DBusArray (map count_row counts) :: args)) 1
       (new_phonebook_data false p) = Some data'
     /\ cb_calls data' =
          [PhonebookCb None 0
             (match last counts with Some c => atoi c | None => 0 end) 0])
  /\ (exists data',
        query_reply (pull_contacts_size atoi) SparqlError 1
          (new_phonebook_data false p) = Some data'
        /\ cb_calls data' = [PhonebookCb None 0 (-1) 0]).
Proof.
  split.
  - cbn [query_reply]. rewrite count_rows. eexists. split; [reflexivity |].
    destruct (last counts); reflexivity.
  - eexists. split; reflexivity.
Qed.

End Count.

(** X18: [add_to_cache] on a row of the seven columns of the listing
    queries.  A row whose columns 1 to 6 are all empty is dropped,
    unless it is the owner's; any other row makes one entry, with the
    handle 0 for the owner and the invalid handle for everyone else,
    with column 6 as number, and with column 6 as name too when columns
    1 to 5 are empty and column 6 is not, else columns 1 to 5 joined by
    semicolons. *)
Theorem cache_entry_of_row (id c1 c2 c3 c4 c5 c6 : string)
    (cache : list callback_event) :
  let owner := g_str_equal id TRACKER_DEFAULT_CONTACT_ME in
  let blank :=
    match c1, c2, c3, c4, c5, c6 with
    | "", "", "", "", "", "" => true
    | _, _, _, _, _, _ => false
    end in
  add_to_cache (Some [Some id; Some c1; Some c2; Some c3; Some c4; Some c5; Some c6])
    7 cache =
    Some (if blank && negb owner then cache
          else cache ++ [EntryCb id
                           (if owner then Handle 0 else PHONEBOOK_INVALID_HANDLE)
                           (Some (cache_name c1 c2 c3 c4 c5 c6)) "" (Some c6)])%list.
Proof.
  intros owner blank. subst owner blank. unfold add_to_cache.
  destruct (g_str_equal id TRACKER_DEFAULT_CONTACT_ME) eqn:E;
    destruct c1; [destruct c2; [destruct c3; [destruct c4; [destruct c5;
      [destruct c6 |] |] |] |] | |
                  destruct c2; [destruct c3; [destruct c4; [destruct c5;
      [destruct c6 |] |] |] |] |];
    cbn -[g_str_equal TRACKER_DEFAULT_CONTACT_ME String.append];
    rewrite ?E; reflexivity.
Qed.

Lemma add_to_cache_row (reply : row) (num_fields : Z)
    (cache cache' : list callback_event) :
  0 <= num_fields ->
  add_to_cache (Some reply) num_fields cache = Some cache' ->
  cache' = cache
  \/ exists id handle name tel,
       cache' = (cache ++ [EntryCb id handle name "" tel])%list.
Proof.
  intros Hnf. unfold add_to_cache.
  assert (Z.ltb num_fields 0 = false) as -> by (apply Z.ltb_ge; lia).
  destruct (scan_empty reply 1 _) as [i |]; [| discriminate].
  match goal with
  | |- match ?s with _ => _ end = _ -> _ => destruct s as [[|] |]; [| | discriminate]
  end.
  { intros [= <-]. left. reflexivity. }
  match goal with
  | |- match ?s with _ => _ end = _ -> _ => destruct s as [name |]; [| discriminate]
  end.
  destruct (col reply 0) as [[id |] |]; try discriminate.
  destruct (col reply 6) as [tel |]; [| discriminate].
  destruct (g_str_equal id TRACKER_DEFAULT_CONTACT_ME); intros [= <-]; right; eauto.
Qed.

Lemma cache_rows (num_fields : Z) (element : list dbus_value) :
  0 < num_fields ->
  forall cache cache',
    reply_rows add_to_cache num_fields element cache = Some cache' ->
    exists entries,
      cache' = (cache ++ entries ++ [ReadyCb])%list /\ Forall is_entry entries.
Proof.
  intros Hnf.
  assert (Z.leb num_fields 0 = false) as Hle by (apply Z.leb_gt; lia).
  induction element as [| e rest IH]; intros cache cache' H.
  - injection H as <-. exists []. auto.
  - destruct e as [s | sub |]; cbn [reply_rows] in H;
      try (injection H as <-; exists []; auto).
    destruct (string_array_from_iter (DBusArray sub) num_fields) as [node |];
      [| discriminate].
    destruct (add_to_cache node num_fields cache) as [c1 |] eqn:H1; [| discriminate].
    apply IH in H. destruct H as (entries & -> & Hentries).
    destruct node as [reply |].
    + apply add_to_cache_row in H1; [| lia].
      destruct H1 as [-> | (id & handle & name & tel & ->)].
      * exists entries. auto.
      * exists (EntryCb id handle name "" tel :: entries).
        rewrite <- app_assoc. split; [reflexivity |].
        constructor; [exact I | exact Hentries].
    + unfold add_to_cache in H1. rewrite Hle in H1. injection H1 as <-.
      exists entries. auto.
Qed.

(** X19: [query_reply] feeding [add_to_cache], whenever it comes to an
    end, has declared the cache ready exactly once, as the last thing
    it did, after entries only; it does so for an error reply as well,
    which is thereby taken for an empty phonebook. *)
Theorem cache_ready_once (reply : tracker_reply) (num_fields : Z)
    (log : list callback_event) :
  0 < num_fields ->
  query_reply add_to_cache reply num_fields [] = Some log ->
  (exists entries, log = (entries ++ [ReadyCb])%list /\ Forall is_entry entries)
  /\ (~ is_array_reply reply -> log = [ReadyCb]).
Proof.
  intros Hnf H.
  destruct reply as [| [| [s | element |] args]].
  1, 2, 3, 5:
    (injection H as <-; split; [exists []; split; [reflexivity | constructor] |];
     reflexivity).
  cbn [query_reply] in H. apply cache_rows in H; [| exact Hnf].
  destruct H as (entries & -> & Hentries). split; [eauto |].
  intros Hn. exfalso. apply Hn. unfold is_array_reply. eauto.
Qed.

Lemma cache_ready_once_witness :
  exists entries,
    [EntryCb "contact:1" PHONEBOOK_INVALID_HANDLE (Some "Doe;Jo;;;") "" (Some "555");
     ReadyCb] = (entries ++ [ReadyCb])%list
    /\ Forall is_entry entries.
Proof.
  exact (proj1 (cache_ready_once TrackerScenario.listing_reply 7
                  [EntryCb "contact:1" PHONEBOOK_INVALID_HANDLE (Some "Doe;Jo;;;") ""
                     (Some "555"); ReadyCb]
                  ltac:(lia) eq_refl)).
Defined.

End ReplySpec.

(** ** The tracker back-end: replies the tracker is expected to send *)

Module WellFormedSpec.
Import GLib Phonebook Tracker Derived ContactSpec PullSpec ReplySpec.

Local Open Scope string_scope.

(** Reading the columns of a row whose entries are written out. *)
Ltac cols :=
  cbn [col lookup list_lookup COL_PHONE_AFF COL_FULL_NAME COL_FAMILY_NAME
       COL_GIVEN_NAME COL_ADDITIONAL_NAME COL_NAME_PREFIX COL_NAME_SUFFIX
       COL_EMAIL_CONTACT COL_ADDR_AFF COL_ADDR_CONTACT COL_PHONE_CONTACT
       COL_BIRTH_DATE COL_NICKNAME COL_URL COL_PHOTO COL_ORG_ROLE COL_UID
       COL_TITLE COL_AFF_TYPE COL_ORG_NAME COL_ORG_DEPARTMENT COL_EMAIL_AFF
       COL_DATE COL_SENT COL_ANSWERED CONTACTS_ID_COL].

Lemma row_of_strings (strs : list string) :
  length strs = 26%nat ->
  exists s0 s1 s2 s3 s4 s5 s6 s7 s8 s9 s10 s11 s12 s13 s14 s15 s16 s17 s18 s19
         s20 s21 s22 s23 s24 s25,
    strs = [s0; s1; s2; s3; s4; s5; s6; s7; s8; s9; s10; s11; s12; s13; s14; s15;
            s16; s17; s18; s19; s20; s21; s22; s23; s24; s25].
Proof.
  intros H.
  do 26 (destruct strs as [| ? strs]; [discriminate H |]).
  destruct strs; [| discriminate H].
  repeat eexists.
Qed.

Lemma string_array_of_pull_row (strs : list string) :
  length strs = 26%nat ->
  string_array_from_iter (DBusArray (map DBusString strs)) 26 =
    Some (Some (map Some strs)).
Proof.
  intros H. apply row_of_strings in H.
  destruct H as (s0 & s1 & s2 & s3 & s4 & s5 & s6 & s7 & s8 & s9 & s10 & s11 & s12
                 & s13 & s14 & s15 & s16 & s17 & s18 & s19 & s20 & s21 & s22 & s23
                 & s24 & s25 & ->).
  reflexivity.
Qed.

Lemma scan_empty_strings (strs : list string) (count : nat) :
  forall i, (i + count <= length strs)%nat ->
            is_Some (scan_empty (map Some strs) i count).
Proof.
  induction count as [| count IH]; intros i Hlen; simpl; [eauto |].
  unfold col, row. change (map Some strs) with (Some <$> strs).
  rewrite list_lookup_fmap.
  destruct (lookup_lt_is_Some_2 strs i ltac:(lia)) as [s ->]. simpl.
  destruct s; [apply IH; lia | eauto].
Qed.

Section Total.

Variable address_fields_present : string -> bool.
Variable phonebook_add_contact : string -> phonebook_contact -> Z -> Z -> string.
Variable iso8601_utc_to_localtime : string -> string.

Let pull := pull_contacts address_fields_present phonebook_add_contact
              iso8601_utc_to_localtime.

Lemma add_each_total {A}
    (add : phonebook_contact -> option string -> A -> phonebook_contact)
    (c : phonebook_contact) (pieces : option (list string)) (reply : row)
    (type_of : option string -> A) :
  is_Some (col reply COL_AFF_TYPE) ->
  is_Some (add_each add c pieces reply type_of).
Proof.
  intros [aff Haff]. unfold add_each. rewrite Haff.
  destruct pieces as [[| x l] |]; eauto.
Qed.

Lemma add_affiliation_total (field : string) (value : option string) :
  exists f, add_affiliation (Some field) value = Some (Some f).
Proof.
  unfold add_affiliation.
  destruct (negb (Nat.eqb (String.length field) 0)); [eauto |].
  destruct value as [v |]; [| eauto].
  destruct (Nat.eqb (String.length v) 0); eauto.
Qed.

Variables s0 s1 s2 s3 s4 s5 s6 s7 s8 s9 s10 s11 s12 s13 s14 s15 s16 s17 s18 s19
          s20 s21 s22 s23 s24 s25 : string.

Let strings : list string :=
  [s0; s1; s2; s3; s4; s5; s6; s7; s8; s9; s10; s11; s12; s13; s14; s15; s16; s17;
   s18; s19; s20; s21; s22; s23; s24; s25].
Let reply : row := map Some strings.

Lemma aff_type_present : is_Some (col reply COL_AFF_TYPE).
Proof. exists (Some s18). reflexivity. Qed.

Lemma contact_add_numbers_total (c : phonebook_contact) :
  is_Some (contact_add_numbers c reply).
Proof.
  unfold contact_add_numbers.
  change (col reply COL_PHONE_AFF) with (Some (Some s0)).
  change (col reply COL_PHONE_CONTACT) with (Some (Some s10)).
  destruct (add_each_total add_phone_number c (g_strsplit (Some s0) MAIN_DELIM MAX_FIELDS)
              reply get_phone_type aff_type_present) as [c1 ->].
  destruct (g_strsplit (Some s10) MAIN_DELIM MAX_FIELDS); eauto.
Qed.

Lemma contact_add_emails_total (c : phonebook_contact) :
  is_Some (contact_add_emails c reply).
Proof.
  unfold contact_add_emails.
  change (col reply COL_EMAIL_AFF) with (Some (Some s21)).
  change (col reply COL_EMAIL_CONTACT) with (Some (Some s7)).
  destruct (add_each_total add_email c (g_strsplit (Some s21) MAIN_DELIM MAX_FIELDS)
              reply get_email_type aff_type_present) as [c1 ->].
  destruct (g_strsplit (Some s7) MAIN_DELIM MAX_FIELDS); eauto.
Qed.

Lemma contact_add_addresses_total (c : phonebook_contact) :
  is_Some (contact_add_addresses address_fields_present c reply).
Proof.
  unfold contact_add_addresses.
  change (col reply COL_ADDR_AFF) with (Some (Some s8)).
  change (col reply COL_ADDR_CONTACT) with (Some (Some s9)).
  destruct (add_each_total (add_address address_fields_present) c
              (g_strsplit (Some s8) MAIN_DELIM MAX_FIELDS)
              reply get_addr_type aff_type_present) as [c1 ->].
  destruct (g_strsplit (Some s9) MAIN_DELIM MAX_FIELDS); eauto.
Qed.

Lemma add_numbers_label_total (id : option string) (c : phonebook_contact) :
  org_present {| cd_id := id; cd_contact := c |} ->
  exists c',
    add_numbers_label address_fields_present c reply = Some c'
    /\ org_present {| cd_id := id; cd_contact := c' |}.
Proof.
  unfold org_present. simpl. intros ([t Ht] & [co Hco] & [d Hd] & [r Hr]).
  unfold add_numbers_label.
  destruct (contact_add_numbers_total c) as [c1 E1]. rewrite E1.
  apply contact_add_numbers_extends in E1. destruct E1 as (ln & -> & _).
  destruct (contact_add_emails_total (with_numbers ln c)) as [c2 E2]. rewrite E2.
  apply contact_add_emails_extends in E2. destruct E2 as (le & -> & _).
  destruct (contact_add_addresses_total (with_emails le (with_numbers ln c)))
    as [c3 E3].
  rewrite E3.
  apply contact_add_addresses_extends in E3. destruct E3 as (la & -> & _).
  unfold contact_add_organization.
  change (col reply COL_TITLE) with (Some (Some s17)).
  change (col reply COL_ORG_NAME) with (Some (Some s19)).
  change (col reply COL_ORG_DEPARTMENT) with (Some (Some s20)).
  change (col reply COL_ORG_ROLE) with (Some (Some s15)).
  simpl title. simpl company. simpl department. simpl role.
  rewrite Ht, Hco, Hd, Hr.
  destruct (add_affiliation_total t (Some s17)) as [t' ->].
  destruct (add_affiliation_total co (Some s19)) as [co' ->].
  destruct (add_affiliation_total d (Some s20)) as [d' ->].
  destruct (add_affiliation_total r (Some s15)) as [r' ->].
  eexists. split; [reflexivity |]. simpl. eauto.
Qed.

Lemma contact_init_total (id : option string) :
  exists c,
    contact_init iso8601_utc_to_localtime zeroed_contact reply = Some c
    /\ org_present {| cd_id := id; cd_contact := c |}.
Proof.
  unfold contact_init. unfold reply, strings. cbn [map]. cols. unfold set_call_type.
  destruct (Z.eqb (g_strcmp0 (Some s22) (Some "NOTACALL")) 0);
    (eexists; split; [reflexivity |]; unfold org_present; simpl; eauto).
Qed.

Lemma add_entry_label_total (id : option string) (data : phonebook_data) :
  exists c,
    add_entry_label address_fields_present iso8601_utc_to_localtime reply id data =
      Some (set_contacts (contacts data ++ [{| cd_id := id; cd_contact := c |}]) data)
    /\ org_present {| cd_id := id; cd_contact := c |}.
Proof.
  unfold add_entry_label.
  destruct (contact_init_total id) as (c0 & -> & H0).
  destruct (add_numbers_label_total id c0 H0) as (c & -> & Hc).
  exists c. split; [reflexivity | exact Hc].
Qed.

(** [pull_contacts] returns on a row of 26 strings. *)
Lemma pull_row_total (data : phonebook_data) :
  contacts_freed data = false ->
  index data < INT_MAX ->
  Forall org_present (contacts data) ->
  exists data',
    pull (Some reply) 26 data = Some data'
    /\ contacts_freed data' = false
    /\ index data' <= index data + 1
    /\ Forall org_present (contacts data')
    /\ cb_calls data' = cb_calls data.
Proof.
  intros Hfreed Hidx Horg. unfold pull, pull_contacts. rewrite Hfreed.
  change (Z.ltb 26 0) with false. cbv iota.
  change (col reply CONTACTS_ID_COL) with (Some (Some s25)). cbv iota beta.
  destruct (find_contact (contacts data) (Some s25)) as [pos |] eqn:Hfind.
  - apply find_contact_Some in Hfind. destruct Hfind as ([id c] & Hc & _).
    rewrite Hc. cbv iota beta.
    pose proof (proj1 (Forall_lookup _ _) Horg _ _ Hc) as Hp.
    destruct (add_numbers_label_total id c Hp) as (c' & Hadd & Hp').
    simpl cd_contact. rewrite Hadd. eexists. split; [reflexivity |]. simpl.
    split; [exact Hfreed |]. split; [lia |]. split; [| reflexivity].
    apply Forall_insert; assumption.
  - assert (Hentry : forall d,
              contacts_freed d = false -> index d <= index data + 1 ->
              contacts d = contacts data -> cb_calls d = cb_calls data ->
              exists data',
                add_entry_label address_fields_present iso8601_utc_to_localtime
                  reply (Some s25) d = Some data'
                /\ contacts_freed data' = false
                /\ index data' <= index data + 1
                /\ Forall org_present (contacts data')
                /\ cb_calls data' = cb_calls data).
    { intros d Hf Hi Hc Hcalls.
      destruct (add_entry_label_total (Some s25) d) as (c & -> & Hp).
      eexists. split; [reflexivity |]. simpl. rewrite Hc.
      split; [exact Hf |]. split; [exact Hi |]. split; [| exact Hcalls].
      apply Forall_app. split; [exact Horg |]. constructor; [exact Hp | constructor]. }
    destruct (vcardentry data); [apply Hentry; auto with lia |].
    destruct (scan_empty_strings strings (Z.to_nat (26 - 4)) 0 ltac:(simpl; lia))
      as [i Hi].
    fold reply in Hi. rewrite Hi.
    cbv iota beta.
    assert (Hstay : exists data',
              Some data = Some data'
              /\ contacts_freed data' = false
              /\ index data' <= index data + 1
              /\ Forall org_present (contacts data')
              /\ cb_calls data' = cb_calls data).
    { exists data. auto with lia. }
    destruct (Z.eqb (Z.of_nat i) (26 - 4)); cbv iota beta;
      [destruct (negb (g_str_equal s25 TRACKER_DEFAULT_CONTACT_ME));
       [exact Hstay |] |];
      (destruct (negb (Z.eqb (g_strcmp0 (temp_id data) (Some s25)) 0));
       [assert (Z.eqb (index data) INT_MAX = false) as ->
          by (apply Z.eqb_neq; lia) |];
       cbv iota beta;
       match goal with
       | |- context [if ?b then Some ?d else _] =>
           destruct b;
           [eexists; split; [reflexivity |]; simpl; auto with lia
           | apply Hentry; simpl; auto with lia]
       end).
Qed.

End Total.

Section Replies.

Variable address_fields_present : string -> bool.
Variable phonebook_add_contact : string -> phonebook_contact -> Z -> Z -> string.
Variable iso8601_utc_to_localtime : string -> string.

Let pull := pull_contacts address_fields_present phonebook_add_contact
              iso8601_utc_to_localtime.

Lemma rows_total (element : list dbus_value) :
  Forall is_pull_row element ->
  forall data,
    contacts_freed data = false ->
    index data + Z.of_nat (length element) < INT_MAX ->
    Forall org_present (contacts data) ->
    cb_calls data = [] ->
    exists data' buffer,
      reply_rows pull 26 element data = Some data'
      /\ cb_calls data' =
           [PhonebookCb (Some buffer) (Z.of_nat (String.length buffer))
              (Z.of_nat (length (contacts data'))) 0].
Proof.
  induction 1 as [| e rest He Hrest IH]; intros data Hfreed Hidx Horg Hcalls.
  - cbn [reply_rows]. unfold pull, pull_contacts. rewrite Hfreed.
    eexists _, _. split; [reflexivity |]. simpl. rewrite Hcalls. reflexivity.
  - destruct He as (strs & -> & Hlen). cbn [reply_rows].
    rewrite (string_array_of_pull_row strs Hlen). cbv iota beta.
    destruct (row_of_strings strs Hlen)
      as (s0 & s1 & s2 & s3 & s4 & s5 & s6 & s7 & s8 & s9 & s10 & s11 & s12
          & s13 & s14 & s15 & s16 & s17 & s18 & s19 & s20 & s21 & s22 & s23
          & s24 & s25 & ->).
    simpl length in Hidx.
    destruct (pull_row_total address_fields_present phonebook_add_contact
                iso8601_utc_to_localtime
                s0 s1 s2 s3 s4 s5 s6 s7 s8 s9 s10 s11 s12 s13 s14 s15 s16 s17 s18
                s19 s20 s21 s22 s23 s24 s25 data Hfreed ltac:(lia) Horg)
      as (d1 & E1 & Hf1 & Hi1 & Ho1 & Hc1).
    fold pull in E1.
    destruct (IH d1 Hf1 ltac:(lia) Ho1 ltac:(congruence))
      as (data' & buffer & Hr & Hc).
    exists data', buffer. split; [| exact Hc].
    unfold row in *. rewrite E1. exact Hr.
Qed.

(** X20: a reply made of rows of 26 strings each (fewer rows than
    [INT_MAX]) is always answered: [query_reply] feeding [pull_contacts]
    comes to an end for a pull as for [PullvCardEntry], whatever the
    window, and reports once, the vCards of the contacts it has gathered
    together with their number. *)
Theorem well_formed_reply_is_answered (element args : list dbus_value)
    (entry : bool) (p : apparam_field) :
  Forall is_pull_row element ->
  Z.of_nat (length element) < INT_MAX ->
  exists data' buffer,
    query_reply pull (SparqlReply (DBusArray element :: args)) 26
      (new_phonebook_data entry p) = Some data'
    /\ cb_calls data' =
         [PhonebookCb (Some buffer) (Z.of_nat (String.length buffer))
            (Z.of_nat (length (contacts data'))) 0].
Proof.
  intros Hrows Hlen. cbn [query_reply].
  apply rows_total; [exact Hrows | reflexivity | simpl; lia | constructor | reflexivity].
Qed.

End Replies.

Lemma well_formed_reply_is_answered_witness :
  exists data' buffer,
    query_reply
      (pull_contacts TrackerScenario.present_always TrackerScenario.card_of
         TrackerScenario.time_as_given)
      TrackerScenario.jo_reply
      26 (new_phonebook_data false TrackerScenario.ten_from_two) = Some data'
    /\ cb_calls data' =
         [PhonebookCb (Some buffer) (Z.of_nat (String.length buffer))
            (Z.of_nat (length (contacts data'))) 0].
Proof.
  apply (well_formed_reply_is_answered TrackerScenario.present_always
           TrackerScenario.card_of TrackerScenario.time_as_given
           [DBusArray (map DBusString TrackerScenario.jo_strings)] []
           false TrackerScenario.ten_from_two).
  - constructor; [| constructor].
    exists TrackerScenario.jo_strings. split; reflexivity.
  - reflexivity.
Defined.

End WellFormedSpec.

(** ** The session core: further properties *)

Module LifecycleSpec.
Import GLib Session Observe Derived SessionSpec.

Local Open Scope string_scope.
Local Open Scope Z_scope.

Lemma be_value_from (l : list Z) :
  forall acc,
    fold_left (fun acc b => acc * 256 + b) l acc =
      acc * 256 ^ Z.of_nat (length l) + be_value l.
Proof.
  unfold be_value. induction l as [| x l IH]; intros acc.
  - simpl. lia.
  - cbn [fold_left length]. rewrite (IH (acc * 256 + x)), (IH (0 * 256 + x)).
    replace (Z.of_nat (S (length l))) with (1 + Z.of_nat (length l)) by lia.
    rewrite Z.pow_add_r by lia. lia.
Qed.

Lemma be_value_app (a b : list Z) :
  be_value (a ++ b) = be_value a * 256 ^ Z.of_nat (length b) + be_value b.
Proof.
  unfold be_value at 1. rewrite fold_left_app, be_value_from. reflexivity.
Qed.

Lemma be_bytes_length (n : nat) (v : Z) : length (be_bytes n v) = n.
Proof. induction n as [| n IH]; simpl; [reflexivity | rewrite IH; reflexivity]. Qed.

Lemma be_bytes_range (n : nat) (v : Z) :
  Forall (fun b => 0 <= b < 256) (be_bytes n v).
Proof.
  induction n as [| n IH]; simpl; constructor; [| exact IH].
  apply Z.mod_pos_bound. lia.
Qed.

Lemma be_bytes_value (n : nat) (v : Z) :
  be_value (be_bytes n v) = v mod 256 ^ Z.of_nat n.
Proof.
  induction n as [| n IH].
  - simpl. rewrite Z.mod_1_r. reflexivity.
  - change (be_bytes (S n) v)
      with ([Z.shiftr v (8 * Z.of_nat n) mod 256] ++ be_bytes n v)%list.
    rewrite be_value_app, IH, be_bytes_length.
    unfold be_value at 1. simpl fold_left.
    rewrite Z.shiftr_div_pow2 by lia.
    replace (2 ^ (8 * Z.of_nat n)) with (256 ^ Z.of_nat n)
      by (rewrite Z.pow_mul_r by lia; reflexivity).
    replace (Z.of_nat (S n)) with (Z.of_nat n + 1) by lia.
    rewrite Z.pow_add_r by lia. change (256 ^ 1) with 256.
    assert (Hp : 0 < 256 ^ Z.of_nat n) by (apply Z.pow_pos_nonneg; lia).
    rewrite (Z.rem_mul_r v (256 ^ Z.of_nat n) 256) by lia. lia.
Qed.

(** X21: [bt_string2uuid] fails with [-EINVAL] exactly when the text is
    not read as six fields; otherwise the UUID it makes has sixteen
    bytes, and they are the six fields in their order, each most
    significant byte first, in 4, 2, 2, 2, 4 and 2 bytes. *)
Theorem uuid_bytes_big_endian (X : extern) (str : string) :
  match x_sscanf_uuid X str with
  | None => bt_string2uuid X str = inl (- EINVAL)
  | Some (data0, data1, data2, data3, data4, data5) =>
      exists b0 b1 b2 b3 b4 b5,
        bt_string2uuid X str = inr (b0 ++ b1 ++ b2 ++ b3 ++ b4 ++ b5)%list
        /\ length (b0 ++ b1 ++ b2 ++ b3 ++ b4 ++ b5)%list = 16%nat
        /\ Forall (fun b => 0 <= b < 256) (b0 ++ b1 ++ b2 ++ b3 ++ b4 ++ b5)%list
        /\ (length b0 = 4%nat /\ be_value b0 = data0 mod 2 ^ 32)
        /\ (length b1 = 2%nat /\ be_value b1 = data1 mod 2 ^ 16)
        /\ (length b2 = 2%nat /\ be_value b2 = data2 mod 2 ^ 16)
        /\ (length b3 = 2%nat /\ be_value b3 = data3 mod 2 ^ 16)
        /\ (length b4 = 4%nat /\ be_value b4 = data4 mod 2 ^ 32)
        /\ (length b5 = 2%nat /\ be_value b5 = data5 mod 2 ^ 16)
  end.
Proof.
  unfold bt_string2uuid.
  destruct (x_sscanf_uuid X str) as [[[[[[d0 d1] d2] d3] d4] d5] |]; [| reflexivity].
  exists (be_bytes 4 d0), (be_bytes 2 d1), (be_bytes 2 d2), (be_bytes 2 d3),
    (be_bytes 4 d4), (be_bytes 2 d5).
  split; [reflexivity |].
  split; [rewrite !length_app, !be_bytes_length; reflexivity |].
  split; [repeat (apply Forall_app; split); apply be_bytes_range |].
  repeat split; try apply be_bytes_length; apply be_bytes_value.
Qed.

(** X22: [connect_cb] calls the front-end exactly once, before anything
    else, and gives it no error exactly when GObex reported none and the
    response code is 0x20; a response with any other code is turned into
    the error [-EIO] that names the code.  Then it drops the reference
    of the request, and what follows the call is teardown only. *)
Theorem connect_cb_reports_once (X : extern) (err : option GError) (rsp_code : Z)
    (callback : callback_data) (w : world) (v : obc_session) :
  heap w !! cb_session callback = Some v ->
  returns (connect_cb X err rsp_code callback) w (fun _ w' =>
    (connect_error err rsp_code = None <-> err = None /\ rsp_code = 32)
    /\ (heap w' !! cb_session callback = None
        \/ heap w' !! cb_session callback =
             Some (set_refcount (wrap_gint (refcount v - 1)) v))
    /\ exists evs,
         trace w' =
           (trace w ++ EvFunc (cb_func callback) (cb_session callback)
                        (connect_error err rsp_code) (cb_data callback) :: evs)%list
         /\ Forall (fun e => is_teardown e = true) evs).
Proof.
  intros Hv. unfold connect_cb.
  assert (Hg : (match err with
                | Some e => Some e
                | None =>
                    if negb (rsp_code =? G_OBEX_RSP_SUCCESS)
                    then Some {| domain := OBEX_IO_ERROR; code := - EIO;
                                 message := String.append "OBEX Connect failed with 0x"
                                              (hex02 rsp_code) |}
                    else None
                end) = connect_error err rsp_code).
  { unfold connect_error. destruct err; [reflexivity |].
    destruct (rsp_code =? G_OBEX_RSP_SUCCESS); reflexivity. }
  rewrite Hg. apply returns_bind, returns_emit.
  eapply returns_mono.
  - apply (unref_returns X (cb_session callback) v). simpl. exact Hv.
  - intros [] w' (_ & Hs & _ & _ & _ & _ & _ & evs & Htr & Hevs). simpl in *.
    split.
    { unfold connect_error, G_OBEX_RSP_SUCCESS. destruct err as [e |].
      - split; [discriminate | intros [H _]; discriminate H].
      - destruct (Z.eqb_spec rsp_code 32); split; auto; try discriminate.
        intros [_ H]. contradiction. }
    split; [exact Hs |].
    exists evs. split; [| exact Hevs]. rewrite Htr, <- app_assoc. reflexivity.
Qed.

Lemma connect_cb_reports_once_witness :
  returns (connect_cb Scenario.x_ok None 67 Scenario.connect_request)
    Scenario.w_ready (fun _ w' =>
      exists evs,
        trace w' =
          (trace Scenario.w_ready
             ++ EvFunc (cb_func Scenario.connect_request) 1%positive
                  (Some {| domain := OBEX_IO_ERROR; code := - EIO;
                           message := "OBEX Connect failed with 0x43" |})
                  (cb_data Scenario.connect_request) :: evs)%list).
Proof.
  eapply returns_mono.
  - apply (connect_cb_reports_once Scenario.x_ok None 67 Scenario.connect_request
             Scenario.w_ready Scenario.ready_session eq_refl).
  - intros [] w' (_ & _ & evs & Htr & _). exists evs. exact Htr.
Defined.

(** X23: when the disconnect watch cannot be set
    ([g_dbus_add_disconnect_watch] gives 0), [obc_session_set_owner]
    answers [-EINVAL] and leaves the owner's name as it was, although
    it has already removed the watch on that owner: the session is left
    with an owner nobody watches.  When the watch is set, the name is
    the new owner's and the answer is 0. *)
Theorem set_owner_failure_keeps_name (X : extern) (s : loc) (name : string)
    (w : world) (v : obc_session) :
  heap w !! s = Some v ->
  returns (obc_session_set_owner X s name) w (fun r w' =>
    trace w' =
      (trace w ++ (if watch v =? 0 then [] else [EvRemoveWatch (conn v) (watch v)])
         ++ [EvAddDisconnectWatch (conn v) name])%list
    /\ if x_add_disconnect_watch X =? 0
       then r = - EINVAL /\ heap w' !! s = Some (set_watch 0 v)
       else r = 0
            /\ heap w' !! s =
                 Some (set_owner (Some name) (set_watch (x_add_disconnect_watch X) v))).
Proof.
  intros Hv. unfold obc_session_set_owner, update, store, when, emit, returns, ret,
    load, bind.
  rewrite Hv.
  destruct (watch v =? 0) eqn:Hw;
    destruct (Z.eqb_spec (x_add_disconnect_watch X) 0) as [E | E];
    repeat (simpl; rewrite ?Hv, ?lookup_insert_eq, ?insert_insert_eq);
    rewrite <- ?app_assoc, ?E; auto.
Qed.

Lemma set_owner_failure_keeps_name_witness :
  returns (obc_session_set_owner Scenario.x_ok 1%positive ":1.50")
    Scenario.w_ready (fun r w' =>
      r = 0 /\ exists v', heap w' !! 1%positive = Some v' /\ owner v' = Some ":1.50").
Proof.
  eapply returns_mono.
  - apply (set_owner_failure_keeps_name Scenario.x_ok 1%positive ":1.50"
             Scenario.w_ready Scenario.ready_session eq_refl).
  - intros r w' (_ & H). simpl in H. destruct H as [-> H].
    split; [reflexivity |]. eexists. split; [exact H | reflexivity].
Defined.

(** X24: once [obc_session_set_agent] has returned, whatever it
    answered, the session has an agent, and every further call is
    refused with [-EALREADY] and changes nothing, not even the trace of
    calls. *)
Theorem second_agent_refused (X : extern) (s : loc) (name apath : string)
    (w w' : world) (r : Z) :
  obc_session_set_agent X s name apath w = Some (r, w') ->
  (r = 0 \/ r = - EALREADY)
  /\ forall name' apath',
       obc_session_set_agent X s name' apath' w' = Some (- EALREADY, w').
Proof.
  unfold obc_session_set_agent at 1. unfold bind at 1. unfold load at 1.
  destruct (heap w !! s) as [v |] eqn:Hv; [| discriminate].
  destruct (agent v) as [a |] eqn:Ha.
  - intros [= <- <-]. split; [right; reflexivity |]. intros name' apath'.
    unfold obc_session_set_agent, bind, load. rewrite Hv, Ha. reflexivity.
  - assert (Hset : forall w1 v1, heap w1 !! s = Some v1 ->
              (let* _ := update s (set_agent (Some {| agent_name := name;
                                                      agent_path := apath |})) in
               ret 0) w1 = Some (r, w') ->
              (r = 0 \/ r = - EALREADY)
              /\ forall name' apath',
                   obc_session_set_agent X s name' apath' w' = Some (- EALREADY, w')).
    { intros w1 v1 Hv1. unfold update, store, load, ret, bind. rewrite Hv1. simpl.
      rewrite Hv1. intros [= <- <-]. split; [left; reflexivity |].
      intros name' apath'. unfold obc_session_set_agent, bind, load. simpl.
      rewrite lookup_insert_eq. reflexivity. }
    destruct (watch v =? 0).
    + unfold bind at 1. unfold bind at 1.
      pose proof (set_owner_returns X s name w v Hv) as Hown. unfold returns in Hown.
      destruct (obc_session_set_owner X s name w) as [[z w1] |]; [| discriminate].
      destruct Hown as (_ & v1 & Hv1 & _). unfold ret at 1.
      apply (Hset w1 v1 Hv1).
    + unfold bind at 1. unfold ret at 1. apply (Hset w v Hv).
Qed.

Lemma second_agent_refused_witness :
  exists w',
    obc_session_set_agent Scenario.x_ok 1%positive ":1.42" "/agent" Scenario.w_ready
      = Some (0, w')
    /\ obc_session_set_agent Scenario.x_ok 1%positive ":1.43" "/other" w'
       = Some (- EALREADY, w').
Proof.
  eexists. split; [vm_compute; reflexivity |].
  apply (second_agent_refused Scenario.x_ok 1%positive ":1.42" "/agent"
           Scenario.w_ready _ 0 eq_refl).
Defined.

(** X25: a registration that succeeded is stable: asking again answers
    the same path and changes nothing, no number is used up and nothing
    is registered a second time.  A registration that failed leaves the
    session without a path, and has used up a session number all the
    same. *)
Theorem register_is_stable (X : extern) (s : loc) (w w' : world)
    (r : option string) :
  obc_session_register X s w = Some (r, w') ->
  match r with
  | Some p => obc_session_register X s w' = Some (Some p, w')
  | None =>
      counter w' = (counter w + 1) mod 2 ^ 64
      /\ exists v', heap w' !! s = Some v' /\ path v' = None
  end.
Proof.
  unfold obc_session_register at 1.
  unfold update, store, emit, ret, load, bind.
  destruct (heap w !! s) as [v |] eqn:Hv; [| discriminate].
  destruct (path v) as [p |] eqn:Hp.
  - intros [= <- <-].
    unfold obc_session_register, bind, load, ret. rewrite Hv, Hp. reflexivity.
  - repeat (simpl; rewrite ?Hv, ?lookup_insert_eq).
    assert (Hok : forall p w1 v1,
              heap w1 !! s = Some v1 -> path v1 = Some p ->
              obc_session_register X s w1 = Some (Some p, w1)).
    { intros p w1 v1 H1 H2.
      unfold obc_session_register, bind, load, ret. rewrite H1, H2. reflexivity. }
    destruct (x_register_interface X); simpl.
    2: { repeat (simpl; rewrite ?Hv, ?lookup_insert_eq).
         intros [= <- <-]. simpl. split; [reflexivity |].
         rewrite lookup_insert_eq. eauto. }
    destruct (driver v) as [d |]; [| discriminate].
    destruct (probe d); simpl.
    2: { intros [= <- <-]. eapply Hok; [simpl; apply lookup_insert_eq | reflexivity]. }
    destruct (x_driver_probe X <? 0); simpl.
    + repeat (simpl; rewrite ?Hv, ?lookup_insert_eq).
      intros [= <- <-]. simpl. split; [reflexivity |].
      rewrite lookup_insert_eq. eauto.
    + intros [= <- <-]. eapply Hok; [simpl; apply lookup_insert_eq | reflexivity].
Qed.

Lemma register_is_stable_witness :
  exists p w',
    obc_session_register Scenario.x_ok 1%positive Scenario.w_ready = Some (Some p, w')
    /\ obc_session_register Scenario.x_ok 1%positive w' = Some (Some p, w').
Proof.
  eexists _, _. split; [vm_compute; reflexivity |].
  apply (register_is_stable Scenario.x_ok 1%positive Scenario.w_ready _ (Some _)
           eq_refl).
Defined.

(** From [proceed:] on, when the request to the adapter manager cannot
    be built: the reference taken for the request is given back, the
    one taken for the caller is not. *)
Lemma proceed_send_failure (X : extern) (s : loc) (source owner_name : option string)
    (f : session_callback_t) (d : user_data_t) (w : world) (v : obc_session) :
  heap w !! s = Some v ->
  x_malloc_callback X = true ->
  (forall m, x_message_new X m = false) ->
  gint_range (refcount v) ->
  refcount v <> 0 ->
  returns (obc_session_create_proceed X s source owner_name f d) w (fun r w' =>
    r = None /\ w' = with_heap (<[s := v]> (heap w)) w).
Proof.
  intros Hv Hcb Hnew Hrange Hnz. unfold obc_session_create_proceed.
  rewrite Hcb. simpl negb. cbv iota.
  apply returns_bind. unfold returns at 1. rewrite (ref_returns s v w Hv).
  set (v1 := set_refcount (wrap_gint (refcount v + 1)) v).
  set (w1 := with_heap (<[s := v1]> (heap w)) w).
  assert (Hv1 : heap w1 !! s = Some v1) by apply lookup_insert_eq.
  apply returns_bind. eapply returns_load; [exact Hv1 |].
  apply returns_bind. unfold send_method_call. rewrite Hnew. simpl negb. cbv iota.
  apply returns_ret.
  apply returns_bind. unfold returns at 1.
  rewrite (unref_keeps X s v1 w1 Hv1).
  2: { subst v1. simpl. rewrite wrap_gint_bracket by exact Hrange. exact Hnz. }
  apply returns_ret. split; [reflexivity |].
  subst v1 w1. simpl.
  rewrite wrap_gint_bracket by exact Hrange. rewrite insert_insert_eq.
  unfold with_heap. simpl.
  replace (set_refcount (refcount v) (set_refcount (wrap_gint (refcount v + 1)) v))
    with v by (destruct v; reflexivity).
  reflexivity.
Qed.

(** X26: when [obc_session_create] has made a new session and cannot
    build the request to the adapter manager, it answers NULL without a
    word to anyone, and the session it has made stays allocated with
    the reference count 1: the reference of the caller, who never gets
    the session.  When instead the closure of the request cannot be
    allocated, the new session is freed before NULL is answered. *)
Theorem create_send_failure_keeps_session (X : extern) (str2ba : string -> bdaddr_t)
    (find_driver : option string -> option obc_driver)
    (source : option string) (destination : string) (service_name : option string)
    (ch : Z) (owner_name : option string) (f : session_callback_t)
    (d : user_data_t) (w : world) (drv : obc_driver) (c c' : nat) :
  sessions w = [] ->
  find_driver service_name = Some drv ->
  x_malloc_session X = true ->
  x_bus_session X = Some c ->
  x_bus_system X = Some c' ->
  (forall m, x_message_new X m = false) ->
  returns (obc_session_create X str2ba find_driver source (Some destination)
             service_name ch owner_name f d) w (fun r w' =>
    r = None
    /\ if x_malloc_callback X
       then trace w' = trace w
            /\ exists v', heap w' !! next_loc w = Some v' /\ refcount v' = 1
       else heap w' !! next_loc w = None).
Proof.
  intros Hreg Hdrv Hms Hbs Hby Hnew. unfold obc_session_create.
  apply returns_bind. unfold returns at 1, session_find. rewrite Hreg. simpl.
  rewrite Hdrv, Hms. simpl negb. cbv iota.
  set (l := next_loc w).
  apply returns_bind. unfold returns at 1, alloc_session. fold l.
  apply returns_bind. eapply returns_update; [simpl; apply lookup_insert_eq |].
  apply returns_bind. eapply returns_update; [simpl; apply lookup_insert_eq |].
  apply returns_bind. eapply returns_update; [simpl; apply lookup_insert_eq |].
  rewrite Hbs.
  apply returns_bind. eapply returns_update; [simpl; apply lookup_insert_eq |].
  rewrite Hby.
  apply returns_bind. eapply returns_update; [simpl; apply lookup_insert_eq |].
  apply returns_bind. eapply returns_update; [simpl; apply lookup_insert_eq |].
  apply returns_bind. eapply returns_update; [simpl; apply lookup_insert_eq |].
  match goal with
  | |- returns _ ?w6 _ => set (w6' := w6)
  end.
  match goal with
  | w6' := with_heap (<[l := ?v6]> _) _ |- _ => set (v6' := v6) in *
  end.
  assert (Hv6 : heap w6' !! l = Some v6') by apply lookup_insert_eq.
  destruct (x_malloc_callback X) eqn:Hcb.
  - eapply returns_mono.
    + apply (proceed_send_failure X l source owner_name f d w6' v6' Hv6 Hcb Hnew).
      * unfold gint_range. simpl. lia.
      * simpl. lia.
    + intros r w' [-> ->]. split; [reflexivity |]. split; [reflexivity |].
      exists v6'. split; [apply lookup_insert_eq | reflexivity].
  - unfold obc_session_create_proceed. rewrite Hcb. simpl negb. cbv iota.
    apply returns_bind. eapply returns_mono.
    + apply (unref_frees X l v6' w6' Hv6). reflexivity.
    + intros [] w' (Hh & _). apply returns_ret. split; [reflexivity |].
      rewrite Hh. apply lookup_delete_eq.
Qed.

Lemma create_send_failure_keeps_session_witness :
  returns (obc_session_create MapScenario.x_no_message Scenario.str2ba
             Scenario.find_driver None (Some Scenario.remote) (Some "MAP") 0 None
             11%nat 22%nat) Scenario.w_boot (fun r w' =>
    r = None /\ exists v', heap w' !! 1%positive = Some v' /\ refcount v' = 1).
Proof.
  eapply returns_mono.
  - apply (create_send_failure_keeps_session MapScenario.x_no_message Scenario.str2ba
             Scenario.find_driver None Scenario.remote (Some "MAP") 0 None
             11%nat 22%nat Scenario.w_boot Scenario.map_driver 1%nat 2%nat);
      reflexivity.
  - intros r w' [Hr H]. simpl in H. destruct H as [_ H]. split; assumption.
Defined.

(** X30: when the transport is connected but the OBEX engine cannot
    be made ([g_obex_new] gives NULL), [rfcomm_callback] calls the
    front-end with no error, as it does for a connection that succeeded,
    and drops the reference of the request.  The session is not put
    into the registry and gets no OBEX handle, so that a session still
    alive afterwards refuses its first request with [-ENOTCONN]. *)
Theorem obex_failure_reported_as_success (X : extern) (cb : callback_data)
    (w : world) (v : obc_session) :
  heap w !! cb_session cb = Some v ->
  obex v = None ->
  x_obex_new X = None ->
  returns (rfcomm_callback X None cb) w (fun _ w' =>
    (exists evs,
       trace w' =
         (trace w ++ EvFunc (cb_func cb) (cb_session cb) None (cb_data cb) :: evs)%list
       /\ Forall (fun e => is_teardown e = true) evs)
    /\ sessions w' `sublist_of` sessions w
    /\ (is_Some (heap w' !! cb_session cb) ->
        forall type filename targetname apparam func user_data,
          obc_session_get X (cb_session cb) type filename targetname apparam func
            user_data w' = Some (- ENOTCONN, w'))).
Proof.
  intros Hv Hobex Hnew. unfold rfcomm_callback.
  apply returns_bind. eapply returns_load; [exact Hv |].
  rewrite Hnew. unfold rfcomm_callback_done.
  apply returns_bind, returns_emit.
  eapply returns_mono.
  - apply (unref_returns X (cb_session cb) v). simpl. exact Hv.
  - intros [] w' (_ & Hs & Hsub & _ & _ & _ & _ & evs & Htr & Hevs). simpl in *.
    split.
    { exists evs. split; [| exact Hevs]. rewrite Htr, <- app_assoc. reflexivity. }
    split; [exact Hsub |].
    intros [v' Hv'] type filename targetname apparam func user_data.
    destruct Hs as [Hs | Hs]; [congruence |].
    unfold obc_session_get, bind, load. rewrite Hs. simpl. rewrite Hobex.
    reflexivity.
Qed.

Lemma obex_failure_reported_as_success_witness :
  returns (rfcomm_callback MapScenario.x_no_obex None Scenario.connect_request)
    MapScenario.w_connecting (fun _ w' =>
      exists evs,
        trace w' =
          (trace MapScenario.w_connecting
             ++ EvFunc (cb_func Scenario.connect_request) 1%positive None
                  (cb_data Scenario.connect_request) :: evs)%list).
Proof.
  eapply returns_mono.
  - apply (obex_failure_reported_as_success MapScenario.x_no_obex
             Scenario.connect_request MapScenario.w_connecting
             MapScenario.connecting_session eq_refl eq_refl eq_refl).
  - intros [] w' ((evs & Htr & _) & _). exists evs. exact Htr.
Defined.

End LifecycleSpec.

(** ** The Message Access front-end on top of the session *)

Module FrontEndSpec.
Import GLib Session Observe Map Derived SessionSpec.

Local Open Scope string_scope.
Local Open Scope Z_scope.

(** Running the session primitives on a world whose session is known. *)
Ltac run Hv :=
  unfold obc_session_get, obc_session_put, obc_transfer_register,
    obc_session_add_transfer, obc_session_get_transfer, transfer_path,
    install_callback, session_request, load_transfer, update, store, emit, load,
    ret, bind;
  repeat (simpl; rewrite ?Hv, ?lookup_insert_eq).

(** X27: a get whose transfer the agent turns down is answered with
    [Failed], and yet the transfer registered for it stays in the
    pending queue of the session: [obc_session_get] does not take it
    back.  From then on [UpdateInbox] is refused, since a put needs the
    queue to be empty. *)
Theorem failed_get_blocks_puts (X : extern) (session : loc) (map : user_data_t)
    (w : world) (v : obc_session) (o : nat) (a : obc_agent) (tp : string)
    (size : Z) :
  heap w !! session = Some v ->
  obex v = Some o ->
  pending v = [] ->
  agent v = Some a ->
  x_transfer_register X = Some (Some tp, size) ->
  x_agent_request X < 0 ->
  returns (map_get_folder_listing X session map) w (fun r w1 =>
    r = Some (Failed None)
    /\ (exists v1, heap w1 !! session = Some v1 /\ pending v1 = [next_loc w])
    /\ map_update_inbox X session map w1 = Some (Some (Failed None), w1)).
Proof.
  intros Hv Hobex Hpending Hagent Hreg Hreq.
  apply Z.ltb_lt in Hreq.
  unfold map_get_folder_listing, map_update_inbox, failed_or_pending, returns.
  run Hv. rewrite Hobex, Hreg.
  repeat (simpl; rewrite ?Hv, ?lookup_insert_eq, ?Hagent, ?Hpending, ?Hobex, ?Hreq).
  split; [reflexivity |]. split; [eauto |]. reflexivity.
Qed.

(** X28: [GetMessage] answers with the path of the transfer at the
    head of the pending queue.  When the session already has a transfer
    pending, that is the path of the older transfer, not of the one
    just registered for the message, which has been put at the end of
    the queue. *)
Theorem get_message_answers_oldest (X : extern) (session : loc) (w : world) (v : obc_session) (o : nat) (first : loc) (rest : list loc)
    (tr : obc_transfer) (tp : option string) (size : Z)
    (handle p : string) (more : list method_arg) :
  heap w !! session = Some v ->
  obex v = Some o ->
  pending v = first :: rest ->
  transfers w !! first = Some tr ->
  transfers w !! next_loc w = None ->
  x_transfer_register X = Some (tp, size) ->
  agent v = None \/ 0 <= x_agent_request X ->
  returns (map_get_message X session
             (StringArg handle :: ArrayArg :: StringArg p :: more)) w (fun r w1 =>
    r = Some (ReturnObjectPath (t_path tr))
    /\ exists v1, heap w1 !! session = Some v1
                  /\ pending v1 = (first :: rest ++ [next_loc w])%list).
Proof.
  intros Hv Hobex Hpending Hfirst Hfresh Hreg Hreq.
  assert (Hne : first <> next_loc w) by congruence.
  assert (Hreq' : agent v = None \/ (x_agent_request X <? 0) = false).
  { destruct Hreq as [H | H]; [left; exact H | right; apply Z.ltb_ge; exact H]. }
  unfold map_get_message, returns.
  run Hv. rewrite Hobex, Hreg.
  repeat (simpl; rewrite ?Hv, ?lookup_insert_eq, ?Hpending, ?Hobex).
  destruct (agent v) as [a |] eqn:Hagent, tp as [tp |];
    repeat (simpl; rewrite ?Hv, ?lookup_insert_eq, ?Hpending, ?Hobex);
    try (destruct Hreq' as [Hreq' | Hreq']; [discriminate Hreq' |];
         rewrite Hreq');
    repeat (simpl; rewrite ?Hv, ?lookup_insert_eq, ?Hpending, ?Hobex);
    rewrite lookup_insert_ne by congruence; rewrite Hfirst;
    cbn -[lookup insert];
    (split; [reflexivity |]; eexists; split; [apply lookup_insert_eq |];
     cbn -[lookup insert]; rewrite ?Hpending; reflexivity).
Qed.

Lemma get_message_answers_oldest_witness :
  returns (map_get_message Scenario.x_ok 1%positive
             [StringArg "20000100001"; ArrayArg; StringArg "/tmp/message"])
    Scenario.w_busy (fun r w1 =>
      r = Some (ReturnObjectPath (Some "/org/openobex/transfer0"))
      /\ exists v1, heap w1 !! 1%positive = Some v1
                    /\ pending v1 = [8%positive; 10%positive]).
Proof.
  apply (get_message_answers_oldest Scenario.x_ok 1%positive
           Scenario.w_busy Scenario.busy_session 6%nat 8%positive []
           Scenario.queued_transfer (Some "/org/openobex/transfer0") 100
           "20000100001" "/tmp/message" []);
    try reflexivity.
  left. reflexivity.
Defined.

Lemma failed_get_blocks_puts_witness :
  returns (map_get_folder_listing MapScenario.x_agent_refuses 1%positive
             MapScenario.map_data) MapScenario.w_agent (fun r w1 =>
    r = Some (Failed None)
    /\ (exists v1, heap w1 !! 1%positive = Some v1 /\ pending v1 = [10%positive])
    /\ map_update_inbox MapScenario.x_agent_refuses 1%positive MapScenario.map_data w1
       = Some (Some (Failed None), w1)).
Proof.
  apply (failed_get_blocks_puts MapScenario.x_agent_refuses 1%positive
           MapScenario.map_data MapScenario.w_agent MapScenario.agent_session
           6%nat {| agent_name := ":1.42"; agent_path := "/agent" |}
           "/org/openobex/transfer0" 100);
    reflexivity.
Defined.

(** X29: [map_probe] takes one reference on the session exactly when
    it answers 0: when the interface cannot be registered, [map_free]
    gives back the reference just taken, and when the data cannot be
    allocated none is taken.  [map_free], run when the interface goes
    away, gives back the reference of a probe that answered 0.  (The
    session is held by someone, and its count is within [gint].) *)
Theorem probe_reference_balance (X : extern) (session : loc) (w : world)
    (v : obc_session) :
  heap w !! session = Some v ->
  gint_range (refcount v) ->
  refcount v <> 0 ->
  (forall registered,
     map_probe X session false registered w = Some (- ENOMEM, w))
  /\ returns (map_probe X session true false) w (fun r w1 =>
       r = - ENOMEM /\ heap w1 = <[session := v]> (heap w)
       /\ trace w1 = trace w)
  /\ returns (map_probe X session true true) w (fun r w1 =>
       r = 0
       /\ heap w1 = <[session := set_refcount (wrap_gint (refcount v + 1)) v]> (heap w)
       /\ trace w1 = trace w
       /\ returns (map_free X session) w1 (fun _ w2 =>
            heap w2 = <[session := v]> (heap w) /\ trace w2 = trace w)).
Proof.
  intros Hv Hrange Hnz.
  set (v1 := set_refcount (wrap_gint (refcount v + 1)) v).
  set (w1 := with_heap (<[session := v1]> (heap w)) w).
  assert (Hv1 : heap w1 !! session = Some v1) by apply lookup_insert_eq.
  assert (Hback : returns (map_free X session) w1 (fun _ w2 =>
            heap w2 = <[session := v]> (heap w) /\ trace w2 = trace w)).
  { unfold map_free, returns. rewrite (unref_keeps X session v1 w1 Hv1).
    2: { subst v1. simpl. rewrite wrap_gint_bracket by exact Hrange. exact Hnz. }
    subst v1 w1. simpl. rewrite wrap_gint_bracket by exact Hrange.
    rewrite insert_insert_eq. split; [| reflexivity].
    f_equal. destruct v; reflexivity. }
  split; [reflexivity |]. split.
  - unfold map_probe. simpl negb. cbv iota.
    apply returns_bind. unfold returns at 1. rewrite (ref_returns session v w Hv).
    fold v1. fold w1. apply returns_bind.
    eapply returns_mono; [exact Hback |].
    intros [] w2 [Hh Ht]. apply returns_ret. auto.
  - unfold map_probe. simpl negb. cbv iota.
    apply returns_bind. unfold returns at 1. rewrite (ref_returns session v w Hv).
    fold v1. fold w1. apply returns_ret.
    split; [reflexivity |]. split; [reflexivity |]. split; [reflexivity |].
    exact Hback.
Qed.

Lemma probe_reference_balance_witness :
  returns (map_probe Scenario.x_ok 1%positive true false) Scenario.w_ready
    (fun r w1 => r = - ENOMEM
                 /\ heap w1 = <[1%positive := Scenario.ready_session]>
                                (heap Scenario.w_ready)
                 /\ trace w1 = trace Scenario.w_ready).
Proof.
  apply (proj1 (proj2 (probe_reference_balance Scenario.x_ok 1%positive
                         Scenario.w_ready Scenario.ready_session eq_refl
                         ltac:(unfold gint_range; simpl; lia)
                         ltac:(simpl; lia)))).
Defined.

End FrontEndSpec.
